(** * conversor_de_partituras: a shallow embedding of the page pipeline

    The Python module [conversor_de_partituras.py] turns every page of a PDF
    into a narrated audio file.  This development embeds the functions
    [is_sheet_music], [generate_narration_text], [find_musicxml_file],
    [process_pdf] and the endpoints [process_file], [list_audiobooks] and
    [get_audiobook], together with the parts of the Python runtime they
    rely on, and states the properties of the pipeline over that
    embedding.

    Python [str] values are modelled by [string] holding the UTF-8 encoding
    of the text; the file system, the external tools and the result index
    are explicit state. *)

From Stdlib Require Import ZArith NArith Ascii String Lia SpecFloat.
From Stdlib Require QArith.
From stdpp Require Import gmap strings list pretty.

Local Open Scope char_scope.
Local Open Scope stdpp_scope.

(** ** Python string helpers *)

Module PyStr.

(** [bool(s)] for a [str]: true iff the string is not empty. *)
Definition truthy (s : string) : bool :=
  match s with
  | EmptyString => false
  | String _ _ => true
  end.

Fixpoint rev_onto (s acc : string) : string :=
  match s with
  | EmptyString => acc
  | String c s' => rev_onto s' (String c acc)
  end.

Definition rev (s : string) : string := rev_onto s EmptyString.

Definition code (c : ascii) : N := N_of_ascii c.

(** One-byte white space of [str.strip()]: U+0009..U+000D, U+001C..U+001F
    and U+0020. *)
Definition space1 (c : ascii) : bool :=
  let n := code c in
  ((9 <=? n) && (n <=? 13) || (28 <=? n) && (n <=? 32))%N.

(** Two-byte white space: U+0085 (C2 85) and U+00A0 (C2 A0). *)
Definition space2 (c1 c2 : ascii) : bool :=
  ((code c1 =? 194) && ((code c2 =? 133) || (code c2 =? 160)))%N.

(** Three-byte white space: U+1680 (E1 9A 80), U+2000..U+200A
    (E2 80 80..8A), U+2028, U+2029 (E2 80 A8, A9), U+202F (E2 80 AF),
    U+205F (E2 81 9F) and U+3000 (E3 80 80). *)
Definition space3 (c1 c2 c3 : ascii) : bool :=
  let '(a, b, c) := (code c1, code c2, code c3) in
  ((a =? 225) && (b =? 154) && (c =? 128)
   || (a =? 226) && (b =? 128)
      && ((128 <=? c) && (c <=? 138) || (c =? 168) || (c =? 169) || (c =? 175))
   || (a =? 226) && (b =? 129) && (c =? 159)
   || (a =? 227) && (b =? 128) && (c =? 128))%N.

(** The rest of [s] after one leading white-space code point, if any. *)
Definition drop_space (s : string) : option string :=
  match s with
  | String c1 s1 =>
      if space1 c1 then Some s1 else
      match s1 with
      | String c2 s2 =>
          if space2 c1 c2 then Some s2 else
          match s2 with
          | String c3 s3 => if space3 c1 c2 c3 then Some s3 else None
          | EmptyString => None
          end
      | EmptyString => None
      end
  | EmptyString => None
  end.

(** The same on a reversed string: the bytes of the last code point come
    first, in reverse order. *)
Definition drop_space_rev (s : string) : option string :=
  match s with
  | String c1 s1 =>
      if space1 c1 then Some s1 else
      match s1 with
      | String c2 s2 =>
          if space2 c2 c1 then Some s2 else
          match s2 with
          | String c3 s3 => if space3 c3 c2 c1 then Some s3 else None
          | EmptyString => None
          end
      | EmptyString => None
      end
  | EmptyString => None
  end.

Fixpoint drop_while (step : string -> option string) (fuel : nat) (s : string) : string :=
  match fuel with
  | O => s
  | S fuel' =>
      match step s with
      | Some s' => drop_while step fuel' s'
      | None => s
      end
  end.

Definition lstrip (s : string) : string :=
  drop_while drop_space (String.length s) s.

Definition rstrip (s : string) : string :=
  rev (drop_while drop_space_rev (String.length s) (rev s)).

(** [s.strip()] *)
Definition strip (s : string) : string := rstrip (lstrip s).

(** [s.replace(old, new)] for a one-character [old]. *)
Fixpoint replace (old : ascii) (new : string) (s : string) : string :=
  match s with
  | EmptyString => EmptyString
  | String c s' =>
      if Ascii.eqb c old then new +:+ replace old new s'
      else String c (replace old new s')
  end.

(** [s.startswith(c)] and [s.endswith(c)] for a one-character [c]. *)
Definition startswith (c : ascii) (s : string) : bool :=
  match s with
  | String c' _ => Ascii.eqb c' c
  | EmptyString => false
  end.

Definition endswith (c : ascii) (s : string) : bool := startswith c (rev s).

(** [str(i)] for a non-negative [int]. *)
Definition of_nat (i : nat) : string := pretty i.

End PyStr.

(** ** [os.path] *)

Module OsPath.

(** [posixpath.join(a, b)]: an absolute [b] discards [a]; otherwise the
    two are joined with exactly one separator. *)
Definition join (a b : string) : string :=
  if PyStr.startswith "/" b then b
  else if negb (PyStr.truthy a) || PyStr.endswith "/" a then a +:+ b
  else a +:+ "/" +:+ b.

(** Scan of the reversed file-name part for [splitext]: returns the
    reversed extension (without its dot) and the reversed text before the
    last dot, when the name part has a dot. *)
Fixpoint split_last_dot (r ext : string) : option (string * string) :=
  match r with
  | EmptyString => None
  | String c r' =>
      if Ascii.eqb c "/" then None
      else if Ascii.eqb c "." then Some (ext, r')
      else split_last_dot r' (String c ext)
  end.

(** Is there a character other than a dot before the next separator? *)
Fixpoint has_non_dot (r : string) : bool :=
  match r with
  | EmptyString => false
  | String c r' =>
      if Ascii.eqb c "/" then false
      else if Ascii.eqb c "." then has_non_dot r'
      else true
  end.

(** [posixpath.splitext(p)]: the extension starts at the last dot of the
    last path component, leading dots of that component not counting. *)
Definition splitext (p : string) : string * string :=
  match split_last_dot (PyStr.rev p) EmptyString with
  | Some (ext, before) =>
      if has_non_dot before then (PyStr.rev before, String "." ext)
      else (p, EmptyString)
  | None => (p, EmptyString)
  end.

End OsPath.

(** ** Python dictionaries

    A [dict] keeps its keys in insertion order; assigning to an existing
    key replaces the value in place. *)

Module PyDict.

Abbreviation t V := (list (string * V)) (only parsing).

Definition empty {V} : t V := [].

(** [d[k] = v] *)
Fixpoint setitem {V} (k : string) (v : V) (d : t V) : t V :=
  match d with
  | [] => [(k, v)]
  | (k', v') :: d' =>
      if String.eqb k' k then (k', v) :: d'
      else (k', v') :: setitem k v d'
  end.

(** [d.get(k)] *)
Fixpoint get {V} (k : string) (d : t V) : option V :=
  match d with
  | [] => None
  | (k', v') :: d' => if String.eqb k' k then Some v' else get k d'
  end.

Definition keys {V} (d : t V) : list string := map fst d.

(** Number of entries stored under [k]. *)
Definition count {V} (k : string) (d : t V) : nat :=
  length (filter (λ e, e.1 = k) d).

End PyDict.

(** ** Exceptions *)

Inductive exn : Type :=
| Exception (msg : string)            (* [raise Exception(msg)] *)
| CalledProcessError (cmd : string)   (* [subprocess.run(..., check=True)] *)
| ZeroDivisionError
| FileNotFoundError (path : string)
| LibraryError (origin : string).     (* raised inside an imported package *)

(** [isinstance(e, subprocess.CalledProcessError)] *)
Definition is_CalledProcessError (e : exn) : bool :=
  match e with
  | CalledProcessError _ => true
  | _ => false
  end.

(** The result of evaluating an expression that may raise. *)
Inductive result (A : Type) : Type :=
| Ok (a : A)
| Raise (e : exn).
Arguments Ok {A} a.
Arguments Raise {A} e.

#[global] Instance result_ret : MRet result := @Ok.
#[global] Instance result_bind : MBind result :=
  λ A B f r, match r with Ok a => f a | Raise e => Raise e end.

(** [try: body  except Exception: handler] *)
Definition try_except {A} (body : result A) (handler : exn → result A) : result A :=
  match body with
  | Ok a => Ok a
  | Raise e => handler e
  end.

(** ** music21 scores as seen by this program *)

(** A tempo number is an [int] or a [float]; of a [float] only its text
    [str(x)] and whether it is zero matter here. *)
Inductive Number : Type :=
| PyInt (z : Z)
| PyFloat (text : string) (is_zero : bool).

Definition number_truthy (n : Number) : bool :=
  match n with
  | PyInt z => negb (z =? 0)%Z
  | PyFloat _ is_zero => negb is_zero
  end.

Definition number_str (n : Number) : string :=
  match n with
  | PyInt z => pretty z
  | PyFloat text _ => text
  end.

Record Key := { tonic_name : string; mode : string }.

Record Metadata := { title : option string }.

Record Score := {
  (** [score.metadata] *)
  metadata : option Metadata;
  (** [score.analyze('key')], with its [tonic.name] and [mode] *)
  analyze_key : result Key;
  (** [ratioString] of the elements of
      [score.recurse().getElementsByClass(meter.TimeSignature)] *)
  time_signatures : result (list string);
  (** [number] of the elements of
      [score.recurse().getElementsByClass('MetronomeMark')] *)
  metronome_marks : result (list (option Number));
}.

(** ** [generate_narration_text] *)

Definition intro_clause (title : string) : string :=
  "A seguir, você ouvirá a peça " +:+ title +:+ ". ".
Definition key_clause (k : Key) : string :=
  "Esta peça está na tonalidade de " +:+ tonic_name k +:+ " " +:+ mode k +:+ ". ".
Definition key_fallback : string :=
  "A tonalidade da peça não pôde ser determinada. ".
Definition meter_clause (ratio : string) : string :=
  "O compasso é " +:+ ratio +:+ ". ".
Definition meter_fallback : string :=
  "O compasso não foi identificado. ".
Definition tempo_clause (tempo : Number) : string :=
  "O andamento é de " +:+ number_str tempo +:+ " batidas por minuto. ".
Definition tempo_fallback : string :=
  "O andamento não foi identificado. ".
Definition closing_clause : string :=
  "Ouça atentamente e observe os detalhes para aprender a tocar esta música.".

(** [for mm in ...: tempo = mm.number; break], starting from [tempo = None] *)
Definition first_number (marks : list (option Number)) : option Number :=
  match marks with
  | [] => None
  | number :: _ => number
  end.

Definition generate_narration_text (score : Score) (title : string) : result string :=
  let narration := intro_clause title in
  narration ← try_except
    (analyzed_key ← analyze_key score;
     Ok (narration +:+ key_clause analyzed_key))
    (λ _, Ok (narration +:+ key_fallback));
  narration ← try_except
    (ts ← time_signatures score;
     match ts with
     | ts0 :: _ => Ok (narration +:+ meter_clause ts0)
     | [] => Ok (narration +:+ meter_fallback)
     end)
    (λ _, Ok (narration +:+ meter_fallback));
  narration ← try_except
    (marks ← metronome_marks score;
     match first_number marks with
     | Some tempo =>
         if number_truthy tempo then Ok (narration +:+ tempo_clause tempo)
         else Ok (narration +:+ tempo_fallback)
     | None => Ok (narration +:+ tempo_fallback)
     end)
    (λ _, Ok (narration +:+ tempo_fallback));
  Ok (narration +:+ closing_clause).

(** ** Python floats and true division

    A [float] is an IEEE 754 binary64 value; [SpecFloat] gives its
    operations on integers.  [a / b] on two [int]s is the exact quotient
    rounded to nearest, ties to even. *)

Module PyFloat.

Definition prec : Z := 53.
Definition emax : Z := 1024.

(** An [int] as the mantissa of a (not yet rounded) binary number. *)
Definition of_int (z : Z) : spec_float :=
  match z with
  | Z0 => S754_zero false
  | Zpos p => S754_finite false p 0
  | Zneg p => S754_finite true p 0
  end.

(** [a / b] for [int] operands *)
Definition truediv (a b : Z) : result spec_float :=
  if (b =? 0)%Z then Raise ZeroDivisionError
  else Ok (SFdiv prec emax (of_int a) (of_int b)).

(** [x > y] *)
Definition gt (x y : spec_float) : bool := SFltb y x.

(** The literal [0.01]: 5764607523034235 * 2^-59. *)
Definition lit_0_01 : spec_float := S754_finite false 5764607523034235 (-59).

End PyFloat.

(** ** Page images and the OpenCV operations of [is_sheet_music] *)

(** One element of the array returned by [cv2.imread]: blue, green and red
    samples, each in 0..255. *)
Record Pixel := { chan_b : Z; chan_g : Z; chan_r : Z }.

(** A [shape[0]] x [shape[1]] array of pixels, indexed [row], [column]. *)
Record Image := {
  shape0 : nat;
  shape1 : nat;
  pixel_at : nat → nat → Pixel;
}.

(** A single-channel row of 8-bit samples. *)
Definition GrayRow := list Z.

Module Cv2.

(** [cv2.cvtColor(image, cv2.COLOR_BGR2GRAY)] on one 8-bit pixel, in the
    library's 15-bit fixed point: 0.299 R + 0.587 G + 0.114 B. *)
Definition bgr2gray (p : Pixel) : Z :=
  Z.shiftr (chan_b p * 3735 + chan_g p * 19235 + chan_r p * 9798 + 16384) 15.

(** [cv2.cvtColor(image, cv2.COLOR_BGR2GRAY)]; an empty source is refused. *)
Definition cvtColor (luma : Pixel → Z) (image : Image) : result (list GrayRow) :=
  if bool_decide (shape0 image = 0 ∨ shape1 image = 0)
  then Raise (LibraryError "cv2.cvtColor")
  else Ok (map (λ y, map (λ x, luma (pixel_at image y x)) (seq 0 (shape1 image)))
               (seq 0 (shape0 image))).

(** [cv2.threshold(gray, thresh, maxval, cv2.THRESH_BINARY_INV)[1]] *)
Definition threshold_binary_inv (thresh maxval : Z) (gray : list GrayRow)
    : list GrayRow :=
  map (map (λ v, if (thresh <? v)%Z then 0%Z else maxval)) gray.

(** The samples of [row] under a horizontal window of [2 * radius + 1]
    columns centred at [x]; columns outside the image are left out, which
    is what the default border value of the morphology functions does. *)
Definition window (radius : nat) (row : GrayRow) (x : nat) : list Z :=
  take (x + radius + 1 - (x - radius)) (drop (x - radius) row).

(** One pass of [cv2.erode] / [cv2.dilate] with the kernel
    [getStructuringElement(MORPH_RECT, (2 * radius + 1, 1))], anchored at
    its centre. *)
Definition erode_row (radius : nat) (row : GrayRow) : GrayRow :=
  map (λ x, foldr Z.min 255%Z (window radius row x)) (seq 0 (length row)).

Definition dilate_row (radius : nat) (row : GrayRow) : GrayRow :=
  map (λ x, foldr Z.max 0%Z (window radius row x)) (seq 0 (length row)).

(** [cv2.morphologyEx(src, cv2.MORPH_OPEN, kernel, iterations=n)]:
    [n] erosions followed by [n] dilations. *)
Definition morph_open (radius iterations : nat) (src : list GrayRow)
    : list GrayRow :=
  map (λ row, Nat.iter iterations (dilate_row radius)
                (Nat.iter iterations (erode_row radius) row)) src.

(** [cv2.countNonZero] *)
Definition countNonZero (img : list GrayRow) : Z :=
  Z.of_nat (length (filter (λ v, v ≠ 0%Z) (concat img))).

End Cv2.

(** ** [is_sheet_music] *)

Section Classifier.

(** The luma conversion of the installed OpenCV build. *)
Variable luma : Pixel → Z.

Definition detected_lines (gray : list GrayRow) : list GrayRow :=
  let thresh := Cv2.threshold_binary_inv 127 255 gray in
  (* horizontal_kernel is 25 columns by 1 row: radius 12 *)
  Cv2.morph_open 12 2 thresh.

Definition total_pixels (image : Image) : Z :=
  Z.of_nat (shape0 image) * Z.of_nat (shape1 image).

Definition is_sheet_music (image : Image) : result bool :=
  gray ← Cv2.cvtColor luma image;
  let line_pixels := Cv2.countNonZero (detected_lines gray) in
  ratio ← PyFloat.truediv line_pixels (total_pixels image);
  Ok (PyFloat.gt ratio PyFloat.lit_0_01).

End Classifier.

(** ** pydub audio segments

    The program only reads segments, makes silence, concatenates and
    exports; the interface below is what it relies on.  [audio_duration]
    is [len(segment)], in milliseconds; the program never calls it. *)

Class AudioLib := {
  AudioSegment : Type;
  (** [a + b] *)
  audio_add : AudioSegment → AudioSegment → AudioSegment;
  (** [AudioSegment.silent(duration=ms)] *)
  audio_silent : Z → AudioSegment;
  (** [len(a)] *)
  audio_duration : AudioSegment → Z;
}.

(** Segments as lists of samples, one per millisecond. *)
Module SampleAudio.

Definition add (a b : list Z) : list Z := (a ++ b)%list.
Definition silent (ms : Z) : list Z := replicate (Z.to_nat ms) 0%Z.
Definition duration (a : list Z) : Z := Z.of_nat (length a).

Definition lib : AudioLib :=
  {| AudioSegment := list Z; audio_add := add; audio_silent := silent;
     audio_duration := duration |}.

End SampleAudio.

(** Segments as pydub measures them: a number of frames at a frame rate.
    The samples, the channels and the sample width are left out; they do
    not change the number of frames. *)
Module Pydub.

Local Open Scope Z_scope.

Record Segment := { frame_rate : Z; frame_count : Z }.

(** [round(n / d)] for [0 <= n] and [0 < d]: to the nearest integer, a
    tie going to the even one. *)
Definition round_div (n d : Z) : Z :=
  let q := n / d in
  let r := n mod d in
  if 2 * r <? d then q
  else if d <? 2 * r then q + 1
  else if Z.even q then q else q + 1.

(** [len(seg)]: [round(1000 * (self.frame_count() / self.frame_rate))] *)
Definition duration (seg : Segment) : Z :=
  round_div (1000 * frame_count seg) (frame_rate seg).

(** The number of frames [audioop.ratecv] returns for [n] frames when it
    starts without state: one for the first frame, then one each time
    the output clock has not passed the input clock. *)
Definition ratecv_frames (n inrate outrate : Z) : Z :=
  if n <=? 0 then 0 else (n - 1) * outrate / inrate + 1.

(** [seg.set_frame_rate(rate)] *)
Definition set_frame_rate (rate : Z) (seg : Segment) : Segment :=
  if rate =? frame_rate seg then seg
  else {| frame_rate := rate;
          frame_count := ratecv_frames (frame_count seg) (frame_rate seg) rate |}.

(** [a + b], that is [a.append(b, crossfade=0)]: both operands are
    brought to the larger of the two frame rates, then joined. *)
Definition add (a b : Segment) : Segment :=
  let rate := Z.max (frame_rate a) (frame_rate b) in
  {| frame_rate := rate;
     frame_count := frame_count (set_frame_rate rate a)
                    + frame_count (set_frame_rate rate b) |}.

(** [AudioSegment.silent(duration=ms)]: [int(frame_rate * (ms / 1000.0))]
    frames at the default frame rate of 11025 Hz. *)
Definition silent (ms : Z) : Segment :=
  {| frame_rate := 11025; frame_count := 11025 * ms / 1000 |}.

Definition lib : AudioLib :=
  {| AudioSegment := Segment; audio_add := add; audio_silent := silent;
     audio_duration := duration |}.

End Pydub.

(** ** The world of one conversion job *)

Section Pipeline.

Context `{AudioLib}.

(** Configuration read from the environment when the module is loaded. *)
Variable SOUNDFONT_PATH : string.
Variable luma : Pixel → Z.

(** What a file holds, as far as this program can tell. *)
Inductive FileData : Type :=
| PngData (img : Image)
| ScoreData (parsed : result Score)   (* MusicXML; [parsed] is what [converter.parse] makes of it *)
| MidiData
| WavData (audio : AudioSegment)
| RawData.

(** The lines the program prints. *)
Inductive Message : Type :=
| MsgIsSheet (i : nat)
| MsgOmrError (i : nat) (err : exn)
| MsgNoMusicXml (i : nat)
| MsgSynthError (i : nat) (err : exn)
| MsgSaved (final_audio_file : string)
| MsgPageError (i : nat) (e : exn)
| MsgNotSheet (i : nat).

(** What the job does to the outside, in order. *)
Inductive Event : Type :=
| ConvertFromPath (pdf_path : string) (dpi : Z)
| Subprocess (cmd : string)
| Speak (rate : Z) (text file : string)
| Print (m : Message).

Record State := {
  files : gmap string FileData;          (* the file system *)
  trace : list Event;                    (* oldest first *)
  narrated_scores : PyDict.t string;     (* the local of [process_pdf] *)
}.

(** What the environment does while one page is processed. *)
Record PageEnv := {
  page_image : Image;                      (* the rasterized page *)
  temp_id : string;                        (* [uuid.uuid4().hex] *)
  omr_exit_ok : bool;                      (* audiveris exit status is zero *)
  omr_xml : option (result Score);         (* written as [<base>.xml] *)
  omr_mxl : option (result Score);         (* written as [<base>.mxl] *)
  midi_translate_ok : bool;                (* [music21ObjectToMidiFile] returns *)
  midi_write_ok : bool;                    (* [mf.write()] returns *)
  synth_exit_ok : bool;                    (* fluidsynth exit status is zero *)
  synth_wav : option AudioSegment;         (* written as the [-F] file *)
  tts : string → result AudioSegment;      (* pyttsx3 on a narration text *)
  export_ok : bool;                        (* [final_audio.export] returns *)
}.

(** ** Control flow: a state monad with exceptions and [continue] *)

Inductive Ctl (A : Type) : Type :=
| Normal (a : A)
| Raised (e : exn)
| Continue.
Arguments Normal {A} a.
Arguments Raised {A} e.
Arguments Continue {A}.

Definition M (A : Type) : Type := State → Ctl A * State.

Definition ret {A} (a : A) : M A := λ st, (Normal a, st).

Definition bind {A B} (m : M A) (k : A → M B) : M B :=
  λ st, match m st with
        | (Normal a, st') => k a st'
        | (Raised e, st') => (Raised e, st')
        | (Continue, st') => (Continue, st')
        end.

Definition raise {A} (e : exn) : M A := λ st, (Raised e, st).
Definition continue_ {A} : M A := λ st, (Continue, st).

Definition lift {A} (r : result A) : M A :=
  match r with
  | Ok a => ret a
  | Raise e => raise e
  end.

(** [try: body  except <class>: handler]; [continue] is not an exception. *)
Definition try_catch {A} (catches : exn → bool) (body : M A) (handler : exn → M A) : M A :=
  λ st, match body st with
        | (Raised e, st') => if catches e then handler e st' else (Raised e, st')
        | other => other
        end.

(** [for x in xs: body x] *)
Fixpoint for_each {A} (body : A → M unit) (xs : list A) : M unit :=
  match xs with
  | [] => ret tt
  | x :: xs' =>
      λ st, match body x st with
            | (Normal _, st') | (Continue, st') => for_each body xs' st'
            | (Raised e, st') => (Raised e, st')
            end
  end.

(** [enumerate(xs)], counting from [i] *)
Fixpoint enumerate_from {A} (i : nat) (xs : list A) : list (nat * A) :=
  match xs with
  | [] => []
  | x :: xs' => (i, x) :: enumerate_from (S i) xs'
  end.

#[local] Instance M_ret : MRet M := @ret.
#[local] Instance M_bind : MBind M := λ A B k m, bind m k.

(** ** The operations the job performs on its world *)

Definition emit (ev : Event) : M unit :=
  λ st, (Normal tt, {| files := files st; trace := trace st ++ [ev];
                       narrated_scores := narrated_scores st |}).

Definition print (m : Message) : M unit := emit (Print m).

Definition write_file (path : string) (data : FileData) : M unit :=
  λ st, (Normal tt, {| files := <[path := data]> (files st); trace := trace st;
                       narrated_scores := narrated_scores st |}).

Definition read_file (path : string) : M (option FileData) :=
  λ st, (Normal (files st !! path), st).

(** [os.path.exists(path)] *)
Definition os_path_exists (path : string) : M bool :=
  data ← read_file path;
  ret (match data with Some _ => true | None => false end).

(** [os.remove(path)] *)
Definition os_remove (path : string) : M unit :=
  λ st, match files st !! path with
        | Some _ => (Normal tt, {| files := delete path (files st); trace := trace st;
                                   narrated_scores := narrated_scores st |})
        | None => (Raised (FileNotFoundError path), st)
        end.

(** [narrated_scores = {}] and [narrated_scores[title] = filename] *)
Definition set_narrated_scores (d : PyDict.t string) : M unit :=
  λ st, (Normal tt, {| files := files st; trace := trace st; narrated_scores := d |}).

Definition get_narrated_scores : M (PyDict.t string) :=
  λ st, (Normal (narrated_scores st), st).

Definition assign_narrated_score (title filename : string) : M unit :=
  d ← get_narrated_scores;
  set_narrated_scores (PyDict.setitem title filename d).

(** [subprocess.run(cmd, shell=True, check=True)]: [tool] is what the
    program started by [cmd] does to the files, returning whether its exit
    status is zero. *)
Definition subprocess_run (cmd : string) (tool : M bool) : M unit :=
  emit (Subprocess cmd);;
  exit_ok ← tool;
  if exit_ok : bool then ret tt else raise (CalledProcessError cmd).

Definition write_if_some (path : string) (data : option FileData) : M unit :=
  match data with
  | Some d => write_file path d
  | None => ret tt
  end.

(** Audiveris on [image_file]: its exports take the base name of the input. *)
Definition audiveris (p : PageEnv) (image_file : string) : M bool :=
  let base := (OsPath.splitext image_file).1 in
  write_if_some (base +:+ ".xml") (ScoreData <$> omr_xml p);;
  write_if_some (base +:+ ".mxl") (ScoreData <$> omr_mxl p);;
  ret (omr_exit_ok p).

(** FluidSynth rendering into [out_file]. *)
Definition fluidsynth (p : PageEnv) (out_file : string) : M bool :=
  write_if_some out_file (WavData <$> synth_wav p);;
  ret (synth_exit_ok p).

(** [pdf2image.convert_from_path(pdf_path, dpi=dpi)]; [pdf] is what the
    rasterizer makes of the document. *)
Definition convert_from_path (pdf : result (list PageEnv)) (pdf_path : string) (dpi : Z)
    : M (list PageEnv) :=
  emit (ConvertFromPath pdf_path dpi);;
  lift pdf.

(** [cv2.imread(path)]: [None] when the file is not an image. *)
Definition cv2_imread (path : string) : M (option Image) :=
  data ← read_file path;
  ret (match data with Some (PngData img) => Some img | _ => None end).

(** [is_sheet_music(img)] on the value returned by [cv2.imread] *)
Definition classify (img : option Image) : M bool :=
  match img with
  | Some image => lift (is_sheet_music luma image)
  | None => raise (LibraryError "cv2.cvtColor")
  end.

(** [converter.parse(path)] *)
Definition converter_parse (path : string) : M Score :=
  data ← read_file path;
  match data with
  | Some (ScoreData parsed) => lift parsed
  | _ => raise (LibraryError "converter.parse")
  end.

(** [AudioSegment.from_wav(path)] *)
Definition from_wav (path : string) : M AudioSegment :=
  data ← read_file path;
  match data with
  | Some (WavData audio) => ret audio
  | Some _ => raise (LibraryError "AudioSegment.from_wav")
  | None => raise (FileNotFoundError path)
  end.

(** [final_audio.export(path, format="wav")] *)
Definition export (p : PageEnv) (audio : AudioSegment) (path : string) : M unit :=
  if export_ok p then write_file path (WavData audio)
  else raise (FileNotFoundError path).

(** ** [generate_narration_audio] *)

Definition generate_narration_audio (p : PageEnv) (narration_text narration_file : string)
    : M unit :=
  (* engine.setProperty("rate", 150); engine.save_to_file(...); engine.runAndWait() *)
  emit (Speak 150 narration_text narration_file);;
  audio ← lift (tts p narration_text);
  write_file narration_file (WavData audio).

(** ** [find_musicxml_file] *)

Definition find_musicxml_file (base_path : string) : M (option string) :=
  let possible_xml := base_path +:+ ".xml" in
  let possible_mxl := base_path +:+ ".mxl" in
  xml_exists ← os_path_exists possible_xml;
  if xml_exists : bool then ret (Some possible_xml)
  else
    mxl_exists ← os_path_exists possible_mxl;
    if mxl_exists : bool then ret (Some possible_mxl)
    else ret None.

(** ** [process_pdf] *)

(** [f"temp_{kind}_{temp_id}_{i}{ext}"] *)
Definition temp_name (kind temp_id : string) (i : nat) (ext : string) : string :=
  "temp_" +:+ kind +:+ "_" +:+ temp_id +:+ "_" +:+ PyStr.of_nat i +:+ ext.

(** [f"Partitura_{temp_id}_{i}"] *)
Definition placeholder_title (temp_id : string) (i : nat) : string :=
  "Partitura_" +:+ temp_id +:+ "_" +:+ PyStr.of_nat i.

(** Lines 165-168: the title from the metadata, or a default name. *)
Definition resolve_title (score : Score) (temp_id : string) (i : nat) : string :=
  match metadata score with
  | Some md =>
      match title md with
      | Some t =>
          if PyStr.truthy t then PyStr.replace " " "_" (PyStr.strip t)
          else placeholder_title temp_id i
      | None => placeholder_title temp_id i
      end
  | None => placeholder_title temp_id i
  end.

Definition catch_all (e : exn) : bool := true.

(** The six names of the clean-up list, lines 207-214. *)
Definition temp_files (temp_id : string) (i : nat) : list string :=
  [ temp_name "page" temp_id i ".png";
    temp_name "page" temp_id i ".xml";
    temp_name "page" temp_id i ".mxl";
    temp_name "page" temp_id i ".mid";
    temp_name "piece" temp_id i ".wav";
    temp_name "narration" temp_id i ".wav" ].

Definition remove_if_exists (f : string) : M unit :=
  f_exists ← os_path_exists f;
  if f_exists : bool then os_remove f else ret tt.

(** Lines 162-200: the body of the [try] of a page whose score file was found. *)
Definition convert_page (output_dir : string) (i : nat) (p : PageEnv)
    (image_filename musicxml_file : string) : M unit :=
  score ← converter_parse musicxml_file;
  let title := resolve_title score (temp_id p) i in
  let midi_file := temp_name "page" (temp_id p) i ".mid" in
  (* mf = midi.translate.music21ObjectToMidiFile(score) *)
  (if midi_translate_ok p then ret tt else raise (LibraryError "midi.translate"));;
  (* mf.open(midi_file, 'wb'); mf.write(); mf.close() *)
  write_file midi_file RawData;;
  (if midi_write_ok p then write_file midi_file MidiData
   else raise (LibraryError "MidiFile.write"));;
  let piece_audio_file := temp_name "piece" (temp_id p) i ".wav" in
  let cmd_audio := "fluidsynth -ni " +:+ SOUNDFONT_PATH +:+ " " +:+ midi_file
                   +:+ " -F " +:+ piece_audio_file +:+ " -r 44100" in
  try_catch is_CalledProcessError
    (subprocess_run cmd_audio (fluidsynth p piece_audio_file))
    (λ err, print (MsgSynthError i err);;
            os_remove image_filename;;
            continue_);;
  narration_text ← lift (generate_narration_text score title);
  let narration_temp_file := temp_name "narration" (temp_id p) i ".wav" in
  generate_narration_audio p narration_text narration_temp_file;;
  narration_audio ← from_wav narration_temp_file;
  piece_audio ← from_wav piece_audio_file;
  let pause := audio_silent 1000 in
  let final_audio := audio_add (audio_add narration_audio pause) piece_audio in
  let final_audio_filename := title +:+ "_narrado.wav" in
  let final_audio_file := OsPath.join output_dir final_audio_filename in
  export p final_audio final_audio_file;;
  assign_narrated_score title final_audio_filename;;
  print (MsgSaved final_audio_file).

(** Lines 139-217: one iteration of the loop over the pages. *)
Definition process_page (output_dir : string) (i : nat) (p : PageEnv) : M unit :=
  let image_filename := temp_name "page" (temp_id p) i ".png" in
  (* page.save(image_filename, "PNG") *)
  write_file image_filename (PngData (page_image p));;
  img ← cv2_imread image_filename;
  sheet ← classify img;
  (if sheet : bool then
     print (MsgIsSheet i);;
     let base_name := (OsPath.splitext image_filename).1 in
     let cmd := "audiveris -batch -export -output . " +:+ image_filename in
     try_catch is_CalledProcessError
       (subprocess_run cmd (audiveris p image_filename))
       (λ err, print (MsgOmrError i err);;
               os_remove image_filename;;
               continue_);;
     musicxml_file ← find_musicxml_file base_name;
     match musicxml_file with
     | None =>
         print (MsgNoMusicXml i);;
         os_remove image_filename;;
         continue_
     | Some musicxml_file =>
         try_catch catch_all
           (convert_page output_dir i p image_filename musicxml_file)
           (λ e, print (MsgPageError i e))
     end
   else print (MsgNotSheet i));;
  for_each remove_if_exists (temp_files (temp_id p) i).

Definition process_pdf (pdf : result (list PageEnv)) (pdf_path output_dir : string)
    : M (PyDict.t string) :=
  soundfont_exists ← os_path_exists SOUNDFONT_PATH;
  if negb soundfont_exists
  then raise (Exception ("SoundFont não encontrado em " +:+ SOUNDFONT_PATH +:+ "."))
  else
    pages ← convert_from_path pdf pdf_path 200;
    set_narrated_scores PyDict.empty;;
    for_each (λ ip, process_page output_dir ip.1 ip.2) (enumerate_from 0 pages);;
    get_narrated_scores.

End Pipeline.

Arguments Normal {A} a.
Arguments Raised {A} e.
Arguments Continue {A}.

(** * Vocabulary of the statements *)

(** [temp_name kind temp_id i ext] without its extension. *)
Definition temp_stem (kind temp_id : string) (i : nat) : string :=
  "temp_" +:+ kind +:+ "_" +:+ temp_id +:+ "_" +:+ PyStr.of_nat i.

(** The narration clause each extraction contributes. *)
Definition key_part (k : result Key) : string :=
  match k with
  | Ok k => key_clause k
  | Raise _ => key_fallback
  end.

Definition meter_part (ts : result (list string)) : string :=
  match ts with
  | Ok (ratio :: _) => meter_clause ratio
  | Ok [] | Raise _ => meter_fallback
  end.

Definition tempo_part (marks : result (list (option Number))) : string :=
  match marks with
  | Ok (Some tempo :: _) =>
      if number_truthy tempo then tempo_clause tempo else tempo_fallback
  | Ok (None :: _) | Ok [] | Raise _ => tempo_fallback
  end.

Section Vocabulary.

Context `{AudioLib}.

(** The error lines of [process_pdf]: each reports a page that is dropped. *)
Definition is_error_message (m : Message) : bool :=
  match m with
  | MsgOmrError _ _ | MsgNoMusicXml _ | MsgSynthError _ _ | MsgPageError _ _ => true
  | MsgIsSheet _ | MsgSaved _ | MsgNotSheet _ => false
  end.

(** An iteration that took the state from [st] to [st'] failed at a
    page-level stage: the last thing it did to the outside was to print
    an error line. *)
Definition page_failed (st st' : State) : Prop :=
  ∃ evs m, trace st' = trace st ++ evs ∧ last evs = Some (Print m)
           ∧ is_error_message m = true.

(** An iteration from [st] to [st'] finalized its page: its last line is
    "Audiobook narrado salvo". *)
Definition page_finalized (st st' : State) : Prop :=
  ∃ evs final_audio_file,
    trace st' = trace st ++ evs ∧ last evs = Some (Print (MsgSaved final_audio_file)).

(** The files once the page image is saved and Audiveris has run. *)
Definition files_after_omr (st : State) (i : nat) (p : PageEnv) : gmap string FileData :=
  let with_image :=
    <[temp_name "page" (temp_id p) i ".png" := PngData (page_image p)]> (files st) in
  let with_xml :=
    match omr_xml p with
    | Some r => <[temp_name "page" (temp_id p) i ".xml" := ScoreData r]> with_image
    | None => with_image
    end in
  match omr_mxl p with
  | Some r => <[temp_name "page" (temp_id p) i ".mxl" := ScoreData r]> with_xml
  | None => with_xml
  end.

(** The recognized-score path: [.xml] first, then [.mxl]. *)
Definition recognized_file (st : State) (i : nat) (p : PageEnv) : option string :=
  match files_after_omr st i p !! temp_name "page" (temp_id p) i ".xml" with
  | Some _ => Some (temp_name "page" (temp_id p) i ".xml")
  | None =>
      match files_after_omr st i p !! temp_name "page" (temp_id p) i ".mxl" with
      | Some _ => Some (temp_name "page" (temp_id p) i ".mxl")
      | None => None
      end
  end.

(** The score parsed from the recognized file, when it parses. *)
Definition recognized_score (st : State) (i : nat) (p : PageEnv) : option Score :=
  match recognized_file st i p with
  | Some f =>
      match files_after_omr st i p !! f with
      | Some (ScoreData (Ok score)) => Some score
      | _ => None
      end
  | None => None
  end.

(** The audio [AudioSegment.from_wav(piece_audio_file)] reads: what
    FluidSynth wrote, or else what the file held before. *)
Definition piece_audio_read (st : State) (i : nat) (p : PageEnv) : option AudioSegment :=
  match synth_wav p with
  | Some audio => Some audio
  | None =>
      match files st !! temp_name "piece" (temp_id p) i ".wav" with
      | Some (WavData audio) => Some audio
      | _ => None
      end
  end.

(** The files once the MIDI file is written and FluidSynth has run. *)
Definition files_after_synth (fs : gmap string FileData) (i : nat) (p : PageEnv)
    : gmap string FileData :=
  let midi_file := temp_name "page" (temp_id p) i ".mid" in
  let with_midi := <[midi_file := MidiData]> (<[midi_file := RawData]> fs) in
  match synth_wav p with
  | Some audio => <[temp_name "piece" (temp_id p) i ".wav" := WavData audio]> with_midi
  | None => with_midi
  end.

(** The two command lines. *)
Definition audiveris_cmd (p : PageEnv) (i : nat) : string :=
  "audiveris -batch -export -output . " +:+ temp_name "page" (temp_id p) i ".png".

Definition fluidsynth_cmd (SOUNDFONT_PATH : string) (p : PageEnv) (i : nat) : string :=
  "fluidsynth -ni " +:+ SOUNDFONT_PATH +:+ " " +:+ temp_name "page" (temp_id p) i ".mid"
  +:+ " -F " +:+ temp_name "piece" (temp_id p) i ".wav" +:+ " -r 44100".

(** Deleting a list of files. *)
Definition remove_all (l : list string) (m : gmap string FileData) : gmap string FileData :=
  foldl (λ m f, delete f m) m l.

End Vocabulary.

Section JobVocabulary.

Context `{AudioLib}.
Variable SOUNDFONT_PATH : string.
Variable luma : Pixel → Z.

(** The classifier returns on the page (it raises on an empty raster). *)
Definition classifiable (p : PageEnv) : Prop :=
  ∃ sheet, is_sheet_music luma (page_image p) = Ok sheet.

(** The loop of [process_pdf] over the pages [ps], numbered from [i]. *)
Definition run_pages (output_dir : string) (i : nat) (ps : list PageEnv) : M unit :=
  for_each (λ ip, process_page SOUNDFONT_PATH luma output_dir ip.1 ip.2)
           (enumerate_from i ps).

(** The state in which the loop starts: the document is rasterized and
    the index is empty. *)
Definition job_start (st : State) (pdf_path : string) : State :=
  {| files := files st;
     trace := trace st ++ [ConvertFromPath pdf_path 200];
     narrated_scores := PyDict.empty |}.

(** The title a page resolves to, when its score is recognized. *)
Definition page_title (st : State) (i : nat) (p : PageEnv) : option string :=
  (λ score, resolve_title score (temp_id p) i) <$> recognized_score st i p.

End JobVocabulary.

(** The title resolution as the specification words it: the metadata title
    when it is present and non-empty after white-space normalization,
    otherwise the placeholder. *)
Definition spec_resolved_title (score : Score) (temp_id : string) (i : nat) : string :=
  match metadata score ≫= title with
  | Some t =>
      if PyStr.truthy (PyStr.strip t) then PyStr.strip t
      else placeholder_title temp_id i
  | None => placeholder_title temp_id i
  end.


(** Every file name of the index is its title followed by [_narrado.wav],
    and no title occurs twice. *)
Definition index_ok (d : PyDict.t string) : Prop :=
  NoDup (PyDict.keys d) ∧ Forall (λ e, e.2 = e.1 +:+ "_narrado.wav") d.

(** Does [row] hold [n] consecutive non-zero samples? *)
Fixpoint has_run (n : nat) (row : list Z) : bool :=
  match row with
  | [] => false
  | _ :: row' =>
      (n <=? length row)%nat && forallb (λ v, negb (v =? 0)%Z) (take n row)
      || has_run n row'
  end.

(** [score] with other metronome marks. *)
Definition with_marks (score : Score) (marks : list (option Number)) : Score :=
  {| metadata := metadata score; analyze_key := analyze_key score;
     time_signatures := time_signatures score; metronome_marks := Ok marks |}.

(** A mark that announces no tempo: its number is [None] or zero. *)
Definition silent_mark (m : option Number) : bool :=
  match m with
  | Some n => negb (number_truthy n)
  | None => true
  end.

(** [c in s] for a character [c]. *)
Fixpoint str_contains (c : ascii) (s : string) : bool :=
  match s with
  | EmptyString => false
  | String c' s' => Ascii.eqb c' c || str_contains c s'
  end.

(** ** The HTTP endpoints *)

(** [s.endswith(suffix)] *)
Definition str_endswith (suffix s : string) : bool :=
  String.prefix (PyStr.rev suffix) (PyStr.rev s).

(** The [detail] of an [HTTPException]. *)
Inductive Detail : Type :=
| DetailNotPdf                  (* "O arquivo enviado deve ser um PDF." *)
| DetailProcessing (e : exn)    (* f"Erro ao processar o arquivo: {e}" *)
| DetailNotFound.               (* "Audiobook não encontrado." *)

(** One element of the list under the key "audiobooks". *)
Record Audiobook := { item_title : string; download_url : string }.

(** What an endpoint hands to the framework: a response, or the
    [HTTPException] it raises. *)
Inductive Response : Type :=
| JSONResponse (audiobooks : list Audiobook)
| FileResponse (path media_type filename : string)
| HTTPException (status_code : Z) (detail : Detail).

Definition OUTPUT_DIR : string := "output_audio".

Section Endpoints.

Context `{AudioLib}.

#[local] Existing Instance M_ret.
#[local] Existing Instance M_bind.

(** Configuration read from the environment when the module is loaded. *)
Variable BASE_URL : string.
Variable SOUNDFONT_PATH : string.
Variable luma : Pixel → Z.

(** An uploaded file. *)
Record UploadFile := {
  content_type : option string;        (* [None] when the part has no such header *)
  document : result (list PageEnv);    (* what the rasterizer makes of its bytes *)
  copy_ok : bool;                      (* [shutil.copyfileobj] returns *)
}.

(** [try: body  finally: finalizer] *)
Definition try_finally {A} (body : M A) (finalizer : M unit) : M A :=
  λ st, match body st with
        | (c, st') =>
            match finalizer st' with
            | (Normal _, st'') => (c, st'')
            | (Raised e, st'') => (Raised e, st'')
            | (Continue, st'') => (Continue, st'')
            end
        end.

(** [f"temp_{uuid.uuid4().hex}.pdf"] *)
Definition temp_pdf_name (hex : string) : string := "temp_" +:+ hex +:+ ".pdf".

(** Lines 240-245: the list built from [narrated_scores.items()]. *)
Definition response_data (narrated_scores : PyDict.t string) : list Audiobook :=
  map (λ item, {| item_title := item.1;
                  download_url := BASE_URL +:+ "/audiobooks/" +:+ item.2 |})
      narrated_scores.

(** [process_file]; [hex] is the token drawn for the name of the copy. *)
Definition process_file (file : UploadFile) (hex : string) : M Response :=
  if negb (bool_decide (content_type file = Some "application/pdf"))
  then ret (HTTPException 400 DetailNotPdf)
  else
    let temp_pdf_path := temp_pdf_name hex in
    try_finally
      (try_catch catch_all
         ((* with open(temp_pdf_path, "wb") as buffer: shutil.copyfileobj(...) *)
          write_file temp_pdf_path RawData;;
          (if copy_ok file then ret tt else raise (LibraryError "shutil.copyfileobj"));;
          narrated_scores ← process_pdf SOUNDFONT_PATH luma (document file)
                              temp_pdf_path OUTPUT_DIR;
          ret (JSONResponse (response_data narrated_scores)))
         (λ e, ret (HTTPException 500 (DetailProcessing e))))
      (remove_if_exists temp_pdf_path).

(** [list_audiobooks]; [listing] is what [os.listdir(OUTPUT_DIR)] returns. *)
Definition list_audiobooks (listing : list string) : Response :=
  JSONResponse
    (map (λ f, {| item_title := (OsPath.splitext f).1;
                  download_url := "/audiobooks/" +:+ f |})
         (List.filter (str_endswith ".wav") listing)).

(** [get_audiobook] *)
Definition get_audiobook (filename : string) : M Response :=
  let file_path := OsPath.join OUTPUT_DIR filename in
  file_exists ← os_path_exists file_path;
  if file_exists : bool then ret (FileResponse file_path "audio/wav" filename)
  else ret (HTTPException 404 DetailNotFound).

End Endpoints.

(** ** Vocabulary of the file-system statements *)

Section Footprint.

Context `{AudioLib}.

(** [m] leaves every file as it was, except that it may do anything to
    the files of [T] and may write audio to the files of [W]. *)
Definition confined {A} (T W : string → Prop) (m : M A) : Prop :=
  ∀ st c st' f, m st = (c, st') →
    files st' !! f = files st !! f
    ∨ T f
    ∨ (W f ∧ ∃ audio, files st' !! f = Some (WavData audio)).

(** The files of one page: its six temporary names. *)
Definition page_scratch (i : nat) (p : PageEnv) (f : string) : Prop :=
  f ∈ temp_files (temp_id p) i.

(** The artifacts written under [out]. *)
Definition narrated_in (out : string) (f : string) : Prop :=
  ∃ t, f = OsPath.join out (t +:+ "_narrado.wav").

(** Whenever [m] ends in a [continue], [Q] holds of the state it leaves. *)
Definition dropped_with {A} (Q : State → Prop) (m : M A) : Prop :=
  ∀ st st', m st = (Continue, st') → Q st'.

(** Every title of the index has its file in the directory [out]. *)
Definition index_served (out : string) (st : State) : Prop :=
  ∀ t filename, PyDict.get t (narrated_scores st) = Some filename →
    filename = t +:+ "_narrado.wav"
    ∧ ∃ audio, files st !! OsPath.join out filename = Some (WavData audio).

(** The state in which [process_file] calls [process_pdf], the upload
    being copied to its temporary name, and the state it leaves. *)
Definition upload_saved (hex : string) (st : State) : State :=
  {| files := <[temp_pdf_name hex := RawData]> (files st);
     trace := trace st; narrated_scores := narrated_scores st |}.

Definition upload_removed (hex : string) (st : State) : State :=
  {| files := delete (temp_pdf_name hex) (files st);
     trace := trace st; narrated_scores := narrated_scores st |}.

End Footprint.

(** * Sample documents *)

Module Samples.

Definition dark : Pixel := {| chan_b := 0; chan_g := 0; chan_r := 0 |}.
Definition light : Pixel := {| chan_b := 255; chan_g := 255; chan_r := 255 |}.

(** Two rows of sixty dark pixels: all of it is one long horizontal run. *)
Definition staff_image : Image :=
  {| shape0 := 2; shape1 := 60; pixel_at := λ _ _, dark |}.

Definition blank_image : Image :=
  {| shape0 := 2; shape1 := 60; pixel_at := λ _ _, light |}.

Definition ode : Score :=
  {| metadata := Some {| title := Some "Ode" |};
     analyze_key := Ok {| tonic_name := "D"; mode := "major" |};
     time_signatures := Ok ["4/4"];
     metronome_marks := Ok [Some (PyInt 120)] |}.

Definition untitled : Score :=
  {| metadata := None;
     analyze_key := Raise (LibraryError "analysis.discrete");
     time_signatures := Ok [];
     metronome_marks := Ok [] |}.

(** A title of three spaces. *)
Definition blank_titled : Score :=
  {| metadata := Some {| title := Some "   " |};
     analyze_key := Raise (LibraryError "analysis.discrete");
     time_signatures := Ok [];
     metronome_marks := Ok [] |}.

Definition speech : @AudioSegment SampleAudio.lib := [7; 7; 7]%Z.
Definition music : @AudioSegment SampleAudio.lib := [1; 2; 3; 4]%Z.

(** A page on which every stage succeeds. *)
Definition good_page (score : Score) : @PageEnv SampleAudio.lib :=
  {| page_image := staff_image; temp_id := "ab12";
     omr_exit_ok := true; omr_xml := Some (Ok score); omr_mxl := None;
     midi_translate_ok := true; midi_write_ok := true;
     synth_exit_ok := true; synth_wav := Some music;
     tts := λ _, Ok speech; export_ok := true |}.

(** FluidSynth exits with a non-zero status. *)
Definition synth_fail_page : @PageEnv SampleAudio.lib :=
  {| page_image := staff_image; temp_id := "ab12";
     omr_exit_ok := true; omr_xml := Some (Ok ode); omr_mxl := None;
     midi_translate_ok := true; midi_write_ok := true;
     synth_exit_ok := false; synth_wav := None;
     tts := λ _, Ok speech; export_ok := true |}.

(** Audiveris exits with a non-zero status. *)
Definition omr_fail_page : @PageEnv SampleAudio.lib :=
  {| page_image := staff_image; temp_id := "cd34";
     omr_exit_ok := false; omr_xml := None; omr_mxl := None;
     midi_translate_ok := true; midi_write_ok := true;
     synth_exit_ok := true; synth_wav := Some music;
     tts := λ _, Ok speech; export_ok := true |}.

(** Audiveris exits normally and writes nothing. *)
Definition no_output_page : @PageEnv SampleAudio.lib :=
  {| page_image := staff_image; temp_id := "ef56";
     omr_exit_ok := true; omr_xml := None; omr_mxl := None;
     midi_translate_ok := true; midi_write_ok := true;
     synth_exit_ok := true; synth_wav := Some music;
     tts := λ _, Ok speech; export_ok := true |}.

(** A page of text. *)
Definition text_page : @PageEnv SampleAudio.lib :=
  {| page_image := blank_image; temp_id := "0f0f";
     omr_exit_ok := true; omr_xml := Some (Ok ode); omr_mxl := None;
     midi_translate_ok := true; midi_write_ok := true;
     synth_exit_ok := true; synth_wav := Some music;
     tts := λ _, Ok speech; export_ok := true |}.

Definition soundfont : string := "soundfont.sf2".

(** A working directory that holds the sound font, and one that does not. *)
Definition st0 : @State SampleAudio.lib :=
  {| files := {[ soundfont := RawData ]}; trace := []; narrated_scores := [] |}.

Definition st_no_soundfont : @State SampleAudio.lib :=
  {| files := ∅; trace := []; narrated_scores := [] |}.

(** What an iteration from [st] to [st'] did to the outside, and the
    last line it printed. *)
Definition new_events (st st' : @State SampleAudio.lib) : list Event :=
  drop (length (trace st)) (trace st').


End Samples.

(** More sample documents. *)

Module MoreSamples.
Import Samples.



(** Dashes of eight dark pixels, four pixels apart: a lot of ink, but no
    long horizontal run. *)
Definition dashed_image : Image :=
  {| shape0 := 2; shape1 := 60;
     pixel_at := λ _ x, if (x mod 12 <? 8)%nat then dark else light |}.

(** One dark row above one light row. *)
Definition ruled_image : Image :=
  {| shape0 := 2; shape1 := 60;
     pixel_at := λ y _, if (y =? 0)%nat then dark else light |}.

(** Audiveris writes a score and then exits with a non-zero status. *)
Definition partial_omr_page : @PageEnv SampleAudio.lib :=
  {| page_image := staff_image; temp_id := "7b7b";
     omr_exit_ok := false; omr_xml := Some (Ok ode); omr_mxl := None;
     midi_translate_ok := true; midi_write_ok := true;
     synth_exit_ok := true; synth_wav := Some music;
     tts := λ _, Ok speech; export_ok := true |}.

(** A title that is an absolute path. *)
Definition rooted : Score :=
  {| metadata := Some {| title := Some "/srv/ode" |};
     analyze_key := Ok {| tonic_name := "D"; mode := "major" |};
     time_signatures := Ok ["4/4"];
     metronome_marks := Ok [Some (PyInt 120)] |}.

(** A title with spaces. *)
Definition spaced : Score :=
  {| metadata := Some {| title := Some " Ode to Joy " |};
     analyze_key := Ok {| tonic_name := "D"; mode := "major" |};
     time_signatures := Ok ["4/4"];
     metronome_marks := Ok [Some (PyInt 120)] |}.

(** A first metronome mark without a number, then one with a tempo. *)
Definition hesitant : Score :=
  {| metadata := Some {| title := Some "Ode" |};
     analyze_key := Ok {| tonic_name := "D"; mode := "major" |};
     time_signatures := Ok ["4/4"];
     metronome_marks := Ok [None; Some (PyInt 96)] |}.

(** The narration of [ode]. *)
Definition ode_text : string :=
  Eval vm_compute in
    match generate_narration_text ode "Ode" with
    | Ok text => text
    | Raise _ => EmptyString
    end.

Definition base_url : string := "http://localhost:8000".

(** An upload of a one-page document. *)
Definition upload : @UploadFile SampleAudio.lib :=
  {| content_type := Some "application/pdf";
     document := Ok [good_page ode];
     copy_ok := true |}.

Definition ode_item : Audiobook :=
  {| item_title := "Ode";
     download_url := "http://localhost:8000/audiobooks/Ode_narrado.wav" |}.

End MoreSamples.

(** A page whose audio is measured as pydub does. *)
Module PydubSamples.

(** Three seconds and nine frames of speech at 22050 Hz. *)
Definition narration : @AudioSegment Pydub.lib :=
  {| Pydub.frame_rate := 22050; Pydub.frame_count := 66159 |}.

(** Two seconds and eighteen frames of music at 44100 Hz. *)
Definition piece : @AudioSegment Pydub.lib :=
  {| Pydub.frame_rate := 44100; Pydub.frame_count := 88218 |}.

Definition page : @PageEnv Pydub.lib :=
  {| page_image := Samples.staff_image; temp_id := "ab12";
     omr_exit_ok := true; omr_xml := Some (Ok Samples.ode); omr_mxl := None;
     midi_translate_ok := true; midi_write_ok := true;
     synth_exit_ok := true; synth_wav := Some piece;
     tts := λ _, Ok narration; export_ok := true |}.

Definition st0 : @State Pydub.lib :=
  {| files := {[ Samples.soundfont := RawData ]}; trace := []; narrated_scores := [] |}.

End PydubSamples.

(** VOCAB-END *)

(** * Properties *)

(** ** Strings and file names *)

Module PyStrFacts.
Import PyStr.

Lemma app_nil_l (b : string) : EmptyString +:+ b = b.
Proof. reflexivity. Qed.

Lemma app_cons (x : ascii) (a b : string) : String x a +:+ b = String x (a +:+ b).
Proof. reflexivity. Qed.

(** Push literal prefixes out of an append. *)
Ltac str_norm := repeat (rewrite app_cons || rewrite app_nil_l).

Lemma app_assoc (a b c : string) : (a +:+ b) +:+ c = a +:+ (b +:+ c).
Proof.
  induction a as [|x a IH]; [done|].
  by rewrite !app_cons, IH.
Qed.

Lemma rev_onto_app (a b acc : string) :
  rev_onto (a +:+ b) acc = rev_onto b (rev_onto a acc).
Proof.
  revert acc. induction a as [|x a IH]; intros acc; [done|].
  rewrite app_cons. simpl. apply IH.
Qed.

Lemma rev_app (a b : string) : rev (a +:+ b) = rev_onto b (rev a).
Proof. apply rev_onto_app. Qed.

Lemma rev_onto_rev_onto (a b c : string) :
  rev_onto (rev_onto a b) c = rev_onto b (a +:+ c).
Proof.
  revert b c. induction a as [|x a IH]; intros b c; [done|].
  simpl. by rewrite IH, app_cons.
Qed.

Lemma app_nil_r (a : string) : a +:+ EmptyString = a.
Proof. induction a as [|x a IH]; [done|]. by rewrite app_cons, IH. Qed.

Lemma rev_involutive (a : string) : rev (rev a) = a.
Proof. unfold rev. rewrite rev_onto_rev_onto. simpl. apply app_nil_r. Qed.

(** Decimal digits. *)
Definition is_digit (c : ascii) : bool := ((48 <=? code c) && (code c <=? 57))%N.

Lemma pretty_N_char_digit (x : N) : is_digit (pretty_N_char x) = true.
Proof. unfold pretty_N_char. by repeat case_match. Qed.

Lemma pretty_N_go_suffix (x : N) (s : string) : ∃ pre, pretty_N_go x s = pre +:+ s.
Proof.
  revert s. induction (N.lt_wf_0 x) as [x _ IH]; intros s.
  destruct (decide (x = 0)%N) as [->|Hx].
  - exists EmptyString. by rewrite pretty_N_go_0.
  - rewrite pretty_N_go_step by lia.
    destruct (IH (x `div` 10)%N) with (s := String (pretty_N_char (x `mod` 10)) s)
      as [pre Hpre]; [apply N.div_lt; lia|].
    exists (pre +:+ String (pretty_N_char (x `mod` 10)) EmptyString).
    by rewrite Hpre, app_assoc.
Qed.

(** The text of a page index ends with a digit. *)
Lemma rev_of_nat (i : nat) (acc : string) :
  ∃ d r, rev_onto (of_nat i) acc = String d r ∧ is_digit d = true.
Proof.
  unfold of_nat, pretty, pretty_nat, pretty, pretty_N.
  case_decide as Hi.
  - by exists "0"%char, acc.
  - rewrite pretty_N_go_step by lia.
    destruct (pretty_N_go_suffix (N.of_nat i `div` 10)
                (String (pretty_N_char (N.of_nat i `mod` 10)) EmptyString)) as [pre ->].
    rewrite rev_onto_app. simpl. eauto using pretty_N_char_digit.
Qed.

End PyStrFacts.



Module NameFacts.
Import PyStr PyStrFacts.

Lemma digit_not_separator (d : ascii) :
  is_digit d = true →
  Ascii.eqb d "/" = false ∧ Ascii.eqb d "." = false ∧ d ≠ "o"%char.
Proof. destruct d as [[] [] [] [] [] [] [] []]; by intros. Qed.

Lemma temp_name_stem kind temp_id i ext :
  temp_name kind temp_id i ext = temp_stem kind temp_id i +:+ ext.
Proof. unfold temp_name, temp_stem. by rewrite !app_assoc. Qed.

(** The reversed stem starts with the last digit of the page index. *)
Lemma rev_temp_stem kind temp_id i :
  ∃ d r, rev (temp_stem kind temp_id i) = String d r ∧ is_digit d = true.
Proof.
  unfold temp_stem. rewrite <-!app_assoc, rev_app. apply rev_of_nat.
Qed.

(** [os.path.splitext] of the page image gives the stem back. *)
Lemma splitext_image temp_id i :
  OsPath.splitext (temp_name "page" temp_id i ".png")
  = (temp_stem "page" temp_id i, ".png").
Proof.
  rewrite temp_name_stem. unfold OsPath.splitext. rewrite rev_app.
  destruct (rev_temp_stem "page" temp_id i) as (d & r & Hrev & Hd).
  apply digit_not_separator in Hd as (Hslash & Hdot & _).
  simpl. rewrite Hrev. simpl. rewrite Hslash, Hdot.
  by rewrite <-Hrev, rev_involutive.
Qed.

Lemma base_name_ext temp_id i ext :
  (OsPath.splitext (temp_name "page" temp_id i ".png")).1 +:+ ext
  = temp_name "page" temp_id i ext.
Proof. by rewrite splitext_image, temp_name_stem. Qed.

(** Names that differ in their extension or in their kind are different. *)
Lemma temp_name_ext_ne kind temp_id i ext1 ext2 :
  ext1 ≠ ext2 → temp_name kind temp_id i ext1 ≠ temp_name kind temp_id i ext2.
Proof. rewrite !temp_name_stem. intros Hne Heq. by apply (inj _) in Heq. Qed.

Lemma temp_name_page_piece t1 i1 e1 t2 i2 e2 :
  temp_name "page" t1 i1 e1 ≠ temp_name "piece" t2 i2 e2.
Proof. unfold temp_name. str_norm. congruence. Qed.

Lemma temp_name_page_narration t1 i1 e1 t2 i2 e2 :
  temp_name "page" t1 i1 e1 ≠ temp_name "narration" t2 i2 e2.
Proof. unfold temp_name. str_norm. congruence. Qed.

Lemma temp_name_piece_narration t1 i1 e1 t2 i2 e2 :
  temp_name "piece" t1 i1 e1 ≠ temp_name "narration" t2 i2 e2.
Proof. unfold temp_name. str_norm. congruence. Qed.

(** The final artifact always ends in [_narrado.wav]. *)
Lemma join_narrado output_dir title :
  ∃ x, OsPath.join output_dir (title +:+ "_narrado.wav") = x +:+ "_narrado.wav".
Proof.
  unfold OsPath.join. repeat case_match.
  - by exists title.
  - exists (output_dir +:+ title). by rewrite app_assoc.
  - exists (output_dir +:+ "/" +:+ title). by rewrite !app_assoc.
Qed.

(** ... so it is none of the temporary files of a page. *)
Lemma final_not_temp output_dir title temp_id i :
  OsPath.join output_dir (title +:+ "_narrado.wav") ∉ temp_files temp_id i.
Proof.
  destruct (join_narrado output_dir title) as [x ->].
  assert (∀ kind ext, In ext [".png"; ".xml"; ".mxl"; ".mid"; ".wav"] →
            x +:+ "_narrado.wav" ≠ temp_name kind temp_id i ext) as Hne.
  { intros kind ext Hext Heq. rewrite temp_name_stem in Heq.
    apply (f_equal rev) in Heq. rewrite !rev_app in Heq.
    destruct (rev_temp_stem kind temp_id i) as (d & r & Hrev & Hd).
    rewrite Hrev in Heq.
    apply digit_not_separator in Hd as (_ & _ & Hd).
    simpl in Hext. destruct Hext as [<-|[<-|[<-|[<-|[<-|[]]]]]];
      simpl in Heq; congruence. }
  unfold temp_files. rewrite !elem_of_cons, elem_of_nil.
  intros [Heq|[Heq|[Heq|[Heq|[Heq|[Heq|[]]]]]]];
    (eapply Hne; [|exact Heq]); simpl; tauto.
Qed.

End NameFacts.

(** ** One page *)

(** Symbolic execution of a computation of [M] on a state. *)
Ltac exec := repeat first
  [ progress (unfold mbind, M_bind, mret, M_ret, bind, ret, raise, continue_, lift,
      try_catch, emit, print, write_file, read_file, os_path_exists, os_remove,
      set_narrated_scores, get_narrated_scores, assign_narrated_score, subprocess_run,
      write_if_some, audiveris, fluidsynth, convert_from_path, cv2_imread, classify,
      converter_parse, from_wav, export, generate_narration_audio, find_musicxml_file)
  | progress (cbn beta iota zeta)
  | progress (cbn [files trace narrated_scores fst snd fmap option_fmap option_map
                   is_CalledProcessError catch_all]) ].

(** Goals [t = trace st ++ ?evs], with [t] built by appending to [trace st]. *)
Ltac trace_ext :=
  cbn [trace];
  etrans; [ rewrite <-?(assoc (++)); reflexivity | ];
  first [ reflexivity | symmetry; apply app_nil_r ].

(** Goals [last evs = Some x], with [evs] built by appending. *)
Ltac last_ev := first [ reflexivity | rewrite ?(assoc (++)); apply last_snoc ].

Ltac solve_raised :=
  left; do 2 eexists; split; [reflexivity|]; split; [reflexivity|trace_ext].

Ltac solve_continue :=
  right; left; split; [reflexivity|]; split; [reflexivity|];
  do 2 eexists; trace_ext.

Ltac solve_failed :=
  left; split; [by (left + right)|]; split; [|reflexivity];
  do 2 eexists; split; [trace_ext|]; split; [last_ev|reflexivity].

Section PageFacts.
Context `{AudioLib}.
Variable SOUNDFONT_PATH : string.
Variable luma : Pixel → Z.

Lemma remove_if_exists_run f st :
  remove_if_exists f st
  = (Normal tt, {| files := delete f (files st); trace := trace st;
                   narrated_scores := narrated_scores st |}).
Proof.
  unfold remove_if_exists. exec. destruct (files st !! f) eqn:Hf; exec; rewrite ?Hf; [done|].
  rewrite delete_id by done. by destruct st.
Qed.

Lemma cleanup_run l st :
  for_each remove_if_exists l st
  = (Normal tt, {| files := remove_all l (files st); trace := trace st;
                   narrated_scores := narrated_scores st |}).
Proof.
  revert st. induction l as [|f l IH]; intros st; simpl.
  - by destruct st.
  - rewrite remove_if_exists_run, IH. done.
Qed.

Lemma lookup_remove_all l (m : gmap string FileData) f :
  remove_all l m !! f = if decide (f ∈ l) then None else m !! f.
Proof.
  revert m. induction l as [|g l IH]; intros m; cbn [remove_all foldl].
  - by rewrite decide_False by apply not_elem_of_nil.
  - fold (remove_all l (delete g m)). rewrite IH.
    destruct (decide (f ∈ l)) as [Hin|Hnin].
    + by rewrite decide_True by (rewrite elem_of_cons; tauto).
    + destruct (decide (f = g)) as [->|Hne].
      * rewrite decide_True by (rewrite elem_of_cons; tauto). apply lookup_delete_eq.
      * rewrite decide_False by (rewrite elem_of_cons; tauto).
        by apply lookup_delete_ne.
Qed.

Lemma generate_narration_text_returns score title :
  ∃ text, generate_narration_text score title = Ok text.
Proof.
  unfold generate_narration_text, try_except, mbind, result_bind.
  destruct (analyze_key score), (time_signatures score) as [[|??]|],
    (metronome_marks score) as [[|[n|] ?]|]; cbn [first_number];
    try destruct (number_truthy n); eauto.
Qed.

Lemma convert_page_outcome out i p image f st :
  let r := convert_page SOUNDFONT_PATH out i p image f st in
  let title_of score := resolve_title score (temp_id p) i in
  (∃ e evs, r.1 = Raised e ∧ narrated_scores r.2 = narrated_scores st
            ∧ trace r.2 = trace st ++ evs)
  ∨ (r.1 = Continue ∧ narrated_scores r.2 = narrated_scores st ∧
     ∃ evs err, trace r.2 = trace st ++ evs ++ [Print (MsgSynthError i err)])
  ∨ (∃ score text narr piece,
       files st !! f = Some (ScoreData (Ok score)) ∧
       generate_narration_text score (title_of score) = Ok text ∧
       tts p text = Ok narr ∧
       let narr_file := temp_name "narration" (temp_id p) i ".wav" in
       let fs := <[narr_file := WavData narr]> (files_after_synth (files st) i p) in
       let final := OsPath.join out (title_of score +:+ "_narrado.wav") in
       fs !! temp_name "piece" (temp_id p) i ".wav" = Some (WavData piece) ∧
       r = (Normal tt,
            {| files := <[final := WavData (audio_add (audio_add narr (audio_silent 1000)) piece)]> fs;
               trace := trace st ++
                 [Subprocess (fluidsynth_cmd SOUNDFONT_PATH p i);
                  Speak 150 text narr_file;
                  Print (MsgSaved final)];
               narrated_scores :=
                 PyDict.setitem (title_of score) (title_of score +:+ "_narrado.wav")
                   (narrated_scores st) |})).
Proof.
  intros r title_of. subst r. unfold convert_page, fluidsynth_cmd. exec.
  destruct (files st !! f) as [[| [score|e] | | |]|] eqn:Hf; exec; try solve_raised.
  destruct (midi_translate_ok p); exec; try solve_raised.
  destruct (midi_write_ok p); exec; try solve_raised.
  destruct (generate_narration_text_returns score (title_of score)) as [text Htext].
  unfold title_of in Htext.
  unfold files_after_synth.
  destruct (synth_exit_ok p) eqn:Hexit.
  - destruct (synth_wav p) as [wav|] eqn:Hwav; exec; rewrite Htext; exec.
    all: destruct (tts p text) as [narr|e] eqn:Htts; exec; try solve_raised.
    all: rewrite lookup_insert_eq; exec.
    all: match goal with
         | |- context [match ?m !! ?k with _ => _ end] =>
             destruct (m !! k) as [[| | |piece|]|] eqn:Hpiece; exec; try solve_raised
         end.
    all: destruct (export_ok p); exec; try solve_raised.
    all: right; right; exists score, text, narr, piece; rewrite <-!(assoc (++)); done.
  - destruct (synth_wav p) as [wav|] eqn:Hwav; exec.
    all: match goal with
         | |- context [match ?m !! ?k with _ => _ end] =>
             destruct (m !! k); exec; [ solve_continue | solve_raised ]
         end.
Qed.

Import NameFacts.

(** Distinctness of the temporary names of one page. *)
Ltac names_ne :=
  first
    [ apply temp_name_ext_ne; by intros [=]
    | apply temp_name_page_piece
    | apply temp_name_page_narration
    | apply temp_name_piece_narration
    | apply not_eq_sym; apply temp_name_page_piece
    | apply not_eq_sym; apply temp_name_page_narration
    | apply not_eq_sym; apply temp_name_piece_narration ].

Ltac lookup_norm :=
  repeat first [ rewrite lookup_insert_eq | rewrite lookup_insert_ne by names_ne ].

Lemma process_page_music out i p st c st' :
  is_sheet_music luma (page_image p) = Ok true →
  process_page SOUNDFONT_PATH luma out i p st = (c, st') →
  let title_of score := resolve_title score (temp_id p) i in
  ((c = Normal tt ∨ c = Continue) ∧ page_failed st st'
     ∧ narrated_scores st' = narrated_scores st)
  ∨ (∃ score text narr piece,
       omr_exit_ok p = true ∧
       recognized_score st i p = Some score ∧
       generate_narration_text score (title_of score) = Ok text ∧
       tts p text = Ok narr ∧
       piece_audio_read st i p = Some piece ∧
       let final := OsPath.join out (title_of score +:+ "_narrado.wav") in
       c = Normal tt ∧
       narrated_scores st'
         = PyDict.setitem (title_of score) (title_of score +:+ "_narrado.wav")
             (narrated_scores st) ∧
       trace st' = trace st ++
         [Print (MsgIsSheet i); Subprocess (audiveris_cmd p i);
          Subprocess (fluidsynth_cmd SOUNDFONT_PATH p i);
          Speak 150 text (temp_name "narration" (temp_id p) i ".wav");
          Print (MsgSaved final)] ∧
       files st' !! final
         = Some (WavData (audio_add (audio_add narr (audio_silent 1000)) piece)) ∧
       ∀ f, f ∈ temp_files (temp_id p) i → files st' !! f = None).
Proof.
  intros Hcls. revert c st'.
  unfold recognized_score, recognized_file, piece_audio_read, files_after_omr, page_failed,
    audiveris_cmd.
  unfold process_page. exec. rewrite lookup_insert_eq. exec. rewrite Hcls. exec.
  rewrite !base_name_ext.
  destruct (omr_xml p) as [xml|] eqn:Hxml, (omr_mxl p) as [mxl|] eqn:Hmxl,
    (omr_exit_ok p) eqn:Hexit; exec; lookup_norm; exec.
  all: try (intros c st' [<- <-]%pair_equal_spec; solve_failed).
  all: repeat match goal with
         | |- context [files ?s !! temp_name "page" ?t ?j ?ext] =>
             destruct (files s !! temp_name "page" t j ext) eqn:?;
             exec; lookup_norm; exec
         end.
  all: try (intros c st' [<- <-]%pair_equal_spec; solve_failed).
  all: match goal with
       | |- context [convert_page ?sf ?o ?j ?q ?img ?f ?S] =>
           generalize (convert_page_outcome o j q img f S); cbv zeta;
           destruct (convert_page sf o j q img f S) as [c0 s0]
       end.
  all: intros [(e & evs & Hc & Hidx & Htr) | [(Hc & Hidx & evs & err & Htr)
         | (score & text & narr & piece & Hf & Htext & Htts & Hpiece & Hrun)]];
       cbn [fst snd files trace narrated_scores] in *.
  (* the body of the [try] raised: the handler prints, the clean-up runs *)
  all: try (subst c0; exec; rewrite cleanup_run; intros c st' [<- <-]%pair_equal_spec;
            left; split; [by left|]; split; [|by rewrite Hidx];
            do 2 eexists; cbn [trace]; rewrite Htr;
            split; [trace_ext|]; split; [last_ev|reflexivity]).
  (* FluidSynth failed: [continue] *)
  all: try (subst c0; exec; intros c st' [<- <-]%pair_equal_spec;
            left; split; [by right|]; split; [|by rewrite Hidx];
            do 2 eexists; rewrite Htr;
            split; [trace_ext|]; split; [last_ev|reflexivity]).
  (* the page was finalized *)
  all: injection Hrun as -> ->; exec; rewrite cleanup_run;
       intros c st' [<- <-]%pair_equal_spec;
       right; exists score, text, narr, piece; cbn [files trace narrated_scores] in *.
  all: unfold files_after_synth in *.
  all: destruct (synth_wav p) as [wav|];
       repeat first [ rewrite lookup_insert_eq in Hpiece
                    | rewrite lookup_insert_ne in Hpiece by names_ne
                    | rewrite lookup_insert_eq in Hf
                    | rewrite lookup_insert_ne in Hf by names_ne ].
  all: repeat match goal with
         | Ha : ?x = Some ?a, Hb : ?x = Some ?b |- _ =>
             rewrite Ha in Hb; injection Hb as Hb; subst
         end.
  all: simplify_eq.
  all: repeat split; try done.
  all: try (rewrite <-!(assoc (++)); done).
  all: try (by rewrite Hpiece).
  all: try (rewrite lookup_remove_all, decide_False by apply final_not_temp;
            apply lookup_insert_eq).
  all: try (intros g Hg; rewrite lookup_remove_all; by rewrite decide_True).
Qed.

(** A page that is not sheet music: one line is printed, the image is
    removed. *)
Lemma process_page_non_music out i p st :
  is_sheet_music luma (page_image p) = Ok false →
  process_page SOUNDFONT_PATH luma out i p st
  = (Normal tt,
     {| files := remove_all (temp_files (temp_id p) i)
                   (<[temp_name "page" (temp_id p) i ".png" := PngData (page_image p)]> (files st));
        trace := trace st ++ [Print (MsgNotSheet i)];
        narrated_scores := narrated_scores st |}).
Proof.
  intros Hcls. unfold process_page. exec.
  rewrite lookup_insert_eq. exec. rewrite Hcls. exec.
  by rewrite cleanup_run.
Qed.

Lemma process_page_classify_raise out i p st e :
  is_sheet_music luma (page_image p) = Raise e →
  process_page SOUNDFONT_PATH luma out i p st
  = (Raised e,
     {| files := <[temp_name "page" (temp_id p) i ".png" := PngData (page_image p)]> (files st);
        trace := trace st;
        narrated_scores := narrated_scores st |}).
Proof.
  intros Hcls. unfold process_page. exec.
  rewrite lookup_insert_eq. exec. rewrite Hcls. by exec.
Qed.

(** Audiveris exits with a non-zero status: the page is dropped. *)
Lemma process_page_omr_error out i p st :
  is_sheet_music luma (page_image p) = Ok true →
  omr_exit_ok p = false →
  process_page SOUNDFONT_PATH luma out i p st
  = (Continue,
     {| files := delete (temp_name "page" (temp_id p) i ".png") (files_after_omr st i p);
        trace := trace st ++
          [Print (MsgIsSheet i); Subprocess (audiveris_cmd p i);
           Print (MsgOmrError i (CalledProcessError (audiveris_cmd p i)))];
        narrated_scores := narrated_scores st |}).
Proof.
  intros Hcls Hexit. unfold process_page, files_after_omr, audiveris_cmd. exec.
  rewrite lookup_insert_eq. exec. rewrite Hcls. exec. rewrite !base_name_ext, Hexit.
  destruct (omr_xml p), (omr_mxl p); exec; lookup_norm; exec.
  all: rewrite <-!(assoc (++)); reflexivity.
Qed.

(** Audiveris exits normally but leaves neither file: the page is dropped. *)
Lemma process_page_no_output out i p st :
  is_sheet_music luma (page_image p) = Ok true →
  omr_exit_ok p = true →
  recognized_file st i p = None →
  process_page SOUNDFONT_PATH luma out i p st
  = (Continue,
     {| files := delete (temp_name "page" (temp_id p) i ".png") (files_after_omr st i p);
        trace := trace st ++
          [Print (MsgIsSheet i); Subprocess (audiveris_cmd p i); Print (MsgNoMusicXml i)];
        narrated_scores := narrated_scores st |}).
Proof.
  intros Hcls Hexit. unfold recognized_file, process_page, files_after_omr, audiveris_cmd.
  exec. rewrite lookup_insert_eq. exec. rewrite Hcls. exec. rewrite !base_name_ext, Hexit.
  destruct (omr_xml p), (omr_mxl p); exec; lookup_norm; try done.
  all: repeat match goal with
         | |- context [match files ?s !! ?k with _ => _ end] =>
             destruct (files s !! k); exec; lookup_norm
         end; try done.
  intros _. exec. lookup_norm. exec. rewrite <-!(assoc (++)). reflexivity.
Qed.

(** With a recognized file the page reaches the [try] block. *)
Lemma find_musicxml_file_run base st :
  find_musicxml_file base st
  = (Normal (match files st !! (base +:+ ".xml") with
             | Some _ => Some (base +:+ ".xml")
             | None =>
                 match files st !! (base +:+ ".mxl") with
                 | Some _ => Some (base +:+ ".mxl")
                 | None => None
                 end
             end), st).
Proof.
  exec. destruct (files st !! (base +:+ ".xml")); exec; [done|].
  by destruct (files st !! (base +:+ ".mxl")).
Qed.

End PageFacts.

(** ** The result index *)

Module PyDictFacts.
Import PyDict.

Section Dict.
Context {V : Type}.
Implicit Types (d : t V) (k : string) (v : V).

Lemma get_setitem_eq k v d : get k (setitem k v d) = Some v.
Proof.
  induction d as [|[k' v'] d IH]; simpl.
  - by rewrite String.eqb_refl.
  - destruct (String.eqb_spec k' k) as [->|Hne]; simpl.
    + by rewrite String.eqb_refl.
    + by destruct (String.eqb_spec k' k).
Qed.

Lemma get_setitem_ne k k' v d : k ≠ k' → get k' (setitem k v d) = get k' d.
Proof.
  intros Hne. induction d as [|[k0 v0] d IH]; simpl.
  - by destruct (String.eqb_spec k k').
  - destruct (String.eqb_spec k0 k) as [->|Hk0]; simpl.
    + by destruct (String.eqb_spec k k').
    + by rewrite IH.
Qed.

Lemma keys_setitem k v d :
  keys (setitem k v d) = if decide (k ∈ keys d) then keys d else keys d ++ [k].
Proof.
  unfold keys. induction d as [|[k' v'] d IH]; cbn [setitem map fst].
  - by rewrite decide_False by apply not_elem_of_nil.
  - destruct (String.eqb_spec k' k) as [->|Hne]; cbn [map fst].
    + by rewrite decide_True by (rewrite elem_of_cons; tauto).
    + rewrite IH. destruct (decide (k ∈ map fst d)) as [Hin|Hnin].
      * by rewrite decide_True by (rewrite elem_of_cons; tauto).
      * rewrite decide_False; [done|]. rewrite elem_of_cons. by intros [->|?].
Qed.

Lemma elem_of_keys_setitem k k' v d :
  k' ∈ keys (setitem k v d) ↔ k' = k ∨ k' ∈ keys d.
Proof.
  rewrite keys_setitem. case_decide as Hin.
  - split; [by right|]. by intros [->|?].
  - rewrite elem_of_app, list_elem_of_singleton. tauto.
Qed.

Lemma NoDup_keys_setitem k v d : NoDup (keys d) → NoDup (keys (setitem k v d)).
Proof.
  intros Hnd. rewrite keys_setitem. case_decide as Hin; [done|].
  apply NoDup_app. split_and!; [done| |apply NoDup_singleton].
  intros x Hx ->%list_elem_of_singleton. done.
Qed.

Lemma Forall_setitem (P : string * V → Prop) k v d :
  P (k, v) → Forall P d → Forall P (setitem k v d).
Proof.
  intros Hkv. induction 1 as [|[k' v'] d Hx Hd IH]; simpl.
  - by constructor.
  - destruct (String.eqb_spec k' k) as [->|Hne]; by constructor.
Qed.

Lemma get_Forall (P : string * V → Prop) k v d :
  Forall P d → get k d = Some v → P (k, v).
Proof.
  induction 1 as [|[k' v'] d Hx Hd IH]; simpl; [done|].
  destruct (String.eqb_spec k' k) as [->|Hne]; [|done].
  by intros [= ->].
Qed.

Lemma elem_of_keys_get k d : k ∈ keys d → is_Some (get k d).
Proof.
  unfold keys. induction d as [|[k' v'] d IH]; simpl.
  - by intros ?%elem_of_nil.
  - destruct (String.eqb_spec k' k) as [->|Hne]; [by eauto|].
    rewrite elem_of_cons. by intros [->|?]; [|apply IH].
Qed.

Lemma get_elem_of_keys k v d : get k d = Some v → k ∈ keys d.
Proof.
  unfold keys. induction d as [|[k' v'] d IH]; cbn [get map fst]; [done|].
  destruct (String.eqb_spec k' k) as [->|Hne]; rewrite elem_of_cons; auto.
Qed.

Lemma count_not_in k d : k ∉ keys d → count k d = 0.
Proof.
  unfold keys, count. induction d as [|[k' v'] d IH]; cbn [map fst]; [done|].
  rewrite not_elem_of_cons. intros [Hne Hnin].
  rewrite filter_cons. case_decide as Hk; [by cbn [fst] in Hk; subst|]. auto.
Qed.

(** A key of a dictionary without repeated keys has exactly one entry. *)
Lemma count_NoDup k d : NoDup (keys d) → k ∈ keys d → count k d = 1.
Proof.
  unfold keys. induction d as [|[k' v'] d IH]; cbn [map fst].
  - by intros _ ?%elem_of_nil.
  - rewrite NoDup_cons, elem_of_cons. intros [Hk' Hnd] Hin.
    unfold count. destruct (decide (k' = k)) as [->|Hne].
    + rewrite filter_cons, decide_True by done. cbn [length]. f_equal.
      by apply count_not_in.
    + rewrite filter_cons, decide_False by done. apply IH; [done|].
      by destruct Hin as [->|Hin].
Qed.

End Dict.

Lemma index_ok_empty : index_ok empty.
Proof. split; [apply NoDup_nil_2 | constructor]. Qed.

Lemma index_ok_setitem t d :
  index_ok d → index_ok (setitem t (t +:+ "_narrado.wav") d).
Proof.
  intros [Hnd Hall]. split; [by apply NoDup_keys_setitem | by apply Forall_setitem].
Qed.

(** Once a title is in the index it stays, with the same file name. *)
Lemma get_setitem_narrado t t' d :
  get t d = Some (t +:+ "_narrado.wav") →
  get t (setitem t' (t' +:+ "_narrado.wav") d) = Some (t +:+ "_narrado.wav").
Proof.
  intros Hget. destruct (decide (t' = t)) as [->|Hne].
  - apply get_setitem_eq.
  - by rewrite get_setitem_ne.
Qed.

End PyDictFacts.

(** ** The loop over the pages *)

Section JobFacts.
Context `{AudioLib}.
Variable SOUNDFONT_PATH : string.
Variable luma : Pixel → Z.

Import PyDictFacts.

Lemma failed_not_finalized st st' : page_failed st st' → page_finalized st st' → False.
Proof.
  intros (evs & m & Htr & Hlast & Herr) (evs' & f & Htr' & Hlast').
  rewrite Htr in Htr'. apply (inj (app _)) in Htr' as <-.
  rewrite Hlast in Hlast'. by injection Hlast' as ->.
Qed.

Lemma trace_ext_inv st st' evs evs' :
  trace st' = trace st ++ evs → trace st' = trace st ++ evs' → evs = evs'.
Proof. intros -> Heq. by apply (inj (app _)) in Heq. Qed.


(** What a finalized page has done. *)
Lemma process_page_finalized out i p st c st' :
  process_page SOUNDFONT_PATH luma out i p st = (c, st') →
  page_finalized st st' →
  ∃ score text narr piece,
    let title := resolve_title score (temp_id p) i in
    let final := OsPath.join out (title +:+ "_narrado.wav") in
    is_sheet_music luma (page_image p) = Ok true ∧
    recognized_score st i p = Some score ∧
    generate_narration_text score title = Ok text ∧
    tts p text = Ok narr ∧
    piece_audio_read st i p = Some piece ∧
    c = Normal tt ∧
    narrated_scores st'
      = PyDict.setitem title (title +:+ "_narrado.wav") (narrated_scores st) ∧
    trace st' = trace st ++
      [Print (MsgIsSheet i); Subprocess (audiveris_cmd p i);
       Subprocess (fluidsynth_cmd SOUNDFONT_PATH p i);
       Speak 150 text (temp_name "narration" (temp_id p) i ".wav");
       Print (MsgSaved final)] ∧
    files st' !! final
      = Some (WavData (audio_add (audio_add narr (audio_silent 1000)) piece)) ∧
    ∀ f, f ∈ temp_files (temp_id p) i → files st' !! f = None.
Proof.
  intros Hrun Hfin.
  destruct (is_sheet_music luma (page_image p)) as [[]|e] eqn:Hcls.
  - destruct (process_page_music _ _ _ _ _ _ _ _ Hcls Hrun)
      as [(_ & Hfail & _)|(score & text & narr & piece & _ & Hrest)].
    + destruct (failed_not_finalized st st'); done.
    + exists score, text, narr, piece. cbv zeta in *.
      destruct Hrest as (? & ? & ? & ? & ? & ? & ? & ? & ?). by repeat split.
  - rewrite process_page_non_music in Hrun by done.
    injection Hrun as <- <-. destruct Hfin as (evs & f & Htr & Hlast).
    cbn [trace] in Htr. apply (inj (app _)) in Htr as <-. done.
  - rewrite (process_page_classify_raise _ _ _ _ _ _ e) in Hrun by done.
    injection Hrun as <- <-. destruct Hfin as (evs & f & Htr & Hlast).
    cbn [trace] in Htr. rewrite <-(app_nil_r (trace st)) in Htr at 1.
    apply (inj (app _)) in Htr as <-. done.
Qed.

(** Every page either leaves the index alone or assigns one title. *)
Lemma process_page_step out i p st c st' :
  classifiable luma p →
  process_page SOUNDFONT_PATH luma out i p st = (c, st') →
  (c = Normal tt ∨ c = Continue) ∧
  (narrated_scores st' = narrated_scores st
   ∨ ∃ t, narrated_scores st'
          = PyDict.setitem t (t +:+ "_narrado.wav") (narrated_scores st)).
Proof.
  intros [[] Hcls] Hrun.
  - destruct (process_page_music _ _ _ _ _ _ _ _ Hcls Hrun)
      as [(Hc & _ & Hidx)|(score & text & narr & piece & _ & _ & _ & _ & _ & Hfin)].
    + auto.
    + destruct Hfin as (-> & Hidx & _). split; [by left|]. right. eauto.
  - rewrite process_page_non_music in Hrun by done.
    injection Hrun as <- <-. auto.
Qed.

Lemma run_pages_cons out i p ps st :
  run_pages SOUNDFONT_PATH luma out i (p :: ps) st
  = match process_page SOUNDFONT_PATH luma out i p st with
    | (Raised e, st') => (Raised e, st')
    | (_, st') => run_pages SOUNDFONT_PATH luma out (S i) ps st'
    end.
Proof.
  unfold run_pages. cbn [enumerate_from for_each fst snd].
  by destruct (process_page SOUNDFONT_PATH luma out i p st) as [[[]| |] st'].
Qed.

Lemma run_pages_app out i ps1 ps2 st :
  run_pages SOUNDFONT_PATH luma out i (ps1 ++ ps2) st
  = match run_pages SOUNDFONT_PATH luma out i ps1 st with
    | (Raised e, st') => (Raised e, st')
    | (_, st') => run_pages SOUNDFONT_PATH luma out (i + length ps1) ps2 st'
    end.
Proof.
  revert i st. induction ps1 as [|p ps1 IH]; intros i st.
  - cbn [app length]. rewrite Nat.add_0_r. unfold run_pages at 2. by cbn.
  - cbn [app length]. rewrite !run_pages_cons.
    destruct (process_page SOUNDFONT_PATH luma out i p st) as [[[]| |] st'];
      rewrite ?IH, ?Nat.add_succ_r; done.
Qed.

(** When every page can be classified the loop runs to its end, and
    whatever holds of the index and is kept by assignments still holds. *)
Lemma run_pages_returns (P : PyDict.t string → Prop) out i ps st :
  (∀ d t, P d → P (PyDict.setitem t (t +:+ "_narrado.wav") d)) →
  Forall (classifiable luma) ps →
  P (narrated_scores st) →
  ∃ st', run_pages SOUNDFONT_PATH luma out i ps st = (Normal tt, st')
         ∧ P (narrated_scores st').
Proof.
  intros HP Hall. revert i st. induction Hall as [|p ps Hp Hps IH]; intros i st Hst.
  - exists st. by unfold run_pages.
  - rewrite run_pages_cons.
    destruct (process_page SOUNDFONT_PATH luma out i p st) as [c st1] eqn:Hrun.
    destruct (process_page_step _ _ _ _ _ _ Hp Hrun) as [Hc Hidx].
    assert (P (narrated_scores st1)) as Hst1.
    { destruct Hidx as [->|[t ->]]; auto. }
    destruct (IH (S i) st1 Hst1) as (st' & Hrest & Hst').
    exists st'. by destruct Hc as [->| ->].
Qed.

Lemma process_pdf_run ps pdf_path out st :
  is_Some (files st !! SOUNDFONT_PATH) →
  process_pdf SOUNDFONT_PATH luma (Ok ps) pdf_path out st
  = match run_pages SOUNDFONT_PATH luma out 0 ps (job_start st pdf_path) with
    | (Normal _, st') => (Normal (narrated_scores st'), st')
    | (Raised e, st') => (Raised e, st')
    | (Continue, st') => (Continue, st')
    end.
Proof.
  intros [data Hsf]. unfold process_pdf, run_pages, job_start. exec.
  rewrite Hsf. cbn [negb]. by exec.
Qed.

End JobFacts.

(** * The claims *)

Section Claims.
Context `{AudioLib}.
Variable SOUNDFONT_PATH : string.
Variable luma : Pixel → Z.

Import PyDictFacts NameFacts.

(** C3 — narration-text generation is total: for every score and title,
    also a score without key, time signature or tempo marking,
    [generate_narration_text] returns a string, made of the introduction,
    one clause per extraction and the closing remark; each extraction
    that raises or finds nothing contributes its own fixed fallback
    clause, whatever the other two do. *)
Theorem narration_text_total (score : Score) (title : string) :
  generate_narration_text score title
  = Ok ((((intro_clause title +:+ key_part (analyze_key score))
            +:+ meter_part (time_signatures score))
            +:+ tempo_part (metronome_marks score))
            +:+ closing_clause)
  ∧ (∀ e, key_part (Raise e) = key_fallback)
  ∧ (∀ e, meter_part (Raise e) = meter_fallback) ∧ meter_part (Ok []) = meter_fallback
  ∧ (∀ e, tempo_part (Raise e) = tempo_fallback) ∧ tempo_part (Ok []) = tempo_fallback.
Proof.
  split; [|by repeat split].
  unfold generate_narration_text, try_except, mbind, result_bind, key_part, meter_part,
    tempo_part.
  destruct (analyze_key score) as [k|], (time_signatures score) as [[|ratio ts]|],
    (metronome_marks score) as [[|[tempo|] marks]|]; cbn [first_number];
    try destruct (number_truthy tempo); reflexivity.
Qed.

(** C5 — when the sound font does not exist, [process_pdf] raises at once:
    the world is left as it was (nothing is rasterized, no file is
    written, no command is run) and no index is returned. *)
Theorem missing_soundfont_aborts pdf pdf_path output_dir (st : State) :
  files st !! SOUNDFONT_PATH = None →
  process_pdf SOUNDFONT_PATH luma pdf pdf_path output_dir st
  = (Raised (Exception ("SoundFont não encontrado em " +:+ SOUNDFONT_PATH +:+ ".")), st).
Proof.
  intros Hsf. unfold process_pdf. exec. rewrite Hsf. by exec.
Qed.

(** C7 — a page classified as non-music prints one line and nothing else:
    no subprocess is started for it (so Audiveris is not invoked), and
    the index is left as it was. *)
Theorem non_music_page_skipped output_dir i p (st : State) :
  is_sheet_music luma (page_image p) = Ok false →
  ∃ st', process_page SOUNDFONT_PATH luma output_dir i p st = (Normal tt, st')
    ∧ trace st' = trace st ++ [Print (MsgNotSheet i)]
    ∧ (∀ evs cmd, trace st' = trace st ++ evs → Subprocess cmd ∉ evs)
    ∧ narrated_scores st' = narrated_scores st.
Proof.
  intros Hcls. eexists. split; [by apply process_page_non_music|].
  cbn [trace narrated_scores]. split; [done|]. split; [|done].
  intros evs cmd <-%(inj (app _)). rewrite list_elem_of_singleton. by intros [=].
Qed.

(** C8 — once Audiveris has exited normally, [find_musicxml_file] on the
    base name of the page image returns [<base>.xml] when that file
    exists, else [<base>.mxl] when that one exists, else [None]; in the
    last case the page is dropped: an error line is printed, the loop
    continues and the index is left as it was. *)
Theorem recognized_score_path output_dir i p (st : State) :
  is_sheet_music luma (page_image p) = Ok true →
  omr_exit_ok p = true →
  let base_name := (OsPath.splitext (temp_name "page" (temp_id p) i ".png")).1 in
  let after_omr :=
    {| files := files_after_omr st i p;
       trace := trace st ++ [Print (MsgIsSheet i); Subprocess (audiveris_cmd p i)];
       narrated_scores := narrated_scores st |} in
  base_name = temp_stem "page" (temp_id p) i
  ∧ find_musicxml_file base_name after_omr
    = (Normal (match files_after_omr st i p !! (base_name +:+ ".xml") with
               | Some _ => Some (base_name +:+ ".xml")
               | None =>
                   match files_after_omr st i p !! (base_name +:+ ".mxl") with
                   | Some _ => Some (base_name +:+ ".mxl")
                   | None => None
                   end
               end), after_omr)
  ∧ (files_after_omr st i p !! (base_name +:+ ".xml") = None →
     files_after_omr st i p !! (base_name +:+ ".mxl") = None →
     ∃ st', process_page SOUNDFONT_PATH luma output_dir i p st = (Continue, st')
       ∧ page_failed st st'
       ∧ last (trace st') = Some (Print (MsgNoMusicXml i))
       ∧ narrated_scores st' = narrated_scores st).
Proof.
  intros Hcls Hexit base_name after_omr. subst base_name.
  split; [by rewrite splitext_image|].
  split; [apply find_musicxml_file_run|].
  rewrite !base_name_ext. intros Hxml Hmxl.
  eexists. split.
  { apply process_page_no_output; [done..|]. unfold recognized_file. by rewrite Hxml, Hmxl. }
  cbn [trace narrated_scores]. split; [|split; [|done]].
  - eexists _, _. split; [reflexivity|]. by split.
  - by rewrite last_app.
Qed.



(** C6 (as amended) — the artifact a finalized page leaves in the output
    directory is [narration_audio + pause + piece_audio]: the narration
    read back from its file, then [AudioSegment.silent(duration=1000)],
    then the piece read back from the file FluidSynth wrote, joined in
    this order.  Its duration is the one of this sum of segments, which
    need not be the sum of the three durations. *)
Theorem final_audio_composition output_dir i p (st : State) c st' :
  process_page SOUNDFONT_PATH luma output_dir i p st = (c, st') →
  page_finalized st st' →
  ∃ score text narration_audio piece_audio,
    let title := resolve_title score (temp_id p) i in
    let pause := audio_silent 1000 in
    let final_audio := audio_add (audio_add narration_audio pause) piece_audio in
    recognized_score st i p = Some score
    ∧ generate_narration_text score title = Ok text
    ∧ tts p text = Ok narration_audio
    ∧ piece_audio_read st i p = Some piece_audio
    ∧ files st' !! OsPath.join output_dir (title +:+ "_narrado.wav")
      = Some (WavData final_audio).
Proof.
  intros Hrun Hfin.
  destruct (process_page_finalized _ _ _ _ _ _ _ _ Hrun Hfin)
    as (score & text & narr & piece & _ & Hscore & Htext & Htts & Hpiece & _ & _ & _
        & Hfile & _).
  exists score, text, narr, piece. cbv zeta. by split_and!.
Qed.

(** C10 — when two pages of a document are finalized under the same
    title, no error is raised: the later page assigns the entry of the
    earlier one again, and the returned index holds exactly one entry for
    the title, with the file name written by the later page. *)
Theorem title_collision_overwrites output_dir pdf_path l1 p1 l2 p2 l3 (st : State) t :
  is_Some (files st !! SOUNDFONT_PATH) →
  Forall (classifiable luma) (l1 ++ p1 :: l2 ++ p2 :: l3) →
  let i1 := length l1 in
  let i2 := S (i1 + length l2) in
  let a1 := (run_pages SOUNDFONT_PATH luma output_dir 0 l1 (job_start st pdf_path)).2 in
  let b1 := (process_page SOUNDFONT_PATH luma output_dir i1 p1 a1).2 in
  let a2 := (run_pages SOUNDFONT_PATH luma output_dir (S i1) l2 b1).2 in
  let b2 := (process_page SOUNDFONT_PATH luma output_dir i2 p2 a2).2 in
  page_finalized a1 b1 → page_title a1 i1 p1 = Some t →
  page_finalized a2 b2 → page_title a2 i2 p2 = Some t →
  ∃ d st',
    process_pdf SOUNDFONT_PATH luma (Ok (l1 ++ p1 :: l2 ++ p2 :: l3)) pdf_path output_dir st
    = (Normal d, st')
    ∧ PyDict.get t (narrated_scores a2) = Some (t +:+ "_narrado.wav")
    ∧ narrated_scores b2 = PyDict.setitem t (t +:+ "_narrado.wav") (narrated_scores a2)
    ∧ PyDict.count t d = 1
    ∧ PyDict.get t d = Some (t +:+ "_narrado.wav").
Proof.
  intros Hsf (Hl1 & [Hp1 (Hl2 & [Hp2 Hl3]%Forall_cons)%Forall_app]%Forall_cons)%Forall_app.
  intros i1 i2 a1 b1 a2 b2. subst a1 b1 a2 b2.
  set (kept := λ d : PyDict.t string,
         index_ok d ∧ PyDict.get t d = Some (t +:+ "_narrado.wav")).
  assert (∀ d t', kept d → kept (PyDict.setitem t' (t' +:+ "_narrado.wav") d)) as Hkept.
  { intros d t' [Hok Hget]. split; [by apply index_ok_setitem|].
    by apply get_setitem_narrado. }
  (* the pages before the first one *)
  destruct (run_pages_returns SOUNDFONT_PATH luma index_ok output_dir 0 l1
              (job_start st pdf_path)) as (a1 & Hrun1 & Hok1);
    [by intros; apply index_ok_setitem|done|apply index_ok_empty|].
  rewrite Hrun1. cbn [snd].
  (* the first page *)
  destruct (process_page SOUNDFONT_PATH luma output_dir i1 p1 a1) as [c1 b1] eqn:Hp1run.
  cbn [snd].
  (* the pages between the two *)
  destruct (run_pages SOUNDFONT_PATH luma output_dir (S i1) l2 b1) as [c12 a2] eqn:Hrun2.
  cbn [snd].
  (* the second page *)
  destruct (process_page SOUNDFONT_PATH luma output_dir i2 p2 a2) as [c2 b2] eqn:Hp2run.
  cbn [snd]. intros Hfin1 Ht1 Hfin2 Ht2.
  destruct (process_page_finalized _ _ _ _ _ _ _ _ Hp1run Hfin1)
    as (s1 & ? & ? & ? & _ & Hs1 & _ & _ & _ & -> & Hidx1 & _).
  unfold page_title in Ht1. rewrite Hs1 in Ht1. injection Ht1 as Ht1.
  rewrite Ht1 in Hidx1.
  assert (kept (narrated_scores b1)) as Hk1.
  { rewrite Hidx1. split; [by apply index_ok_setitem|apply get_setitem_eq]. }
  destruct (run_pages_returns SOUNDFONT_PATH luma kept output_dir (S i1) l2 b1)
    as (a2' & Hrun2' & Hk2); [done..|].
  rewrite Hrun2 in Hrun2'. injection Hrun2' as -> <-.
  destruct (process_page_finalized _ _ _ _ _ _ _ _ Hp2run Hfin2)
    as (s2 & ? & ? & ? & _ & Hs2 & _ & _ & _ & -> & Hidx2 & _).
  unfold page_title in Ht2. rewrite Hs2 in Ht2. injection Ht2 as Ht2.
  rewrite Ht2 in Hidx2.
  assert (kept (narrated_scores b2)) as Hk3 by (rewrite Hidx2; by apply Hkept).
  (* the pages after the second one *)
  destruct (run_pages_returns SOUNDFONT_PATH luma kept output_dir (S i2) l3 b2)
    as (st' & Hrun3 & [[Hnd _] Hget]); [done..|].
  exists (narrated_scores st'), st'. split_and!.
  - rewrite process_pdf_run, run_pages_app, Hrun1 by done.
    cbn [Nat.add]. rewrite run_pages_cons. fold i1. rewrite Hp1run.
    rewrite run_pages_app, Hrun2, run_pages_cons.
    replace (S i1 + length l2) with i2 by (subst i2; lia).
    by rewrite Hp2run, Hrun3.
  - apply Hk2.
  - done.
  - apply count_NoDup; [done|]. by eapply get_elem_of_keys.
  - done.
Qed.

End Claims.

(** * The claims on the sample documents *)

Section SampleRuns.

Import Samples.

#[local] Existing Instance SampleAudio.lib.

Abbreviation run_page := (process_page soundfont Cv2.bgr2gray "output_audio").
Abbreviation run_pdf pages :=
  (process_pdf soundfont Cv2.bgr2gray (Ok pages) "partitura.pdf" "output_audio").

Abbreviation started := (job_start st0 "partitura.pdf").

Lemma missing_soundfont_aborts_witness :
  run_pdf [good_page ode] st_no_soundfont
  = (Raised (Exception "SoundFont não encontrado em soundfont.sf2."), st_no_soundfont).
Proof.
  apply (missing_soundfont_aborts soundfont Cv2.bgr2gray).
  vm_compute. reflexivity.
Defined.

Lemma non_music_page_skipped_witness :
  ∃ st', run_page 0 text_page st0 = (Normal tt, st')
    ∧ trace st' = trace st0 ++ [Print (MsgNotSheet 0)]
    ∧ (∀ evs cmd, trace st' = trace st0 ++ evs → Subprocess cmd ∉ evs)
    ∧ narrated_scores st' = narrated_scores st0.
Proof.
  apply (non_music_page_skipped soundfont Cv2.bgr2gray).
  vm_compute. reflexivity.
Defined.

Lemma recognized_score_path_witness :
  ∃ st', run_page 0 no_output_page st0 = (Continue, st')
    ∧ last (trace st') = Some (Print (MsgNoMusicXml 0))
    ∧ narrated_scores st' = narrated_scores st0.
Proof.
  destruct (recognized_score_path soundfont Cv2.bgr2gray "output_audio" 0
              no_output_page st0) as (_ & _ & Hdropped).
  - vm_compute. reflexivity.
  - reflexivity.
  - destruct Hdropped as (st' & Hrun & _ & Hlast & Hidx).
    + vm_compute. reflexivity.
    + vm_compute. reflexivity.
    + exists st'. by repeat split.
Defined.



Lemma final_audio_composition_witness :
  ∃ score text narration_audio piece_audio,
    let title := resolve_title score "ab12" 0 in
    let pause := audio_silent 1000 in
    let final_audio := audio_add (audio_add narration_audio pause) piece_audio in
    recognized_score st0 0 (good_page ode) = Some score
    ∧ generate_narration_text score title = Ok text
    ∧ tts (good_page ode) text = Ok narration_audio
    ∧ piece_audio_read st0 0 (good_page ode) = Some piece_audio
    ∧ files (run_page 0 (good_page ode) st0).2
        !! OsPath.join "output_audio" (title +:+ "_narrado.wav")
      = Some (WavData final_audio).
Proof.
  apply (final_audio_composition soundfont Cv2.bgr2gray "output_audio" 0 (good_page ode)
           st0 (run_page 0 (good_page ode) st0).1).
  - apply surjective_pairing.
  - exists (new_events st0 (run_page 0 (good_page ode) st0).2),
      "output_audio/Ode_narrado.wav".
    split; vm_compute; reflexivity.
Defined.

Lemma title_collision_overwrites_witness :
  ∃ d st',
    run_pdf [good_page ode; good_page ode] st0 = (Normal d, st')
    ∧ PyDict.count "Ode" d = 1
    ∧ PyDict.get "Ode" d = Some "Ode_narrado.wav".
Proof.
  destruct (title_collision_overwrites soundfont Cv2.bgr2gray "output_audio"
              "partitura.pdf" [] (good_page ode) [] (good_page ode) [] st0 "Ode")
    as (d & st' & Hrun & _ & _ & Hcount & Hget).
  - exists RawData. vm_compute. reflexivity.
  - repeat constructor; exists true; vm_compute; reflexivity.
  - exists (new_events started (run_page 0 (good_page ode) started).2),
      "output_audio/Ode_narrado.wav".
    split; vm_compute; reflexivity.
  - vm_compute. reflexivity.
  - exists (new_events (run_page 0 (good_page ode) started).2
              (run_page 1 (good_page ode) (run_page 0 (good_page ode) started).2).2),
      "output_audio/Ode_narrado.wav".
    split; vm_compute; reflexivity.
  - vm_compute. reflexivity.
  - exists d, st'. split; [exact Hrun|]. split; [exact Hcount|exact Hget].
Defined.

(** C4 — the claim is violated by the code on a title made of spaces
    only: line 165 tests the title before line 166 strips it, so the
    page does not get the placeholder that the claim, and the test
    itself, reserve for a title that is empty once normalized; it is
    finalized under the empty title, in the file [_narrado.wav]. *)
Theorem blank_title_gets_no_placeholder :
  let r := run_pdf [good_page blank_titled] st0 in
  r.1 = Normal [(EmptyString, "_narrado.wav")]
  ∧ is_Some (files r.2 !! "output_audio/_narrado.wav")
  ∧ resolve_title blank_titled "ab12" 0 = EmptyString
  ∧ spec_resolved_title blank_titled "ab12" 0 = "Partitura_ab12_0".
Proof.
  cbv zeta. split_and!.
  - vm_compute. reflexivity.
  - exists (WavData (audio_add (audio_add speech (audio_silent 1000)) music)).
    vm_compute. reflexivity.
  - vm_compute. reflexivity.
  - vm_compute. reflexivity.
Qed.

(** C1 — the claim is violated by the code on a page whose FluidSynth run
    fails: the [continue] of that handler skips the clean-up loop, and the
    recognized score and the MIDI file stay behind. *)
Theorem synthesis_failure_leaks_files :
  let r := run_pdf [synth_fail_page] st0 in
  r.1 = Normal []
  ∧ is_Some (files r.2 !! "temp_page_ab12_0.xml")
  ∧ is_Some (files r.2 !! "temp_page_ab12_0.mid")
  ∧ files r.2 !! "temp_page_ab12_0.png" = None.
Proof.
  cbv zeta. split_and!.
  - vm_compute. reflexivity.
  - exists (ScoreData (Ok ode)). vm_compute. reflexivity.
  - exists MidiData. vm_compute. reflexivity.
  - vm_compute. reflexivity.
Qed.

End SampleRuns.

Section PydubRuns.

Import Samples PydubSamples.

#[local] Existing Instance Pydub.lib.

(** C6, as the claim words it, fails on durations: for a narration of
    3000 ms and a piece of 2000 ms the artifact, made of the narration,
    the second of silence and the piece, lasts 6001 ms. *)
Lemma duration_is_not_the_sum_counterexample :
  let r := process_page soundfont Cv2.bgr2gray "output_audio" 0 page st0 in
  let final_audio := audio_add (audio_add narration (audio_silent 1000)) piece in
  r.1 = Normal tt
  ∧ last (trace r.2) = Some (Print (MsgSaved "output_audio/Ode_narrado.wav"))
  ∧ files r.2 !! "output_audio/Ode_narrado.wav" = Some (WavData final_audio)
  ∧ audio_duration narration = 3000%Z
  ∧ audio_duration (audio_silent 1000) = 1000%Z
  ∧ audio_duration piece = 2000%Z
  ∧ audio_duration final_audio = 6001%Z.
Proof. cbv zeta. split_and!; vm_compute; reflexivity. Qed.

End PydubRuns.

(** * Further properties of the code *)


(** ** Float division of two counts *)

Module PyFloatFacts.
Import PyFloat.

Local Open Scope Z_scope.

Lemma digits2_pos_bounds (p : positive) :
  2 ^ (Z.pos (digits2_pos p) - 1) ≤ Z.pos p < 2 ^ Z.pos (digits2_pos p).
Proof.
  induction p as [p IH|p IH|]; cbn [digits2_pos].
  - rewrite Pos2Z.inj_succ. replace (Z.succ (Z.pos (digits2_pos p)) - 1)
      with (Z.succ (Z.pos (digits2_pos p) - 1)) by lia.
    rewrite !Z.pow_succ_r by lia. lia.
  - rewrite Pos2Z.inj_succ. replace (Z.succ (Z.pos (digits2_pos p)) - 1)
      with (Z.succ (Z.pos (digits2_pos p) - 1)) by lia.
    rewrite !Z.pow_succ_r by lia. lia.
  - cbn. lia.
Qed.

(** The number of binary digits is determined by the binade. *)
Lemma Zdigits2_eq (m k : Z) : 0 < k → 2 ^ (k - 1) ≤ m < 2 ^ k → Zdigits2 m = k.
Proof.
  intros Hk [Hlo Hhi].
  assert (0 < m) as Hm by (pose proof (Z.pow_pos_nonneg 2 (k - 1)); lia).
  destruct m as [|p|p]; try lia. cbn [Zdigits2].
  pose proof (digits2_pos_bounds p) as [Hlo' Hhi'].
  set (d := Z.pos (digits2_pos p)) in *.
  assert (d - 1 < k) by (apply (Z.pow_lt_mono_r_iff 2); lia).
  assert (k - 1 < d) by (apply (Z.pow_lt_mono_r_iff 2); lia).
  lia.
Qed.

Lemma Zdigits2_pos_bounds (m : Z) :
  0 < m → 0 < Zdigits2 m ∧ 2 ^ (Zdigits2 m - 1) ≤ m < 2 ^ Zdigits2 m.
Proof.
  intros Hm. destruct m as [|p|p]; try lia. cbn [Zdigits2].
  split; [lia|apply digits2_pos_bounds].
Qed.

Lemma shr_1_pos (m : Z) (r s : bool) :
  0 < m →
  shr_1 {| shr_m := m; shr_r := r; shr_s := s |}
  = {| shr_m := m / 2; shr_r := Z.odd m; shr_s := r || s |}.
Proof.
  intros Hm. rewrite <-Z.div2_div. by destruct m as [|[p|p|]|].
Qed.

(** Where the remainder [r] of a division by [b] lies with respect to [b / 2]. *)
Lemma new_location_spec (b r : Z) :
  0 < b → 0 ≤ r < b →
  match new_location b r with
  | loc_Exact => r = 0
  | loc_Inexact Lt => 0 < r ∧ 2 * r < b
  | loc_Inexact Eq => 0 < r ∧ 2 * r = b
  | loc_Inexact Gt => b < 2 * r
  end.
Proof.
  intros Hb Hr. unfold new_location, new_location_even, new_location_odd.
  destruct (Z.even b) eqn:Heven; destruct (Z.eqb_spec r 0) as [->|Hr0]; try done.
  - destruct (Z.compare_spec (2 * r) b); lia.
  - rewrite <-Z.negb_odd in Heven. apply negb_false_iff, Z.odd_spec in Heven as [k Hk].
    destruct (Z.compare_spec (2 * r + 1) b); lia.
Qed.

Lemma fexp_normal (x : Z) : -1000 ≤ x → fexp prec emax x = x - 53.
Proof. unfold fexp, emin, prec, emax. lia. Qed.

(** The second shift of [binary_round_aux]: a mantissa that the rounding has
    carried to 2^53 is brought back to 2^52. *)
Lemma shr_fexp_carry (m e : Z) :
  2 ^ 52 ≤ m ≤ 2 ^ 53 → -900 ≤ e →
  ∃ mrs e' k, shr_fexp prec emax m e loc_Exact = (mrs, e')
    ∧ e' = e + k ∧ 0 ≤ k ≤ 1 ∧ 2 ^ 52 ≤ shr_m mrs < 2 ^ 53 ∧ shr_m mrs * 2 ^ k = m.
Proof.
  intros Hm He. unfold shr_fexp.
  destruct (Z.eq_dec m (2 ^ 53)) as [->|Hne].
  - rewrite (Zdigits2_eq (2 ^ 53) 54) by (cbn; lia). rewrite fexp_normal by lia.
    replace (54 + e - 53 - e) with 1 by lia.
    eexists _, _, 1. split; [reflexivity|]. cbn [shr iter_pos shr_record_of_loc].
    rewrite shr_1_pos by lia. cbn [shr_m]. change (2 ^ 53 / 2) with (2 ^ 52). lia.
  - rewrite (Zdigits2_eq m 53) by (cbn; lia). rewrite fexp_normal by lia.
    replace (53 + e - 53 - e) with 0 by lia.
    eexists _, _, 0. split; [reflexivity|]. cbn [shr_record_of_loc shr_m]. lia.
Qed.

(** Rounding the quotient [q + r / b], scaled by [2 ^ e], to nearest even. *)
Lemma binary_round_aux_quotient (q e b r : Z) :
  2 ^ 52 ≤ q < 2 ^ 54 → -800 ≤ e ≤ -1 → 0 < b → 0 ≤ r < b →
  ∃ m e' k,
    binary_round_aux prec emax false q e (new_location b r) = S754_finite false m e'
    ∧ e' = e + k ∧ 0 ≤ k ≤ 2 ∧ 2 ^ 52 ≤ Z.pos m < 2 ^ 53
    ∧ (2 * Z.pos m - 1) * b * 2 ^ k ≤ 2 * (b * q + r) ≤ (2 * Z.pos m + 1) * b * 2 ^ k.
Proof.
  intros Hq He Hb Hr. pose proof (new_location_spec b r Hb Hr) as Hloc.
  unfold binary_round_aux.
  destruct (Z.lt_ge_cases q (2 ^ 53)) as [Hq53|Hq53].
  - (* 53 digits: no first shift *)
    unfold shr_fexp at 1. rewrite (Zdigits2_eq q 53) by (cbn; lia). rewrite fexp_normal by lia.
    replace (53 + e - 53 - e) with 0 by lia. cbn [shr].
    set (m1 := round_nearest_even _ _).
    assert (m1 = q ∧ 2 * r ≤ b ∨ m1 = q + 1 ∧ b ≤ 2 * r) as Hm1.
    { subst m1. destruct (new_location b r) as [|[]]; cbn; try destruct (Z.even q); lia. }
    destruct (shr_fexp_carry m1 e) as (mrs & e' & k & -> & -> & Hk & Hmrs & Hmul); [lia..|].
    destruct (shr_m mrs) as [|m|m] eqn:Hm; try lia.
    exists m, (e + k), k. rewrite (proj2 (Z.leb_le _ _)) by (unfold emax, prec; lia).
    split; [done|]. split; [done|]. split; [lia|]. split; [done|].
    assert (k = 0 ∨ k = 1) as [-> | ->] by lia; cbn in Hmul |- *; nia.
  - (* 54 digits: the first shift drops the last bit *)
    unfold shr_fexp at 1. rewrite (Zdigits2_eq q 54) by (cbn; lia). rewrite fexp_normal by lia.
    replace (54 + e - 53 - e) with 1 by lia. cbn [shr iter_pos].
    set (h := q / 2).
    assert (q = 2 * h + (if Z.odd q then 1 else 0)) as Hqh.
    { subst h. rewrite (Z.div_mod q 2) at 1 by lia. rewrite Zmod_odd. lia. }
    set (m1 := round_nearest_even _ _).
    assert (m1 = h ∧ (Z.odd q = true → r = 0) ∨ m1 = h + 1 ∧ Z.odd q = true) as Hm1.
    { subst m1. destruct (new_location b r) as [|[]];
        cbn [shr_record_of_loc]; rewrite shr_1_pos by lia; fold h;
        cbn [shr_m loc_of_shr_record orb shr_r shr_s];
        destruct (Z.odd q); cbn; try destruct (Z.even h); lia. }
    destruct (shr_fexp_carry m1 (e + 1)) as (mrs & e' & k & -> & -> & Hk & Hmrs & Hmul);
      [destruct (Z.odd q); lia|lia|].
    destruct (shr_m mrs) as [|m|m] eqn:Hm; try lia.
    exists m, (e + 1 + k), (1 + k). rewrite (proj2 (Z.leb_le _ _)) by (unfold emax, prec; lia).
    split; [done|]. split; [lia|]. split; [lia|]. split; [done|].
    assert (k = 0 ∨ k = 1) as [-> | ->] by lia; cbn in Hmul |- *;
      destruct (Z.odd q); nia.
Qed.

Lemma SFdiv_pos (pa pb : positive) :
  Z.pos pa < 2 ^ 53 → Z.pos pb < 2 ^ 53 →
  ∃ m e,
    SFdiv prec emax (S754_finite false pa 0) (S754_finite false pb 0) = S754_finite false m e
    ∧ 2 ^ 52 ≤ Z.pos m < 2 ^ 53 ∧ e ≤ 1
    ∧ (2 * Z.pos m - 1) * Z.pos pb ≤ 2 ^ (1 - e) * Z.pos pa ≤ (2 * Z.pos m + 1) * Z.pos pb.
Proof.
  intros Ha Hb. set (a := Z.pos pa) in *. set (b := Z.pos pb) in *.
  destruct (Zdigits2_pos_bounds a) as (Hd1 & Ha_lo & Ha_hi); [done|].
  destruct (Zdigits2_pos_bounds b) as (Hd2 & Hb_lo & Hb_hi); [done|].
  set (d1 := Zdigits2 a) in *. set (d2 := Zdigits2 b) in *.
  assert (d1 ≤ 53) as Hd1'.
  { assert (d1 - 1 < 53); [|lia]. apply (Z.pow_lt_mono_r_iff 2); lia. }
  assert (d2 ≤ 53) as Hd2'.
  { assert (d2 - 1 < 53); [|lia]. apply (Z.pow_lt_mono_r_iff 2); lia. }
  unfold SFdiv, SFdiv_core_binary. cbn [xorb]. fold a b d1 d2.
  assert (fexp prec emax (d1 + 0 - (d2 + 0)) `min` (0 - 0) = d1 - d2 - 53) as ->
    by (unfold fexp, emin, prec, emax; lia).
  set (s := 53 + d2 - d1). replace (0 - 0 - (d1 - d2 - 53)) with s by lia.
  assert (0 < s) as Hs by lia.
  destruct s as [|ps|ps] eqn:Hs_eq; try lia. rewrite <-Hs_eq in *. clear Hs_eq ps.
  rewrite Z.shiftl_mul_pow2 by lia.
  (* the binade of the divisor, and of the scaled dividend *)
  set (A := 2 ^ (d2 - 1)) in *.
  assert (2 ^ d2 = 2 * A) as HA.
  { subst A. rewrite <-Z.pow_succ_r by lia. f_equal. lia. }
  assert (2 ^ 53 * A ≤ a * 2 ^ s < 2 ^ 54 * A) as Hm'.
  { assert (2 ^ (d1 - 1) * 2 ^ s = 2 ^ 53 * A) as Hlo.
    { subst A. rewrite <-!Z.pow_add_r by lia. f_equal. lia. }
    assert (2 ^ d1 * 2 ^ s = 2 ^ 54 * A) as Hhi.
    { subst A. rewrite <-!Z.pow_add_r by lia. f_equal. lia. }
    assert (0 < 2 ^ s) by (apply Z.pow_pos_nonneg; lia). nia. }
  set (m' := a * 2 ^ s) in *.
  pose proof (Z_div_mod m' b ltac:(lia)) as Hdm.
  change (Z.div_eucl m' b) with (IntDef.Z.div_eucl m' b) in Hdm.
  destruct (IntDef.Z.div_eucl m' b) as [q r]. destruct Hdm as [Hm'_eq Hr].
  assert (2 ^ 52 ≤ q < 2 ^ 54) as Hq by nia.
  destruct (binary_round_aux_quotient q (d1 - d2 - 53) b r)
    as (m & e & k & -> & -> & Hk & Hm & Hbnd); [lia..|].
  exists m, (d1 - d2 - 53 + k). split; [done|]. split; [done|]. split; [lia|].
  replace (1 - (d1 - d2 - 53 + k)) with (s + 1 - k) by lia.
  assert (2 ^ (s + 1 - k) * 2 ^ k = 2 * 2 ^ s) as Hpow.
  { rewrite <-Z.pow_add_r by lia. replace (s + 1 - k + k) with (Z.succ s) by lia.
    apply Z.pow_succ_r. lia. }
  assert (0 < 2 ^ k) as Hk2 by (apply Z.pow_pos_nonneg; lia).
  rewrite <-Hm'_eq in Hbnd. subst m'.
  replace (2 * (a * 2 ^ s)) with (2 ^ (s + 1 - k) * a * 2 ^ k) in Hbnd by lia.
  split; apply (Z.mul_le_mono_pos_r _ _ (2 ^ k)); lia.
Qed.

(** On two counts below 2^53 the float test [a / b > 0.01] decides exactly
    the integer inequality [b < 100 * a]. *)
Lemma truediv_gt_0_01 (a b : Z) :
  0 ≤ a < 2 ^ 53 → 0 < b < 2 ^ 53 →
  ∃ ratio, truediv a b = Ok ratio ∧ gt ratio lit_0_01 = (b <? 100 * a).
Proof.
  intros Ha Hb. unfold truediv. rewrite (proj2 (Z.eqb_neq b 0)) by lia.
  eexists. split; [reflexivity|].
  destruct b as [|pb|pb]; try lia. destruct a as [|pa|pa]; try lia.
  { reflexivity. }
  destruct (SFdiv_pos pa pb) as (m & e & Hdiv & Hm & He & Hlo & Hhi); [lia..|].
  cbn [of_int]. rewrite Hdiv. unfold gt, SFltb, lit_0_01, SFcompare.
  set (a := Z.pos pa) in *. set (b := Z.pos pb) in *.
  set (T := 5764607523034235%positive).
  assert (Z.pos T = 5764607523034235) as HT by reflexivity.
  assert (0 ≤ b) as Hb0 by lia.
  assert (0 ≤ a) as Ha0 by lia.
  assert (0 < 2 ^ (1 - e)) as HP by (apply Z.pow_pos_nonneg; lia).
  pose proof (Z.mul_le_mono_nonneg_r (2 ^ 52) (Z.pos m) b Hb0 ltac:(lia)) as Hmb_lo.
  pose proof (Z.mul_le_mono_nonneg_r (Z.pos m) (2 ^ 53 - 1) b Hb0 ltac:(lia)) as Hmb_hi.
  symmetry.
  destruct (Z.compare_spec (-59) e) as [<-|Hlt|Hgt].
  - change (Pos.compare_cont Eq T m) with (Pos.compare T m).
    change (2 ^ (1 - -59)) with (2 ^ 60) in *.
    destruct (Pos.compare_spec T m) as [<-|Hlt|Hgt].
    + apply Z.ltb_ge. lia.
    + apply Z.ltb_lt.
      pose proof (Z.mul_le_mono_nonneg_r (Z.pos T + 1) (Z.pos m) b Hb0 ltac:(lia)). lia.
    + apply Z.ltb_ge.
      pose proof (Z.mul_le_mono_nonneg_r (Z.pos m) (Z.pos T - 1) b Hb0 ltac:(lia)). lia.
  - apply Z.ltb_lt.
    pose proof (Z.pow_le_mono_r 2 (1 - e) 59 ltac:(lia) ltac:(lia)).
    pose proof (Z.mul_le_mono_nonneg_r (2 ^ (1 - e)) (2 ^ 59) a Ha0 ltac:(lia)). lia.
  - apply Z.ltb_ge.
    pose proof (Z.pow_le_mono_r 2 61 (1 - e) ltac:(lia) ltac:(lia)).
    pose proof (Z.mul_le_mono_nonneg_r (2 ^ 61) (2 ^ (1 - e)) a Ha0 ltac:(lia)). lia.
Qed.

End PyFloatFacts.

(** ** The morphology of [is_sheet_music] *)

Module Cv2Facts.
Import Cv2.
Local Open Scope Z_scope.

Lemma window_elem (radius : nat) (row : list Z) (x : nat) (v : Z) :
  v ∈ window radius row x
  ↔ ∃ y, row !! y = Some v ∧ (x - radius ≤ y)%nat ∧ (y ≤ x + radius)%nat.
Proof.
  unfold window. rewrite list_elem_of_lookup. split.
  - intros [j Hj]. destruct (decide (j < x + radius + 1 - (x - radius))%nat) as [Hlt|Hge].
    + rewrite lookup_take_lt, lookup_drop in Hj by done.
      exists (x - radius + j)%nat. split; [done|lia].
    + rewrite lookup_take_ge in Hj by lia. done.
  - intros (y & Hy & Hlo & Hhi). exists (y - (x - radius))%nat.
    rewrite lookup_take_lt, lookup_drop by lia.
    by replace (x - radius + (y - (x - radius)))%nat with y by lia.
Qed.

Lemma erode_row_lookup radius (row : list Z) x :
  erode_row radius row !! x
  = if decide (x < length row)%nat
    then Some (foldr Z.min 255 (window radius row x)) else None.
Proof.
  unfold erode_row, GrayRow. change (map ?f ?l) with (f <$> l).
  rewrite list_lookup_fmap. case_decide as Hx.
  - by rewrite lookup_seq_lt.
  - by rewrite lookup_seq_ge by lia.
Qed.

Lemma dilate_row_lookup radius (row : list Z) x :
  dilate_row radius row !! x
  = if decide (x < length row)%nat
    then Some (foldr Z.max 0 (window radius row x)) else None.
Proof.
  unfold dilate_row, GrayRow. change (map ?f ?l) with (f <$> l).
  rewrite list_lookup_fmap. case_decide as Hx.
  - by rewrite lookup_seq_lt.
  - by rewrite lookup_seq_ge by lia.
Qed.

Lemma length_erode_row radius (row : list Z) : length (erode_row radius row) = length row.
Proof. unfold erode_row. by rewrite length_map, length_seq. Qed.

Lemma length_dilate_row radius (row : list Z) : length (dilate_row radius row) = length row.
Proof. unfold dilate_row. by rewrite length_map, length_seq. Qed.

Lemma foldr_min_le (l : list Z) (v : Z) : v ∈ l → foldr Z.min 255 l ≤ v.
Proof.
  induction l as [|u l IH]; [by intros ?%elem_of_nil|].
  rewrite elem_of_cons. cbn [foldr]. intros [->|Hin]; [lia|]. specialize (IH Hin). lia.
Qed.

Lemma foldr_min_ge (l : list Z) (c : Z) :
  c ≤ 255 → Forall (λ v, c ≤ v) l → c ≤ foldr Z.min 255 l.
Proof. intros Hc. induction 1; cbn [foldr]; lia. Qed.

Lemma foldr_max_ge (l : list Z) (v : Z) : v ∈ l → v ≤ foldr Z.max 0 l.
Proof.
  induction l as [|u l IH]; [by intros ?%elem_of_nil|].
  rewrite elem_of_cons. cbn [foldr]. intros [->|Hin]; [lia|]. specialize (IH Hin). lia.
Qed.

Lemma foldr_max_le (l : list Z) (c : Z) :
  0 ≤ c → Forall (λ v, v ≤ c) l → foldr Z.max 0 l ≤ c.
Proof. intros Hc. induction 1; cbn [foldr]; lia. Qed.

Lemma foldr_max_nonneg (l : list Z) : 0 ≤ foldr Z.max 0 l.
Proof. induction l; cbn [foldr]; lia. Qed.

(** Samples stay in range. *)
Lemma erode_row_nonneg radius (row : list Z) :
  Forall (λ v, 0 ≤ v) row → Forall (λ v, 0 ≤ v) (erode_row radius row).
Proof.
  intros Hrow. apply Forall_lookup. intros x v. rewrite erode_row_lookup.
  case_decide; [|done]. intros [= <-]. apply foldr_min_ge; [lia|].
  apply Forall_forall. intros u (y & Hy & _)%window_elem.
  by eapply (Forall_lookup_1 _ row).
Qed.

Lemma dilate_row_nonneg radius (row : list Z) : Forall (λ v, 0 ≤ v) (dilate_row radius row).
Proof.
  apply Forall_lookup. intros x v. rewrite dilate_row_lookup.
  case_decide; [|done]. intros [= <-]. apply foldr_max_nonneg.
Qed.

(** A dilation after an erosion gives back at most what was there. *)
Lemma dilate_erode_le radius (row : list Z) :
  Forall (λ v, 0 ≤ v) row →
  Forall2 Z.le (dilate_row radius (erode_row radius row)) row.
Proof.
  intros Hrow. apply Forall2_same_length_lookup.
  split; [by rewrite length_dilate_row, length_erode_row|].
  intros x u v. rewrite dilate_row_lookup. case_decide; [|done]. intros [= <-] Hv.
  apply foldr_max_le; [by eapply (Forall_lookup_1 _ row)|].
  apply Forall_forall. intros w (y & Hy & Hlo & Hhi)%window_elem.
  rewrite erode_row_lookup in Hy. case_decide; [|done]. injection Hy as <-.
  apply foldr_min_le, window_elem. exists x. split; [done|lia].
Qed.

Lemma dilate_row_mono radius (a b : list Z) :
  Forall2 Z.le a b → Forall2 Z.le (dilate_row radius a) (dilate_row radius b).
Proof.
  intros [Hlen Hle]%Forall2_same_length_lookup. apply Forall2_same_length_lookup.
  split; [by rewrite !length_dilate_row|].
  intros x u v. rewrite !dilate_row_lookup. rewrite Hlen.
  case_decide as Hx; [|done]. intros [= <-] [= <-].
  apply foldr_max_le; [apply foldr_max_nonneg|].
  apply Forall_forall. intros w (y & Hy & Hlo & Hhi)%window_elem.
  destruct (lookup_lt_is_Some_2 b y) as [w' Hw'].
  { rewrite <-Hlen. by eapply lookup_lt_Some. }
  etrans; [by eapply Hle|]. apply foldr_max_ge, window_elem. eauto.
Qed.

(** The opening with two iterations never adds to a row. *)
Lemma open_row_le radius (row : list Z) :
  Forall (λ v, 0 ≤ v) row →
  Forall2 Z.le (Nat.iter 2 (dilate_row radius) (Nat.iter 2 (erode_row radius) row)) row.
Proof.
  intros Hrow. cbn [Nat.iter nat_rect].
  set (s := erode_row radius row).
  assert (Forall (λ v, 0 ≤ v) s) as Hs by by apply erode_row_nonneg.
  trans (dilate_row radius s).
  - by apply dilate_row_mono, dilate_erode_le.
  - by apply dilate_erode_le.
Qed.

Lemma count_le (a b : list Z) :
  Forall (λ v, 0 ≤ v) a → Forall2 Z.le a b →
  (length (filter (λ v : Z, v ≠ 0%Z) a) ≤ length (filter (λ v : Z, v ≠ 0%Z) b))%nat.
Proof.
  intros Ha Hab. induction Hab as [|u v a b Huv Hab IH]; [done|].
  apply Forall_cons in Ha as [Hu Ha]. specialize (IH Ha).
  rewrite !filter_cons. repeat case_decide; cbn [length]; lia.
Qed.

Lemma countNonZero_cons row img :
  countNonZero (row :: img)
  = Z.of_nat (length (filter (λ v, v ≠ 0) row)) + countNonZero img.
Proof. unfold countNonZero. cbn [concat]. rewrite filter_app, length_app. apply Nat2Z.inj_add. Qed.

Lemma countNonZero_morph_open radius src :
  Forall (Forall (λ v, 0 ≤ v)) src →
  countNonZero (morph_open radius 2 src) ≤ countNonZero src.
Proof.
  unfold morph_open. induction 1 as [|row src Hrow Hsrc IH]; [done|].
  cbn [map]. rewrite !countNonZero_cons.
  pose proof (count_le _ _ (dilate_row_nonneg radius _) (open_row_le radius row Hrow)).
  cbn [Nat.iter nat_rect] in *. unfold GrayRow in *. lia.
Qed.

Lemma threshold_nonneg gray :
  Forall (Forall (λ v, 0 ≤ v)) (threshold_binary_inv 127 255 gray).
Proof.
  unfold threshold_binary_inv. apply Forall_forall. intros row Hrow.
  change (map ?f ?l) with (f <$> l) in Hrow.
  apply list_elem_of_fmap in Hrow as (row' & -> & _).
  apply Forall_forall. intros v Hv. change (map ?f ?l) with (f <$> l) in Hv.
  apply list_elem_of_fmap in Hv as (v' & -> & _). case_match; lia.
Qed.

(** Pixel counts. *)
Lemma countNonZero_le img : countNonZero img ≤ Z.of_nat (length (concat img)).
Proof. unfold countNonZero. pose proof (length_filter (λ v, v ≠ 0) (concat img)). lia. Qed.

Lemma length_concat_map (f : GrayRow → GrayRow) (img : list GrayRow) :
  (∀ row, length (f row) = length row) →
  length (concat (map f img)) = length (concat img).
Proof.
  intros Hf. induction img as [|row img IH]; [done|].
  cbn [map concat]. by rewrite !length_app, Hf, IH.
Qed.

Lemma length_concat_rows {A} (f : A → GrayRow) (l : list A) (w : nat) :
  (∀ y, length (f y) = w) → length (concat (map f l)) = (length l * w)%nat.
Proof.
  intros Hf. induction l as [|y l IH]; [done|].
  cbn [map concat length]. rewrite length_app, Hf, IH. lia.
Qed.

Lemma cvtColor_pixels luma image gray :
  cvtColor luma image = Ok gray →
  Z.of_nat (length (concat gray)) = total_pixels image
  ∧ (0 < shape0 image)%nat ∧ (0 < shape1 image)%nat.
Proof.
  unfold cvtColor, total_pixels. case_bool_decide as Hempty; [done|]. intros [= <-].
  rewrite (length_concat_rows _ _ (shape1 image)), length_seq.
  - lia.
  - intros y. by rewrite length_map, length_seq.
Qed.

Lemma detected_lines_pixels gray :
  length (concat (detected_lines gray)) = length (concat gray).
Proof.
  unfold detected_lines, morph_open, threshold_binary_inv.
  rewrite !length_concat_map; [done| |].
  - intros row. apply length_map.
  - intros row. cbn [Nat.iter nat_rect].
    by rewrite !length_dilate_row, !length_erode_row.
Qed.

(** Rows that are foreground everywhere stay so. *)
Lemma window_self radius (row : list Z) x v : row !! x = Some v → v ∈ window radius row x.
Proof. intros Hx. apply window_elem. exists x. split; [done|lia]. Qed.

Lemma window_Forall (P : Z → Prop) radius (row : list Z) x :
  Forall P row → Forall P (window radius row x).
Proof. intros Hrow. unfold window. by apply Forall_take, Forall_drop. Qed.

Lemma erode_row_full radius (row : list Z) :
  Forall (λ v, v = 255) row → Forall (λ v, v = 255) (erode_row radius row).
Proof.
  intros Hrow. apply Forall_lookup. intros x v. rewrite erode_row_lookup.
  case_decide as Hx; [|done]. intros [= <-].
  destruct (lookup_lt_is_Some_2 row x Hx) as [u Hu].
  pose proof (Forall_lookup_1 _ _ _ _ Hrow Hu) as Hu'. cbn beta in Hu'. subst u.
  apply Z.le_antisymm.
  - by apply foldr_min_le, window_self.
  - apply foldr_min_ge; [lia|].
    eapply Forall_impl; [by apply window_Forall|]. cbn beta. lia.
Qed.

Lemma dilate_row_full radius (row : list Z) :
  Forall (λ v, v = 255) row → Forall (λ v, v = 255) (dilate_row radius row).
Proof.
  intros Hrow. apply Forall_lookup. intros x v. rewrite dilate_row_lookup.
  case_decide as Hx; [|done]. intros [= <-].
  destruct (lookup_lt_is_Some_2 row x Hx) as [u Hu].
  pose proof (Forall_lookup_1 _ _ _ _ Hrow Hu) as Hu'. cbn beta in Hu'. subst u.
  apply Z.le_antisymm.
  - apply foldr_max_le; [lia|].
    eapply Forall_impl; [by apply window_Forall|]. cbn beta. lia.
  - by apply foldr_max_ge, window_self.
Qed.

Lemma filter_full (row : list Z) :
  Forall (λ v, v = 255) row → filter (λ v : Z, v ≠ 0) row = row.
Proof.
  induction 1 as [|v row -> Hrow IH]; [done|].
  rewrite filter_cons, decide_True by done. by rewrite IH.
Qed.

Lemma countNonZero_full (img : list (list Z)) :
  Forall (Forall (λ v, v = 255)) img → countNonZero img = Z.of_nat (length (concat img)).
Proof.
  induction 1 as [|row img Hrow Himg IH]; [done|].
  rewrite countNonZero_cons, IH. cbn [concat]. unfold GrayRow in *.
  rewrite filter_full by done. rewrite length_app. lia.
Qed.

(** All four passes are monotone. *)
Lemma foldr_min_le_255 (l : list Z) : foldr Z.min 255 l ≤ 255.
Proof. induction l; cbn [foldr]; lia. Qed.

Lemma erode_row_mono radius (a b : list Z) :
  Forall2 Z.le a b → Forall2 Z.le (erode_row radius a) (erode_row radius b).
Proof.
  intros [Hlen Hle]%Forall2_same_length_lookup. apply Forall2_same_length_lookup.
  split; [by rewrite !length_erode_row|].
  intros x u v. rewrite !erode_row_lookup. rewrite Hlen.
  case_decide as Hx; [|done]. intros [= <-] [= <-].
  apply foldr_min_ge; [apply foldr_min_le_255|].
  apply Forall_forall. intros w (y & Hy & Hlo & Hhi)%window_elem.
  destruct (lookup_lt_is_Some_2 a y) as [w' Hw'].
  { rewrite Hlen. by eapply lookup_lt_Some. }
  etrans; [|by eapply Hle]. apply foldr_min_le, window_elem. eauto.
Qed.

Lemma countNonZero_mono (a b : list (list Z)) :
  Forall (Forall (λ v, 0 ≤ v)) a → Forall2 (Forall2 Z.le) a b →
  countNonZero a ≤ countNonZero b.
Proof.
  intros Ha Hab. induction Hab as [|r1 r2 a b Hr Hab IH]; [done|].
  apply Forall_cons in Ha as [Hr1 Ha]. rewrite !countNonZero_cons.
  pose proof (count_le _ _ Hr1 Hr). specialize (IH Ha). unfold GrayRow in *. lia.
Qed.

Lemma morph_open_mono (a b : list (list Z)) :
  Forall2 (Forall2 Z.le) a b →
  Forall2 (Forall2 Z.le) (morph_open 12 2 a) (morph_open 12 2 b).
Proof.
  unfold morph_open. change (map ?f ?l) with (f <$> l).
  intros Hab. apply Forall2_fmap. eapply Forall2_impl; [exact Hab|].
  intros r1 r2 Hr. cbn [Nat.iter nat_rect].
  by apply dilate_row_mono, dilate_row_mono, erode_row_mono, erode_row_mono.
Qed.

Lemma morph_open_nonneg (src : list (list Z)) :
  Forall (Forall (λ v, 0 ≤ v)) (morph_open 12 2 src).
Proof.
  unfold morph_open. change (map ?f ?l) with (f <$> l). apply Forall_fmap, Forall_forall.
  intros row _. cbn [compose Nat.iter nat_rect]. apply dilate_row_nonneg.
Qed.

(** A darker page has more foreground after the threshold. *)
Lemma threshold_darker luma image1 image2 gray1 gray2 :
  cvtColor luma image1 = Ok gray1 → cvtColor luma image2 = Ok gray2 →
  shape0 image1 = shape0 image2 → shape1 image1 = shape1 image2 →
  (∀ y x, (y < shape0 image1)%nat → (x < shape1 image1)%nat →
          luma (pixel_at image2 y x) ≤ luma (pixel_at image1 y x)) →
  Forall2 (Forall2 Z.le) (threshold_binary_inv 127 255 gray1)
                         (threshold_binary_inv 127 255 gray2).
Proof.
  unfold cvtColor. intros Hgray1 Hgray2 Hrows Hcols Hdark.
  rewrite <-Hrows, <-Hcols in Hgray2.
  case_bool_decide; [done|]. injection Hgray1 as <-. injection Hgray2 as <-.
  unfold threshold_binary_inv. change (map ?f ?l) with (f <$> l).
  rewrite <-!list_fmap_compose. apply Forall2_fmap, Forall_Forall2_diag, Forall_forall.
  intros y [_ Hy]%elem_of_seq. cbn [compose].
  change (map ?f ?l) with (f <$> l). rewrite <-!list_fmap_compose.
  apply Forall2_fmap, Forall_Forall2_diag, Forall_forall.
  intros x [_ Hx]%elem_of_seq. cbn [compose].
  specialize (Hdark y x ltac:(lia) ltac:(lia)). repeat case_match; lia.
Qed.

(** Rows without a long run are erased by the two erosions. *)
Lemma forallb_false {A} (f : A → bool) (l : list A) :
  forallb f l = false → ∃ j u, l !! j = Some u ∧ f u = false.
Proof.
  induction l as [|u l IH]; [done|]. cbn [forallb].
  destruct (f u) eqn:Hu; [|by exists 0%nat, u].
  intros (j & w & Hj & Hw)%IH. by exists (S j), w.
Qed.

Lemma has_run_false (n : nat) (row : list Z) (x : nat) :
  (0 < n)%nat → has_run n row = false → (x + n ≤ length row)%nat →
  ∃ j, (j < n)%nat ∧ row !! (x + j)%nat = Some 0.
Proof.
  intros Hn. revert x. induction row as [|v row IH]; intros x Hrun Hx.
  - cbn [length] in Hx. lia.
  - cbn [has_run] in Hrun. apply orb_false_iff in Hrun as [Hhere Hrest].
    destruct x as [|x].
    + rewrite (proj2 (Nat.leb_le _ _)) in Hhere by lia. cbn [andb] in Hhere.
      apply forallb_false in Hhere as (j & u & Hj & Hu).
      apply negb_false_iff, Z.eqb_eq in Hu as ->.
      destruct (decide (j < n)%nat) as [Hlt|Hge].
      * exists j. split; [done|]. by rewrite lookup_take_lt in Hj.
      * by rewrite lookup_take_ge in Hj by lia.
    + destruct (IH x Hrest) as (j & Hj & Hlookup); [cbn [length] in Hx; lia|].
      by exists j.
Qed.

Lemma erode_twice_erases (row : list Z) :
  Forall (λ v, 0 ≤ v) row → has_run 25 row = false → (25 ≤ length row)%nat →
  Forall (λ v, v = 0) (erode_row 12 (erode_row 12 row)).
Proof.
  intros Hrow Hrun Hlen.
  assert (∀ y, (12 ≤ y)%nat → (y + 12 < length row)%nat →
            erode_row 12 row !! y = Some 0) as Hinner.
  { intros y Hlo Hhi. rewrite erode_row_lookup, decide_True by lia. f_equal.
    destruct (has_run_false 25 row (y - 12)) as (j & Hj & Hzero); [lia|done|lia|].
    apply Z.le_antisymm.
    - apply foldr_min_le, window_elem. exists (y - 12 + j)%nat. split; [done|lia].
    - apply foldr_min_ge; [lia|]. by apply window_Forall. }
  apply Forall_lookup. intros x v. rewrite erode_row_lookup, length_erode_row.
  case_decide as Hx; [|done]. intros [= <-].
  apply Z.le_antisymm.
  - apply foldr_min_le, window_elem.
    exists (12 `max` (x `min` (length row - 13)))%nat. split; [apply Hinner; lia|lia].
  - apply foldr_min_ge; [lia|]. by apply window_Forall, erode_row_nonneg.
Qed.

Lemma dilate_row_zero (row : list Z) :
  Forall (λ v, v = 0) row → Forall (λ v, v = 0) (dilate_row 12 row).
Proof.
  intros Hrow. apply Forall_lookup. intros x v. rewrite dilate_row_lookup.
  case_decide as Hx; [|done]. intros [= <-]. apply Z.le_antisymm.
  - apply foldr_max_le; [lia|].
    eapply Forall_impl; [by apply window_Forall|]. cbn beta. lia.
  - apply foldr_max_nonneg.
Qed.

Lemma filter_zero (row : list Z) :
  Forall (λ v, v = 0) row → filter (λ v : Z, v ≠ 0) row = [].
Proof.
  induction 1 as [|v row -> Hrow IH]; [done|].
  rewrite filter_cons, decide_False; [done|]. intros Hne. by apply Hne.
Qed.

(** An image whose rows have no run of 25 foreground samples, and are at
    least that long, has no line pixel. *)
Lemma countNonZero_no_runs (src : list (list Z)) :
  Forall (λ row, Forall (λ v, 0 ≤ v) row ∧ has_run 25 row = false
                 ∧ (25 ≤ length row)%nat) src →
  countNonZero (morph_open 12 2 src) = 0.
Proof.
  unfold morph_open. induction 1 as [|row src (Hrow & Hrun & Hlen) Hsrc IH]; [done|].
  cbn [map]. rewrite countNonZero_cons, IH. cbn [Nat.iter nat_rect].
  unfold GrayRow in *. rewrite filter_zero; [done|].
  by apply dilate_row_zero, dilate_row_zero, erode_twice_erases.
Qed.

Lemma threshold_row_lengths luma image gray :
  cvtColor luma image = Ok gray →
  Forall (λ row : list Z, length row = shape1 image) (threshold_binary_inv 127 255 gray).
Proof.
  unfold cvtColor. case_bool_decide; [done|]. intros [= <-].
  unfold threshold_binary_inv. change (map ?f ?l) with (f <$> l).
  rewrite <-list_fmap_compose. apply Forall_fmap, Forall_forall. intros y _.
  cbn [compose]. by rewrite !length_map, length_seq.
Qed.

End Cv2Facts.

(** ** The decision of [is_sheet_music] *)

Section ClassifierFacts.
Variable luma : Pixel → Z.
Local Open Scope Z_scope.

Import Cv2Facts.

Lemma line_pixels_bounds image gray :
  Cv2.cvtColor luma image = Ok gray →
  0 ≤ Cv2.countNonZero (detected_lines gray) ≤ total_pixels image
  ∧ 0 < total_pixels image.
Proof.
  intros Hgray. destruct (cvtColor_pixels _ _ _ Hgray) as (Htotal & Hrows & Hcols).
  pose proof (countNonZero_le (detected_lines gray)) as Hle.
  rewrite detected_lines_pixels in Hle. unfold Cv2.countNonZero in *.
  unfold total_pixels in *. split; [lia|]. lia.
Qed.

(** On a page of fewer than 2^53 pixels the float comparison is the
    comparison of the two integers. *)
Lemma is_sheet_music_decision image gray :
  Cv2.cvtColor luma image = Ok gray →
  total_pixels image < 2 ^ 53 →
  is_sheet_music luma image
  = Ok (total_pixels image <? 100 * Cv2.countNonZero (detected_lines gray)).
Proof.
  intros Hgray Hsize. destruct (line_pixels_bounds _ _ Hgray) as [Hcount Htotal].
  unfold is_sheet_music. rewrite Hgray. cbn [mbind result_bind].
  destruct (PyFloatFacts.truediv_gt_0_01 (Cv2.countNonZero (detected_lines gray))
              (total_pixels image)) as (ratio & Hdiv & Hgt); [lia..|].
  rewrite Hdiv. cbn [mbind result_bind]. by rewrite Hgt.
Qed.

Lemma cvtColor_nonempty image :
  (0 < shape0 image)%nat → (0 < shape1 image)%nat →
  ∃ gray, Cv2.cvtColor luma image = Ok gray.
Proof.
  intros Hrows Hcols. unfold Cv2.cvtColor.
  rewrite bool_decide_eq_false_2 by lia. eauto.
Qed.

(** X1 — on every non-empty page of fewer than 2^53 pixels the test
    [line_pixels / total_pixels > 0.01], computed on binary64 floats,
    decides exactly whether [100 * line_pixels > total_pixels] on the
    integers: rounding never moves a page across the threshold. *)
Theorem threshold_test_is_exact image :
  (0 < shape0 image)%nat → (0 < shape1 image)%nat → total_pixels image < 2 ^ 53 →
  ∃ gray, Cv2.cvtColor luma image = Ok gray
    ∧ is_sheet_music luma image
      = Ok (total_pixels image <? 100 * Cv2.countNonZero (detected_lines gray)).
Proof.
  intros Hrows Hcols Hsize. destruct (cvtColor_nonempty image) as [gray Hgray]; [done..|].
  exists gray. split; [done|]. by apply is_sheet_music_decision.
Qed.

(** X2 — a page on which at most one pixel in a hundred is dark (its gray
    level is at most 127, so that [thresh] is non-zero there) is never
    classified as sheet music: the opening only removes foreground. *)
Theorem sparse_page_is_not_music image gray :
  Cv2.cvtColor luma image = Ok gray →
  total_pixels image < 2 ^ 53 →
  100 * Cv2.countNonZero (Cv2.threshold_binary_inv 127 255 gray) ≤ total_pixels image →
  is_sheet_music luma image = Ok false.
Proof.
  intros Hgray Hsize Hsparse. rewrite (is_sheet_music_decision _ gray) by done.
  f_equal. apply Z.ltb_ge.
  pose proof (countNonZero_morph_open 12 _ (threshold_nonneg gray)) as Hopen.
  unfold detected_lines. lia.
Qed.

Lemma dark_page_thresh image gray :
  Cv2.cvtColor luma image = Ok gray →
  (∀ y x, (y < shape0 image)%nat → (x < shape1 image)%nat →
          luma (pixel_at image y x) ≤ 127) →
  Forall (Forall (λ v, v = 255)) (Cv2.threshold_binary_inv 127 255 gray).
Proof.
  unfold Cv2.cvtColor. case_bool_decide; [done|]. intros [= <-] Hdark.
  unfold Cv2.threshold_binary_inv. change (map ?f ?l) with (f <$> l).
  rewrite <-!list_fmap_compose. apply Forall_fmap, Forall_forall.
  intros y [_ Hy]%elem_of_seq. cbn [compose].
  change (map ?f ?l) with (f <$> l). rewrite <-!list_fmap_compose.
  apply Forall_fmap, Forall_forall. intros x [_ Hx]%elem_of_seq. cbn [compose].
  rewrite (proj2 (Z.ltb_ge _ _)); [done|]. apply Hdark; lia.
Qed.

(** X3 — a page that is dark everywhere (every gray level at most 127)
    is classified as sheet music whatever its size: nothing is eroded
    away, so all of its pixels are counted as line pixels. *)
Theorem dark_page_is_music image :
  (0 < shape0 image)%nat → (0 < shape1 image)%nat → total_pixels image < 2 ^ 53 →
  (∀ y x, (y < shape0 image)%nat → (x < shape1 image)%nat →
          luma (pixel_at image y x) ≤ 127) →
  is_sheet_music luma image = Ok true.
Proof.
  intros Hrows Hcols Hsize Hdark.
  destruct (cvtColor_nonempty image) as [gray Hgray]; [done..|].
  rewrite (is_sheet_music_decision _ gray) by done. f_equal. apply Z.ltb_lt.
  destruct (cvtColor_pixels _ _ _ Hgray) as (Htotal & _ & _).
  rewrite countNonZero_full.
  - rewrite detected_lines_pixels. unfold total_pixels in *. lia.
  - unfold detected_lines, Cv2.morph_open. change (map ?f ?l) with (f <$> l).
    apply Forall_fmap. eapply Forall_impl; [by apply (dark_page_thresh image)|].
    intros row Hrow. cbn [compose Nat.iter nat_rect].
    by apply dilate_row_full, dilate_row_full, erode_row_full, erode_row_full.
Qed.

(** X4 — on a page at least 25 pixels wide on which no row has 25
    consecutive dark pixels (the width of the structuring element), the
    opening leaves nothing: text and other short marks never make a page
    sheet music. *)
Theorem page_without_long_runs_is_not_music image gray :
  Cv2.cvtColor luma image = Ok gray →
  total_pixels image < 2 ^ 53 →
  (25 ≤ shape1 image)%nat →
  forallb (λ row, negb (has_run 25 row)) (Cv2.threshold_binary_inv 127 255 gray) = true →
  is_sheet_music luma image = Ok false.
Proof.
  intros Hgray Hsize Hwidth Hruns. rewrite (is_sheet_music_decision _ gray) by done.
  f_equal. apply Z.ltb_ge. unfold detected_lines.
  rewrite countNonZero_no_runs; [unfold total_pixels; lia|].
  apply Forall_forall. intros row Hrow.
  pose proof (proj1 (Forall_forall _ _) (threshold_nonneg gray) row Hrow) as Hnonneg.
  pose proof (proj1 (Forall_forall _ _) (threshold_row_lengths _ _ _ Hgray) row Hrow)
    as Hlen.
  cbn beta in Hlen. split; [done|]. split; [|lia].
  rewrite forallb_forall in Hruns. apply negb_true_iff, Hruns.
  by apply list_elem_of_In.
Qed.

(** X5 — darkening a page never takes it out of the sheet-music class:
    if a page is classified as sheet music, so is every page of the same
    size that is at least as dark at every pixel. *)
Theorem darker_page_stays_music image1 image2 :
  shape0 image1 = shape0 image2 → shape1 image1 = shape1 image2 →
  total_pixels image1 < 2 ^ 53 →
  (∀ y x, (y < shape0 image1)%nat → (x < shape1 image1)%nat →
          luma (pixel_at image2 y x) ≤ luma (pixel_at image1 y x)) →
  is_sheet_music luma image1 = Ok true →
  is_sheet_music luma image2 = Ok true.
Proof.
  intros Hrows Hcols Hsize Hdark Hmusic.
  assert (total_pixels image2 = total_pixels image1) as Htotal
    by (unfold total_pixels; by rewrite Hrows, Hcols).
  destruct (Cv2.cvtColor luma image1) as [gray1|e] eqn:Hgray1;
    [|by unfold is_sheet_music in Hmusic; rewrite Hgray1 in Hmusic].
  destruct (cvtColor_pixels _ _ _ Hgray1) as (_ & Hpos0 & Hpos1).
  destruct (cvtColor_nonempty image2) as [gray2 Hgray2]; [lia..|].
  rewrite (is_sheet_music_decision _ gray1) in Hmusic by done.
  rewrite (is_sheet_music_decision _ gray2) by (by rewrite ?Htotal).
  injection Hmusic as Hmusic. apply Z.ltb_lt in Hmusic. f_equal. apply Z.ltb_lt.
  pose proof (countNonZero_mono _ _ (morph_open_nonneg _)
                (morph_open_mono _ _
                   (threshold_darker _ _ _ _ _ Hgray1 Hgray2 Hrows Hcols Hdark))) as Hcount.
  unfold detected_lines in *. lia.
Qed.

(** X6 — [is_sheet_music] answers on every page that has at least one
    pixel and raises on the others only: the division by the pixel count
    is never reached with a zero divisor, because [cv2.cvtColor] has then
    already refused the empty image. *)
Theorem is_sheet_music_raises_on_empty_only image :
  ((∃ sheet, is_sheet_music luma image = Ok sheet)
   ↔ (0 < shape0 image)%nat ∧ (0 < shape1 image)%nat)
  ∧ (∀ e, is_sheet_music luma image = Raise e → e = LibraryError "cv2.cvtColor").
Proof.
  unfold is_sheet_music. destruct (Cv2.cvtColor luma image) as [gray|e] eqn:Hgray.
  - destruct (line_pixels_bounds _ _ Hgray) as [_ Htotal].
    destruct (cvtColor_pixels _ _ _ Hgray) as (_ & Hrows & Hcols).
    cbn [mbind result_bind]. unfold PyFloat.truediv.
    rewrite (proj2 (Z.eqb_neq _ 0)) by lia. cbn [mbind result_bind].
    split; [|done]. split; [done|eauto].
  - cbn [mbind result_bind]. revert Hgray. unfold Cv2.cvtColor.
    case_bool_decide as Hempty; [|done]. intros [= <-].
    split; [|by intros ? [= <-]]. split; [by intros [? ?]|lia].
Qed.


End ClassifierFacts.

(** ** What the job does to the files *)

Section FrameFacts.
Context `{AudioLib}.
Variable SOUNDFONT_PATH : string.
Variable luma : Pixel → Z.

Implicit Types (T W : string → Prop).

Lemma confined_same {A} T W (m : M A) :
  (∀ st c st', m st = (c, st') → files st' = files st) → confined T W m.
Proof. intros Hm st c st' f Hrun. left. by rewrite (Hm _ _ _ Hrun). Qed.

Lemma confined_weaken {A} T W T' W' (m : M A) :
  (∀ f, T f → T' f) → (∀ f, W f → W' f) → confined T W m → confined T' W' m.
Proof.
  intros HT HW Hm st c st' f Hrun.
  destruct (Hm _ _ _ f Hrun) as [?|[?|[? ?]]]; auto.
Qed.

Lemma confined_bind {A B} T W (m : M A) (k : A → M B) :
  confined T W m → (∀ a, confined T W (k a)) → confined T W (bind m k).
Proof.
  intros Hm Hk st c st' f. unfold bind.
  destruct (m st) as [[a|e|] st1] eqn:Hrun1; [|intros [= <- <-]; by eapply Hm..].
  intros Hrun2.
  destruct (Hk a _ _ _ f Hrun2) as [Heq2|[?|?]]; [|auto..].
  destruct (Hm _ _ _ f Hrun1) as [Heq1|[?|(? & audio & Haudio)]]; [|auto|].
  - left. congruence.
  - right. right. split; [done|]. exists audio. congruence.
Qed.

Lemma confined_mbind {A B} T W (m : M A) (k : A → M B) :
  confined T W m → (∀ a, confined T W (k a)) → confined T W (@mbind M M_bind A B k m).
Proof. apply confined_bind. Qed.

Lemma confined_ret {A} T W (a : A) : confined T W (ret a).
Proof. apply confined_same. by intros st c st' [= <- <-]. Qed.

Lemma confined_mret {A} T W (a : A) : confined T W (@mret M M_ret A a).
Proof. apply confined_ret. Qed.

Lemma confined_raise {A} T W e : confined T W (raise (A := A) e).
Proof. apply confined_same. by intros st c st' [= <- <-]. Qed.

Lemma confined_continue {A} T W : confined T W (continue_ (A := A)).
Proof. apply confined_same. by intros st c st' [= <- <-]. Qed.

Lemma confined_lift {A} T W (r : result A) : confined T W (lift r).
Proof. destruct r; [apply confined_ret|apply confined_raise]. Qed.

Lemma confined_emit T W ev : confined T W (emit ev).
Proof. apply confined_same. by intros st c st' [= <- <-]. Qed.

Lemma confined_read_file T W path : confined T W (read_file path).
Proof. apply confined_same. by intros st c st' [= <- <-]. Qed.

Lemma confined_set_narrated_scores T W d : confined T W (set_narrated_scores d).
Proof. apply confined_same. by intros st c st' [= <- <-]. Qed.

Lemma confined_get_narrated_scores T W : confined T W get_narrated_scores.
Proof. apply confined_same. by intros st c st' [= <- <-]. Qed.

Lemma confined_write_file T W path data :
  T path ∨ (W path ∧ ∃ audio, data = WavData audio) →
  confined T W (write_file path data).
Proof.
  intros Hpath st c st' f [= <- <-]. cbn [files].
  destruct (decide (path = f)) as [<-|Hne]; [|left; by apply lookup_insert_ne].
  destruct Hpath as [?|(? & audio & ->)]; [auto|].
  right. right. split; [done|]. exists audio. apply lookup_insert_eq.
Qed.

Lemma confined_os_remove T W path : T path → confined T W (os_remove path).
Proof.
  intros Hpath st c st' f. unfold os_remove.
  destruct (files st !! path); intros [= <- <-]; [|by left]. cbn [files].
  destruct (decide (path = f)) as [<-|Hne]; [auto|]. left. by apply lookup_delete_ne.
Qed.

Lemma confined_try_catch {A} T W catches (body : M A) handler :
  confined T W body → (∀ e, confined T W (handler e)) →
  confined T W (try_catch catches body handler).
Proof.
  intros Hbody Hhandler st c st' f. unfold try_catch.
  destruct (body st) as [[a|e|] st1] eqn:Hrun1; [intros [= <- <-]; by eapply Hbody| |].
  - destruct (catches e); [|intros [= <- <-]; by eapply Hbody].
    intros Hrun2.
    destruct (Hhandler e _ _ _ f Hrun2) as [Heq2|[?|?]]; [|auto..].
    destruct (Hbody _ _ _ f Hrun1) as [Heq1|[?|(? & audio & Haudio)]]; [|auto|].
    + left. congruence.
    + right. right. split; [done|]. exists audio. congruence.
  - intros [= <- <-]. by eapply Hbody.
Qed.

Lemma confined_for_each {A} T W (body : A → M unit) (xs : list A) :
  (∀ x, x ∈ xs → confined T W (body x)) → confined T W (for_each body xs).
Proof.
  induction xs as [|x xs IH]; intros Hbody; [apply confined_ret|].
  assert (confined T W (body x)) as Hx by (apply Hbody; left).
  assert (confined T W (for_each body xs)) as Hxs by (apply IH; intros; apply Hbody; by right).
  intros st c st' f. cbn [for_each].
  destruct (body x st) as [[[]|e|] st1] eqn:Hrun1; [| intros [= <- <-]; by eapply Hx |].
  all: intros Hrun2.
  all: destruct (Hxs _ _ _ f Hrun2) as [Heq2|[?|?]]; [|auto..].
  all: destruct (Hx _ _ _ f Hrun1) as [Heq1|[?|(? & audio & Haudio)]]; [|auto|].
  all: first [ left; congruence | right; right; split; [done|]; exists audio; congruence ].
Qed.

End FrameFacts.

(** Membership in a list given by its elements. *)
Ltac in_list := apply list_elem_of_In; cbn [In]; solve [auto 10].

(** Goals [confined T W m], with [m] built from the operations of the job. *)
Ltac confine_step side :=
  first
    [ match goal with
      | |- confined _ _ (for_each _ _) => apply confined_for_each; intros ? ?
      end
    | apply confined_mbind; [|intros ?]
    | apply confined_bind; [|intros ?]
    | apply confined_mret | apply confined_ret | apply confined_raise
    | apply confined_continue | apply confined_lift | apply confined_emit
    | apply confined_read_file | apply confined_set_narrated_scores
    | apply confined_get_narrated_scores
    | apply confined_try_catch; [|intros ?]
    | apply confined_write_file; side
    | apply confined_os_remove; side
    | progress unfold subprocess_run, audiveris, fluidsynth, write_if_some,
        generate_narration_audio, find_musicxml_file, cv2_imread, classify,
        converter_parse, from_wav, export, os_path_exists, assign_narrated_score,
        print, remove_if_exists, convert_from_path
    | progress cbv zeta
    | match goal with
      | |- confined _ _ (if ?b then _ else _) => destruct b
      | |- confined _ _ (match ?x with _ => _ end) => destruct x
      end ].

Section PageFrame.
Context `{AudioLib}.
Variable SOUNDFONT_PATH : string.
Variable luma : Pixel → Z.

Import NameFacts.

Ltac page_side :=
  first
    [ assumption
    | left; unfold page_scratch, temp_files; rewrite ?base_name_ext; in_list
    | right; split; [eexists; reflexivity|eexists; reflexivity]
    | unfold page_scratch, temp_files; rewrite ?base_name_ext; in_list ].

Lemma convert_page_confined out i p musicxml_file :
  confined (page_scratch i p) (narrated_in out)
    (convert_page SOUNDFONT_PATH out i p (temp_name "page" (temp_id p) i ".png")
       musicxml_file).
Proof. unfold convert_page. repeat confine_step page_side. Qed.

Lemma process_page_confined out i p :
  confined (page_scratch i p) (narrated_in out)
    (process_page SOUNDFONT_PATH luma out i p).
Proof.
  unfold process_page. repeat confine_step page_side.
Qed.

Lemma temp_files_prefix temp_id i f :
  f ∈ temp_files temp_id i → String.prefix "temp_" f = true.
Proof.
  unfold temp_files. rewrite !elem_of_cons, elem_of_nil.
  intros [->|[->|[->|[->|[->|[->|[]]]]]]]; reflexivity.
Qed.

Lemma prefix_rev_onto suffix acc r :
  String.prefix acc r = true →
  String.prefix (PyStr.rev_onto suffix acc) (PyStr.rev_onto suffix r) = true.
Proof.
  revert acc r. induction suffix as [|c suffix IH]; intros acc r Hp; [done|].
  cbn [PyStr.rev_onto]. apply IH. cbn [String.prefix].
  by destruct (ascii_dec c c).
Qed.

Lemma str_endswith_app suffix x : str_endswith suffix (x +:+ suffix) = true.
Proof.
  unfold str_endswith. rewrite PyStrFacts.rev_app. apply prefix_rev_onto.
  by destruct (PyStr.rev x).
Qed.

Lemma narrated_in_suffix out f : narrated_in out f → str_endswith "_narrado.wav" f = true.
Proof.
  intros [t ->]. destruct (join_narrado out t) as [x ->]. apply str_endswith_app.
Qed.

(** The loop and the whole job touch only names that start with [temp_]
    and write audio only to names that end in [_narrado.wav]. *)
Lemma process_pdf_confined pdf pdf_path out :
  confined (λ f, String.prefix "temp_" f = true)
           (λ f, str_endswith "_narrado.wav" f = true)
    (process_pdf SOUNDFONT_PATH luma pdf pdf_path out).
Proof.
  unfold process_pdf.
  repeat first
    [ match goal with
      | |- confined _ _ (for_each _ _) =>
          apply confined_for_each; intros [i p] _;
          eapply confined_weaken; [| |apply process_page_confined]
      end
    | confine_step fail ].
  - intros f. apply temp_files_prefix.
  - intros f. apply narrated_in_suffix.
Qed.

(** A page assigns at most one title, and then its file is there. *)
Lemma process_page_index out i p st c st' :
  process_page SOUNDFONT_PATH luma out i p st = (c, st') →
  narrated_scores st' = narrated_scores st
  ∨ ∃ t audio,
      narrated_scores st' = PyDict.setitem t (t +:+ "_narrado.wav") (narrated_scores st)
      ∧ files st' !! OsPath.join out (t +:+ "_narrado.wav") = Some (WavData audio).
Proof.
  intros Hrun. destruct (is_sheet_music luma (page_image p)) as [[]|e] eqn:Hcls.
  - destruct (process_page_music _ _ _ _ _ _ _ _ Hcls Hrun)
      as [(_ & _ & Hidx)|(score & text & narr & piece & _ & _ & _ & _ & _ & Hfin)];
      [by left|].
    destruct Hfin as (_ & Hidx & _ & Hfile & _). right. eauto.
  - rewrite process_page_non_music in Hrun by done. injection Hrun as <- <-. by left.
  - rewrite (process_page_classify_raise _ _ _ _ _ _ e) in Hrun by done.
    injection Hrun as <- <-. by left.
Qed.

Lemma process_page_served out i p st c st' :
  index_served out st →
  process_page SOUNDFONT_PATH luma out i p st = (c, st') →
  index_served out st'.
Proof.
  intros Hserved Hrun.
  assert (∀ t filename, PyDict.get t (narrated_scores st) = Some filename →
            filename = t +:+ "_narrado.wav"
            ∧ ∃ audio, files st' !! OsPath.join out filename = Some (WavData audio))
    as Hold.
  { intros t filename Hget. destruct (Hserved _ _ Hget) as [-> [audio Haudio]].
    split; [done|].
    destruct (process_page_confined out i p _ _ _
                (OsPath.join out (t +:+ "_narrado.wav")) Hrun)
      as [Heq|[Hin|(_ & audio' & Haudio')]].
    - exists audio. congruence.
    - by apply final_not_temp in Hin.
    - eauto. }
  destruct (process_page_index _ _ _ _ _ _ Hrun) as [Hidx|(t0 & audio & Hidx & Hfile)];
    intros t filename; rewrite Hidx; [by apply Hold|].
  destruct (decide (t0 = t)) as [->|Hne].
  - rewrite PyDictFacts.get_setitem_eq. intros [= <-]. eauto.
  - rewrite PyDictFacts.get_setitem_ne by done. apply Hold.
Qed.

Lemma run_pages_served out i ps st c st' :
  index_served out st →
  run_pages SOUNDFONT_PATH luma out i ps st = (c, st') →
  index_served out st'.
Proof.
  revert i st. induction ps as [|p ps IH]; intros i st Hserved.
  - unfold run_pages. cbn. by intros [= <- <-].
  - rewrite run_pages_cons.
    destruct (process_page SOUNDFONT_PATH luma out i p st) as [c1 st1] eqn:Hrun1.
    pose proof (process_page_served _ _ _ _ _ _ Hserved Hrun1) as Hserved1.
    destruct c1 as [[]|e|]; [by apply IH| |by apply IH].
    by intros [= <- <-].
Qed.

End PageFrame.

Section JobFrame.
Context `{AudioLib}.
Variable SOUNDFONT_PATH : string.
Variable luma : Pixel → Z.

(** Whatever the assignments of the pages keep still holds of the index
    after the loop, however it ends. *)
Lemma run_pages_index (P : PyDict.t string → Prop) out i ps (st : State) c st' :
  (∀ d t, P d → P (PyDict.setitem t (t +:+ "_narrado.wav") d)) →
  P (narrated_scores st) →
  run_pages SOUNDFONT_PATH luma out i ps st = (c, st') →
  P (narrated_scores st').
Proof.
  intros HP. revert i st. induction ps as [|p ps IH]; intros i st Hst.
  - unfold run_pages. cbn. by intros [= <- <-].
  - rewrite run_pages_cons.
    destruct (process_page SOUNDFONT_PATH luma out i p st) as [c1 st1] eqn:Hrun1.
    assert (P (narrated_scores st1)) as Hst1.
    { destruct (process_page_index _ _ _ _ _ _ _ _ Hrun1) as [->|(t & _ & -> & _)]; auto. }
    destruct c1 as [[]|e|]; [by apply IH| |by apply IH].
    by intros [= <- <-].
Qed.

(** What [process_pdf] returns is the index of the final state, the index
    is served, and no title occurs twice in it. *)
Lemma process_pdf_returns pdf pdf_path out (st : State) d st' :
  process_pdf SOUNDFONT_PATH luma pdf pdf_path out st = (Normal d, st') →
  d = narrated_scores st' ∧ index_served out st' ∧ NoDup (PyDict.keys d).
Proof.
  intros Hrun.
  destruct (files st !! SOUNDFONT_PATH) as [data|] eqn:Hsf, pdf as [ps|e].
  - rewrite process_pdf_run in Hrun by (rewrite Hsf; eauto).
    destruct (run_pages SOUNDFONT_PATH luma out 0 ps (job_start st pdf_path))
      as [[[]|e|] st1] eqn:Hpages; [|done..].
    injection Hrun as <- <-. split; [done|]. split.
    + eapply run_pages_served; [|exact Hpages]. by intros t filename.
    + eapply (run_pages_index (λ d, NoDup (PyDict.keys d))); [| |exact Hpages].
      * intros d t. apply PyDictFacts.NoDup_keys_setitem.
      * apply NoDup_nil_2.
  - revert Hrun. unfold process_pdf. exec. rewrite Hsf. cbn [negb]. by exec.
  - revert Hrun. unfold process_pdf. exec. rewrite Hsf. cbn [negb]. by exec.
  - revert Hrun. unfold process_pdf. exec. rewrite Hsf. cbn [negb]. by exec.
Qed.

(** X7 — whatever happens to its pages, [process_pdf] creates, overwrites
    or removes only files whose name starts with [temp_] or ends in
    [_narrado.wav]: every other file (the sound font, the document) is
    afterwards exactly what it was. *)
Theorem process_pdf_footprint pdf pdf_path output_dir (st : State) c st' f :
  process_pdf SOUNDFONT_PATH luma pdf pdf_path output_dir st = (c, st') →
  String.prefix "temp_" f = false →
  str_endswith "_narrado.wav" f = false →
  files st' !! f = files st !! f.
Proof.
  intros Hrun Htemp Hnarrated.
  destruct (process_pdf_confined SOUNDFONT_PATH luma pdf pdf_path output_dir
              _ _ _ f Hrun) as [Heq|[Hf|[Hf _]]]; [done|congruence..].
Qed.

(** X8 — when [process_pdf] returns, every title of the index maps to
    its title followed by [_narrado.wav], and a file of that name, holding
    audio, exists in the output directory: no entry dangles, also when
    later pages failed or reused the title. *)
Theorem indexed_files_exist pdf pdf_path output_dir (st : State) d st' :
  process_pdf SOUNDFONT_PATH luma pdf pdf_path output_dir st = (Normal d, st') →
  ∀ t filename, PyDict.get t d = Some filename →
    filename = t +:+ "_narrado.wav"
    ∧ ∃ audio, files st' !! OsPath.join output_dir filename = Some (WavData audio).
Proof.
  intros Hrun. destruct (process_pdf_returns _ _ _ _ _ _ Hrun) as (-> & Hserved & _).
  exact Hserved.
Qed.

End JobFrame.

Section CleanupFacts.
Context `{AudioLib}.
Variable SOUNDFONT_PATH : string.
Variable luma : Pixel → Z.

Lemma bind_normal {A B} (m : M A) (k : A → M B) st b st' :
  bind m k st = (Normal b, st') →
  ∃ a st1, m st = (Normal a, st1) ∧ k a st1 = (Normal b, st').
Proof. unfold bind. destruct (m st) as [[a|e|] st1]; [eauto|done..]. Qed.

(** X9 — an iteration of the page loop that runs to its end (it does not
    leave through one of the [continue] statements) has removed all six
    temporary files of its page, whether the page was converted, was not
    sheet music, or failed inside the [try] block. *)
Theorem completed_page_leaves_no_temp_file output_dir i p (st : State) st' :
  process_page SOUNDFONT_PATH luma output_dir i p st = (Normal tt, st') →
  ∀ f, f ∈ temp_files (temp_id p) i → files st' !! f = None.
Proof.
  intros Hrun f Hf. unfold process_page in Hrun.
  apply bind_normal in Hrun as (_ & st1 & _ & Hrun).
  apply bind_normal in Hrun as (img & st2 & _ & Hrun).
  apply bind_normal in Hrun as (sheet & st3 & _ & Hrun).
  apply bind_normal in Hrun as (_ & st4 & _ & Hrun).
  rewrite cleanup_run in Hrun. apply pair_equal_spec in Hrun as [_ <-]. cbn [files].
  rewrite lookup_remove_all. by rewrite decide_True.
Qed.

(** X11 — a page dropped because Audiveris left no MusicXML file leaves
    nothing behind: when the iteration is left, the files are what they
    were before the page, without its image. *)
Theorem page_without_output_leaves_nothing output_dir i p (st : State) :
  is_sheet_music luma (page_image p) = Ok true →
  omr_exit_ok p = true →
  recognized_file st i p = None →
  ∃ st',
    process_page SOUNDFONT_PATH luma output_dir i p st = (Continue, st')
    ∧ files st' = delete (temp_name "page" (temp_id p) i ".png") (files st).
Proof.
  intros Hcls Hexit Hnone. rewrite process_page_no_output by done.
  eexists. split; [reflexivity|]. cbn [files].
  unfold recognized_file, files_after_omr in *.
  destruct (omr_xml p) as [xml|], (omr_mxl p) as [mxl|];
    repeat first
      [ rewrite lookup_insert_eq in Hnone
      | rewrite lookup_insert_ne in Hnone
          by (apply NameFacts.temp_name_ext_ne; by intros [=]) ];
    repeat case_match; try done.
  apply delete_insert_eq.
Qed.

(** X12 — when Audiveris exits with an error after having written a
    MusicXML file, the page is dropped by [continue] and that file stays
    behind: the handler removes the image only. *)
Theorem failed_omr_keeps_its_output output_dir i p (st : State) r :
  is_sheet_music luma (page_image p) = Ok true →
  omr_exit_ok p = false →
  omr_xml p = Some r →
  ∃ st',
    process_page SOUNDFONT_PATH luma output_dir i p st = (Continue, st')
    ∧ files st' !! temp_name "page" (temp_id p) i ".xml" = Some (ScoreData r)
    ∧ narrated_scores st' = narrated_scores st.
Proof.
  intros Hcls Hexit Hxml. rewrite process_page_omr_error by done.
  eexists. split; [reflexivity|]. cbn [files narrated_scores]. split; [|done].
  rewrite lookup_delete_ne by (apply NameFacts.temp_name_ext_ne; by intros [=]).
  unfold files_after_omr. rewrite Hxml.
  destruct (omr_mxl p) as [mxl|];
    rewrite ?(lookup_insert_ne _ (temp_name "page" (temp_id p) i ".mxl"))
      by (apply NameFacts.temp_name_ext_ne; by intros [=]);
    apply lookup_insert_eq.
Qed.

End CleanupFacts.

(** ** Pages that are dropped *)

Section ContinueFacts.
Context `{AudioLib}.
Variable SOUNDFONT_PATH : string.
Variable luma : Pixel → Z.

Implicit Types (Q : State → Prop).

Lemma dropped_never {A} Q (m : M A) :
  (∀ st c st', m st = (c, st') → c ≠ Continue) → dropped_with Q m.
Proof. intros Hm st st' Hrun. by destruct (Hm _ _ _ Hrun). Qed.

Lemma dropped_bind {A B} Q (m : M A) (k : A → M B) :
  dropped_with Q m → (∀ a, dropped_with Q (k a)) → dropped_with Q (bind m k).
Proof.
  intros Hm Hk st st'. unfold bind.
  destruct (m st) as [[a|e|] st1] eqn:Hrun1; [apply Hk|done|].
  intros [= <-]. by eapply Hm.
Qed.

Lemma dropped_mbind {A B} Q (m : M A) (k : A → M B) :
  dropped_with Q m → (∀ a, dropped_with Q (k a)) →
  dropped_with Q (@mbind M M_bind A B k m).
Proof. apply dropped_bind. Qed.

Lemma dropped_try_catch {A} Q catches (body : M A) handler :
  dropped_with Q body → (∀ e, dropped_with Q (handler e)) →
  dropped_with Q (try_catch catches body handler).
Proof.
  intros Hbody Hhandler st st'. unfold try_catch.
  destruct (body st) as [[a|e|] st1] eqn:Hrun1; [done| |].
  - destruct (catches e); [apply Hhandler|done].
  - intros [= <-]. by eapply Hbody.
Qed.

Lemma dropped_ret {A} Q (a : A) : dropped_with Q (ret a).
Proof. by intros st st'. Qed.

Lemma dropped_mret {A} Q (a : A) : dropped_with Q (@mret M M_ret A a).
Proof. by intros st st'. Qed.

Lemma dropped_raise {A} Q e : dropped_with Q (raise (A := A) e).
Proof. by intros st st'. Qed.

Lemma dropped_lift {A} Q (r : result A) : dropped_with Q (lift r).
Proof. by destruct r; intros st st'. Qed.

Lemma dropped_emit Q ev : dropped_with Q (emit ev).
Proof. by intros st st'. Qed.

Lemma dropped_read_file Q path : dropped_with Q (read_file path).
Proof. by intros st st'. Qed.

Lemma dropped_write_file Q path data : dropped_with Q (write_file path data).
Proof. by intros st st'. Qed.

Lemma dropped_os_remove Q path : dropped_with Q (os_remove path).
Proof. intros st st'. unfold os_remove. by destruct (files st !! path). Qed.

Lemma dropped_set_narrated_scores Q d : dropped_with Q (set_narrated_scores d).
Proof. by intros st st'. Qed.

Lemma dropped_get_narrated_scores Q : dropped_with Q get_narrated_scores.
Proof. by intros st st'. Qed.

Lemma dropped_for_each {A} Q (body : A → M unit) xs : dropped_with Q (for_each body xs).
Proof.
  apply dropped_never. induction xs as [|x xs IH]; intros st c st'; cbn [for_each].
  - by intros [= <- <-].
  - destruct (body x st) as [[[]|e|] st1]; [apply IH| |apply IH]. by intros [= <- <-].
Qed.

(** [os.remove(path); continue] *)
Lemma dropped_remove_continue {A} path :
  dropped_with (λ st, files st !! path = None)
    (@mbind M M_bind unit A (λ _, continue_) (os_remove path)).
Proof.
  intros st st'. unfold mbind, M_bind, bind, os_remove, continue_.
  destruct (files st !! path); [|done]. intros [= <-]. apply lookup_delete_eq.
Qed.

End ContinueFacts.

(** Goals [dropped_with Q m]. *)
Ltac drop_step :=
  first
    [ apply dropped_remove_continue
    | apply dropped_for_each
    | apply dropped_mbind; [|intros ?]
    | apply dropped_bind; [|intros ?]
    | apply dropped_mret | apply dropped_ret | apply dropped_raise
    | apply dropped_lift | apply dropped_emit
    | apply dropped_read_file | apply dropped_write_file | apply dropped_os_remove
    | apply dropped_set_narrated_scores | apply dropped_get_narrated_scores
    | apply dropped_try_catch; [|intros ?]
    | progress unfold subprocess_run, audiveris, fluidsynth, write_if_some,
        generate_narration_audio, find_musicxml_file, cv2_imread, classify,
        converter_parse, from_wav, export, os_path_exists, assign_narrated_score,
        print, remove_if_exists, convert_from_path
    | progress cbv zeta
    | match goal with
      | |- dropped_with _ (if ?b then _ else _) => destruct b
      | |- dropped_with _ (match ?x with _ => _ end) => destruct x
      end ].

Section DroppedPages.
Context `{AudioLib}.
Variable SOUNDFONT_PATH : string.
Variable luma : Pixel → Z.

(** X13 — a page that is dropped by one of the three [continue]
    statements (Audiveris failed, no MusicXML file, FluidSynth failed)
    has had its image removed: the clean-up loop is skipped, but the
    image never stays behind. *)
Theorem dropped_page_image_is_removed output_dir i p (st : State) st' :
  process_page SOUNDFONT_PATH luma output_dir i p st = (Continue, st') →
  files st' !! temp_name "page" (temp_id p) i ".png" = None.
Proof.
  revert st st'.
  change (dropped_with (λ st, files st !! temp_name "page" (temp_id p) i ".png" = None)
            (process_page SOUNDFONT_PATH luma output_dir i p)).
  unfold process_page, convert_page. repeat drop_step.
Qed.

End DroppedPages.

(** ** The endpoints *)

Section EndpointFacts.
Context `{AudioLib}.
Variable BASE_URL : string.
Variable SOUNDFONT_PATH : string.
Variable luma : Pixel → Z.

Import NameFacts.

Lemma for_each_never_continue {A} (body : A → M unit) xs (st : State) c st' :
  for_each body xs st = (c, st') → c ≠ Continue.
Proof.
  revert st. induction xs as [|x xs IH]; intros st; cbn [for_each].
  - by intros [= <- <-].
  - destruct (body x st) as [[[]|e|] st1]; [apply IH| |apply IH].
    by intros [= <- <-].
Qed.

Lemma process_pdf_never_continue pdf pdf_path out (st : State) c st' :
  process_pdf SOUNDFONT_PATH luma pdf pdf_path out st = (c, st') → c ≠ Continue.
Proof.
  unfold process_pdf. exec.
  destruct (files st !! SOUNDFONT_PATH); cbn [negb]; exec; [|by intros [= <- <-]].
  destruct pdf as [ps|e]; exec; [|by intros [= <- <-]].
  match goal with
  | |- context [for_each ?body ?xs ?s] =>
      pose proof (for_each_never_continue body xs s) as Hloop;
      destruct (for_each body xs s) as [[[]|e|] st1]
  end; exec; try (by intros [= <- <-]).
  by destruct (Hloop _ _ eq_refl).
Qed.

Lemma process_file_run file hex (st : State) c st2 :
  content_type file = Some "application/pdf" →
  copy_ok file = true →
  process_pdf SOUNDFONT_PATH luma (document file) (temp_pdf_name hex) OUTPUT_DIR
    (upload_saved hex st) = (c, st2) →
  process_file BASE_URL SOUNDFONT_PATH luma file hex st
  = (match c with
     | Normal d => Normal (JSONResponse (response_data BASE_URL d))
     | Raised e => Normal (HTTPException 500 (DetailProcessing e))
     | Continue => Continue
     end, upload_removed hex st2).
Proof.
  intros Htype Hcopy Hpdf. unfold process_file, try_finally.
  rewrite Htype, bool_decide_eq_true_2 by done. cbn [negb].
  unfold try_catch at 1. cbv zeta. exec. rewrite Hcopy. exec.
  unfold upload_saved in Hpdf. rewrite Hpdf.
  destruct c as [d|e|]; exec; by rewrite remove_if_exists_run.
Qed.

Lemma process_file_copy_failed file hex (st : State) :
  content_type file = Some "application/pdf" →
  copy_ok file = false →
  process_file BASE_URL SOUNDFONT_PATH luma file hex st
  = (Normal (HTTPException 500 (DetailProcessing (LibraryError "shutil.copyfileobj"))),
     upload_removed hex (upload_saved hex st)).
Proof.
  intros Htype Hcopy. unfold process_file, try_finally.
  rewrite Htype, bool_decide_eq_true_2 by done. cbn [negb].
  unfold try_catch at 1. cbv zeta. exec. rewrite Hcopy. exec.
  by rewrite remove_if_exists_run.
Qed.

Lemma process_file_rejected file hex (st : State) :
  content_type file ≠ Some "application/pdf" →
  process_file BASE_URL SOUNDFONT_PATH luma file hex st
  = (Normal (HTTPException 400 DetailNotPdf), st).
Proof.
  intros Htype. unfold process_file. by rewrite bool_decide_eq_false_2.
Qed.

(** X14 — [process_file] lets no exception escape: it answers with the
    JSON listing or raises [HTTPException] 400 (the upload is not a PDF:
    nothing has been touched) or 500; and whenever the upload was
    accepted, its temporary copy is gone when the endpoint is left,
    whether the conversion succeeded or not. *)
Theorem process_file_always_replies file hex (st : State) :
  ∃ reply st',
    process_file BASE_URL SOUNDFONT_PATH luma file hex st = (Normal reply, st')
    ∧ (content_type file ≠ Some "application/pdf" →
       reply = HTTPException 400 DetailNotPdf ∧ st' = st)
    ∧ (content_type file = Some "application/pdf" →
       files st' !! temp_pdf_name hex = None
       ∧ ((∃ d, reply = JSONResponse (response_data BASE_URL d))
          ∨ ∃ e, reply = HTTPException 500 (DetailProcessing e))).
Proof.
  destruct (decide (content_type file = Some "application/pdf")) as [Htype|Htype].
  - destruct (copy_ok file) eqn:Hcopy.
    + destruct (process_pdf SOUNDFONT_PATH luma (document file) (temp_pdf_name hex)
                  OUTPUT_DIR (upload_saved hex st)) as [c st2] eqn:Hpdf.
      pose proof (process_pdf_never_continue _ _ _ _ _ _ Hpdf) as Hc.
      rewrite (process_file_run _ _ _ _ _ Htype Hcopy Hpdf).
      destruct c as [d|e|]; [| |done].
      all: eexists _, _; split; [reflexivity|]; split; [done|]; intros _.
      all: split; [apply lookup_delete_eq|eauto].
    + rewrite process_file_copy_failed by done.
      eexists _, _. split; [reflexivity|]. split; [done|]. intros _.
      split; [apply lookup_delete_eq|eauto].
  - rewrite process_file_rejected by done.
    eexists _, _. split; [reflexivity|]. split; [done|]. done.
Qed.

(** X15 — without the sound font an accepted upload is answered with
    status 500 carrying the exception of [process_pdf]; nothing is
    rasterized or run, and the temporary copy is removed.  The sound font
    path must not be the name drawn for the copy. *)
Theorem missing_soundfont_is_a_500 file hex (st : State) :
  content_type file = Some "application/pdf" →
  copy_ok file = true →
  SOUNDFONT_PATH ≠ temp_pdf_name hex →
  files st !! SOUNDFONT_PATH = None →
  process_file BASE_URL SOUNDFONT_PATH luma file hex st
  = (Normal (HTTPException 500 (DetailProcessing
       (Exception ("SoundFont não encontrado em " +:+ SOUNDFONT_PATH +:+ ".")))),
     {| files := delete (temp_pdf_name hex) (files st);
        trace := trace st; narrated_scores := narrated_scores st |}).
Proof.
  intros Htype Hcopy Hne Hsf.
  rewrite (process_file_run file hex st
             (Raised (Exception ("SoundFont não encontrado em " +:+ SOUNDFONT_PATH +:+ ".")))
             (upload_saved hex st)); [|done..|].
  - unfold upload_removed, upload_saved. cbn [files trace narrated_scores].
    by rewrite delete_insert_eq.
  - unfold process_pdf, upload_saved. exec. rewrite lookup_insert_ne by done.
    rewrite Hsf. by exec.
Qed.

Lemma narrated_not_temp_pdf out t hex :
  OsPath.join out (t +:+ "_narrado.wav") ≠ temp_pdf_name hex.
Proof.
  destruct (join_narrado out t) as [x ->]. unfold temp_pdf_name. intros Heq.
  apply (f_equal PyStr.rev) in Heq. rewrite <-PyStrFacts.app_assoc in Heq.
  rewrite !PyStrFacts.rev_app in Heq. cbn in Heq. congruence.
Qed.

Lemma elem_of_get {V} k (v : V) (d : PyDict.t V) :
  NoDup (PyDict.keys d) → (k, v) ∈ d → PyDict.get k d = Some v.
Proof.
  unfold PyDict.keys. induction d as [|[k' v'] d IH]; [by intros _ ?%elem_of_nil|].
  cbn [map fst PyDict.get]. rewrite NoDup_cons, elem_of_cons. intros [Hk' Hnd] [[= <- <-]|Hin].
  - by rewrite String.eqb_refl.
  - destruct (String.eqb_spec k' k) as [->|Hne]; [|by apply IH].
    destruct Hk'. change (map fst d) with (fst <$> d).
    apply list_elem_of_fmap. by exists (k, v).
Qed.

(** X16 — every link of a listing returned by [process_file] can be
    followed: the URL is [BASE_URL/audiobooks/<title>_narrado.wav], and
    [get_audiobook] on that file name, in the state the request leaves
    behind, answers with the file of the output directory. *)
Theorem process_file_links_are_served file hex (st : State) items st' :
  process_file BASE_URL SOUNDFONT_PATH luma file hex st = (Normal (JSONResponse items), st') →
  ∀ item, item ∈ items →
    let filename := item_title item +:+ "_narrado.wav" in
    download_url item = BASE_URL +:+ "/audiobooks/" +:+ filename
    ∧ get_audiobook filename st'
      = (Normal (FileResponse (OsPath.join OUTPUT_DIR filename) "audio/wav" filename), st').
Proof.
  intros Hrun item Hitem filename. subst filename.
  destruct (decide (content_type file = Some "application/pdf")) as [Htype|Htype];
    [|by rewrite process_file_rejected in Hrun by done].
  destruct (copy_ok file) eqn:Hcopy;
    [|by rewrite process_file_copy_failed in Hrun by done].
  destruct (process_pdf SOUNDFONT_PATH luma (document file) (temp_pdf_name hex)
              OUTPUT_DIR (upload_saved hex st)) as [c st2] eqn:Hpdf.
  rewrite (process_file_run _ _ _ _ _ Htype Hcopy Hpdf) in Hrun.
  destruct c as [d|e|]; [|done..]. injection Hrun as <- <-.
  destruct (process_pdf_returns _ _ _ _ _ _ _ _ Hpdf) as (-> & Hserved & Hnd).
  unfold response_data in Hitem. change (map ?f ?l) with (f <$> l) in Hitem.
  apply list_elem_of_fmap in Hitem as ([t fn] & -> & Hin). cbn [item_title download_url fst snd].
  destruct (Hserved t fn (elem_of_get _ _ _ Hnd Hin)) as [-> [audio Haudio]].
  split; [done|]. unfold get_audiobook, upload_removed. exec.
  rewrite lookup_delete_ne by (apply not_eq_sym, narrated_not_temp_pdf).
  by rewrite Haudio.
Qed.

End EndpointFacts.

(** ** The listing of the output directory *)

Module ListingFacts.
Import PyStr PyStrFacts.

Lemma rev_onto_acc (a acc : string) : rev_onto a acc = rev a +:+ acc.
Proof.
  revert acc. induction a as [|x a IH]; intros acc; [done|].
  unfold rev. cbn [rev_onto]. rewrite !IH.
  by rewrite app_assoc, app_cons, app_nil_l.
Qed.

Lemma prefix_spec (a b : string) : String.prefix a b = true ↔ ∃ r, b = a +:+ r.
Proof.
  revert b. induction a as [|x a IH]; intros b.
  - split; [intros _; by exists b|]. intros _. by destruct b.
  - destruct b as [|y b]; cbn [String.prefix].
    + split; [done|]. intros [r Hr]. by rewrite app_cons in Hr.
    + destruct (ascii_dec x y) as [->|Hne].
      * rewrite IH. split; intros [r Hr]; exists r.
        -- by rewrite app_cons, Hr.
        -- rewrite app_cons in Hr. by injection Hr.
      * split; [done|]. intros [r Hr]. rewrite app_cons in Hr. by injection Hr.
Qed.

(** [f.endswith(suffix)] holds exactly of the strings [s + suffix]. *)
Lemma str_endswith_spec (suffix f : string) :
  str_endswith suffix f = true ↔ ∃ s, f = s +:+ suffix.
Proof.
  split.
  - unfold str_endswith. intros [r Hr]%prefix_spec. exists (rev r).
    rewrite <-(rev_involutive f), Hr, rev_app, rev_onto_acc.
    by rewrite rev_involutive.
  - intros [s ->]. unfold str_endswith. rewrite rev_app. apply prefix_spec.
    exists (rev s). apply rev_onto_acc.
Qed.

(** [os.path.splitext] of a name that ends in [.wav]. *)
Lemma splitext_wav (s : string) :
  OsPath.splitext (s +:+ ".wav")
  = if OsPath.has_non_dot (rev s) then (s, ".wav") else (s +:+ ".wav", EmptyString).
Proof.
  unfold OsPath.splitext. rewrite rev_app. cbn.
  destruct (OsPath.has_non_dot (rev s)); [|done]. by rewrite rev_involutive.
Qed.

Lemma has_non_dot_narrado (t : string) : OsPath.has_non_dot (rev (t +:+ "_narrado")) = true.
Proof. by rewrite rev_app. Qed.

Lemma filter_wav_app (l1 l2 : list string) :
  List.filter (str_endswith ".wav") (l1 ++ l2)
  = List.filter (str_endswith ".wav") l1 ++ List.filter (str_endswith ".wav") l2.
Proof. apply List.filter_app. Qed.

(** X17 — [list_audiobooks] lists exactly the directory entries whose
    name ends in [.wav], each with the link to its name; the title is the
    name without [.wav], except that a name whose stem consists of dots
    only (such as [.wav]) keeps its full name as title. *)
Theorem list_audiobooks_entries (listing : list string) :
  ∃ items, list_audiobooks listing = JSONResponse items
    ∧ ∀ item, item ∈ items ↔
        ∃ s, s +:+ ".wav" ∈ listing
          ∧ item_title item
            = (if OsPath.has_non_dot (rev s) then s else s +:+ ".wav")
          ∧ download_url item = "/audiobooks/" +:+ s +:+ ".wav".
Proof.
  eexists. split; [reflexivity|]. intros item.
  change (map ?f ?l) with (f <$> l). rewrite list_elem_of_fmap. split.
  - intros (f & -> & Hf). apply list_elem_of_In, List.filter_In in Hf as [Hin Hwav].
    apply str_endswith_spec in Hwav as [s ->]. exists s.
    split; [by apply list_elem_of_In|]. cbn [item_title download_url].
    rewrite splitext_wav. split; [|done]. by destruct (OsPath.has_non_dot (rev s)).
  - intros (s & Hin & Htitle & Hurl). exists (s +:+ ".wav"). split.
    + destruct item as [title url]. cbn [item_title download_url] in *. subst.
      rewrite splitext_wav. by destruct (OsPath.has_non_dot (rev s)).
    + apply list_elem_of_In, List.filter_In. split; [by apply list_elem_of_In|].
      apply str_endswith_spec. eauto.
Qed.

(** X18 — for a directory that holds the artifacts of the titles [ts],
    [list_audiobooks] reports each of them under its file stem: the
    title of the index followed by [_narrado]. *)
Theorem listing_of_narrated_files (ts : list string) :
  list_audiobooks (map (λ t, t +:+ "_narrado.wav") ts)
  = JSONResponse
      (map (λ t, {| item_title := t +:+ "_narrado";
                    download_url := "/audiobooks/" +:+ t +:+ "_narrado.wav" |}) ts).
Proof.
  unfold list_audiobooks. f_equal. induction ts as [|t ts IH]; [done|].
  cbn [map List.filter].
  assert (t +:+ "_narrado.wav" = (t +:+ "_narrado") +:+ ".wav") as Hname
    by by rewrite app_assoc.
  rewrite (proj2 (str_endswith_spec ".wav" (t +:+ "_narrado.wav"))) by eauto.
  cbn [map]. rewrite IH. f_equal. rewrite Hname at 1.
  by rewrite splitext_wav, has_non_dot_narrado.
Qed.

End ListingFacts.

(** ** Narration and titles *)

Section NarrationFacts.

(** X19 — the tempo clause is taken from the first metronome mark alone:
    the marks after it never change the narration, and a first mark
    whose number is [None] or zero is narrated like a score without any
    mark, even when a later mark carries a tempo. *)
Theorem tempo_comes_from_first_mark (score : Score) (title : string) m rest :
  metronome_marks score = Ok (m :: rest) →
  generate_narration_text score title
  = generate_narration_text (with_marks score [m]) title
  ∧ (silent_mark m = true →
     generate_narration_text score title
     = generate_narration_text (with_marks score []) title).
Proof.
  intros Hmarks. unfold generate_narration_text, with_marks, silent_mark.
  cbn [metadata analyze_key time_signatures metronome_marks]. rewrite Hmarks.
  unfold try_except, mbind, result_bind.
  destruct (analyze_key score), (time_signatures score) as [[|??]|];
    cbn [first_number]; (split; [done|]); destruct m as [n|]; try done.
  all: by destruct (number_truthy n).
Qed.

Lemma replace_space (s : string) : str_contains " " (PyStr.replace " " "_" s) = false.
Proof.
  induction s as [|c s IH]; [done|]. cbn [PyStr.replace].
  destruct (Ascii.eqb_spec c " ") as [->|Hne].
  - by rewrite PyStrFacts.app_cons, PyStrFacts.app_nil_l.
  - cbn [str_contains]. rewrite IH. by destruct (Ascii.eqb_spec c " ").
Qed.

(** X20 — a title taken from the metadata holds no space character:
    whatever the score says, every space left after stripping has become
    an underscore. *)
Theorem metadata_title_has_no_space (score : Score) md t temp_id i :
  metadata score = Some md → title md = Some t → PyStr.truthy t = true →
  str_contains " " (resolve_title score temp_id i) = false.
Proof.
  intros Hmd Ht Htruthy. unfold resolve_title. rewrite Hmd, Ht, Htruthy.
  apply replace_space.
Qed.

End NarrationFacts.

Section TitleFacts.
Context `{AudioLib}.
Variable SOUNDFONT_PATH : string.
Variable luma : Pixel → Z.

(** X21 — a title that starts with [/] takes the artifact out of the
    output directory: [os.path.join] drops [output_dir], and the page
    writes its audio under the absolute name [<title>_narrado.wav]. *)
Theorem absolute_title_leaves_output_dir output_dir i p (st : State) c st' t :
  process_page SOUNDFONT_PATH luma output_dir i p st = (c, st') →
  page_finalized st st' →
  page_title st i p = Some t →
  PyStr.startswith "/" t = true →
  OsPath.join output_dir (t +:+ "_narrado.wav") = t +:+ "_narrado.wav"
  ∧ ∃ audio, files st' !! (t +:+ "_narrado.wav") = Some (WavData audio).
Proof.
  intros Hrun Hfin Ht Hroot.
  destruct (process_page_finalized _ _ _ _ _ _ _ _ Hrun Hfin)
    as (score & text & narr & piece & _ & Hscore & _ & _ & _ & _ & _ & _ & Hfile & _).
  unfold page_title in Ht. rewrite Hscore in Ht. injection Ht as Ht.
  rewrite Ht in Hfile.
  assert (OsPath.join output_dir (t +:+ "_narrado.wav") = t +:+ "_narrado.wav") as Hjoin.
  { unfold OsPath.join. destruct t as [|x t']; [done|].
    rewrite PyStrFacts.app_cons. cbn [PyStr.startswith] in *. by rewrite Hroot. }
  split; [done|]. rewrite <-Hjoin. eauto.
Qed.

Lemma length_setitem_le {V} k (v : V) (d : PyDict.t V) :
  length (PyDict.setitem k v d) ≤ S (length d).
Proof.
  induction d as [|[k' v'] d IH]; cbn [PyDict.setitem length]; [lia|].
  destruct (String.eqb k' k); cbn [length]; lia.
Qed.

Lemma run_pages_index_size out i ps (st : State) c st' :
  run_pages SOUNDFONT_PATH luma out i ps st = (c, st') →
  length (narrated_scores st') ≤ length (narrated_scores st) + length ps.
Proof.
  revert i st. induction ps as [|p ps IH]; intros i st.
  - unfold run_pages. cbn. intros [= <- <-]. lia.
  - rewrite run_pages_cons.
    destruct (process_page SOUNDFONT_PATH luma out i p st) as [c1 st1] eqn:Hrun1.
    assert (length (narrated_scores st1) ≤ S (length (narrated_scores st))) as Hst1.
    { destruct (process_page_index _ _ _ _ _ _ _ _ Hrun1) as [->|(t & _ & -> & _)];
        [lia|apply length_setitem_le]. }
    cbn [length].
    destruct c1 as [[]|e|]; [intros ?%IH; lia| |intros ?%IH; lia].
    intros [= <- <-]. lia.
Qed.

(** X22 — the index [process_pdf] returns has at most one entry per page
    of the document. *)
Theorem index_has_at_most_one_entry_per_page ps pdf_path output_dir (st : State) d st' :
  process_pdf SOUNDFONT_PATH luma (Ok ps) pdf_path output_dir st = (Normal d, st') →
  length d ≤ length ps.
Proof.
  intros Hrun.
  destruct (files st !! SOUNDFONT_PATH) as [data|] eqn:Hsf.
  - rewrite process_pdf_run in Hrun by (rewrite Hsf; eauto).
    destruct (run_pages SOUNDFONT_PATH luma output_dir 0 ps (job_start st pdf_path))
      as [[[]|e|] st1] eqn:Hpages; [|done..].
    injection Hrun as <- <-. by apply run_pages_index_size in Hpages.
  - revert Hrun. unfold process_pdf. exec. rewrite Hsf. cbn [negb]. by exec.
Qed.

End TitleFacts.

(** ** Pages on which every stage succeeds *)

Section SuccessFacts.
Context `{AudioLib}.
Variable SOUNDFONT_PATH : string.
Variable luma : Pixel → Z.

Import NameFacts.

Ltac temp_ne :=
  first
    [ apply temp_name_ext_ne; by intros [=]
    | apply temp_name_page_piece
    | apply temp_name_page_narration
    | apply temp_name_piece_narration
    | apply not_eq_sym; apply temp_name_page_piece
    | apply not_eq_sym; apply temp_name_page_narration
    | apply not_eq_sym; apply temp_name_piece_narration ].

Ltac lookups :=
  repeat first [ rewrite lookup_insert_eq | rewrite lookup_insert_ne by temp_ne ].

(** X23 — a page that is classified as sheet music, for which Audiveris
    exits normally and writes an [.xml] file that parses, the MIDI file
    is translated and written, FluidSynth exits normally and writes the
    piece, the narration is synthesized and the export succeeds, is
    finalized: the iteration ends normally, the title is assigned its
    file name, the artifact holds the narration, the pause and the piece,
    and the last line printed reports the saved file. *)
Theorem successful_page_is_finalized output_dir i p (st : State) score piece text narr :
  is_sheet_music luma (page_image p) = Ok true →
  omr_exit_ok p = true →
  omr_xml p = Some (Ok score) →
  midi_translate_ok p = true →
  midi_write_ok p = true →
  synth_exit_ok p = true →
  synth_wav p = Some piece →
  generate_narration_text score (resolve_title score (temp_id p) i) = Ok text →
  tts p text = Ok narr →
  export_ok p = true →
  let title := resolve_title score (temp_id p) i in
  let final := OsPath.join output_dir (title +:+ "_narrado.wav") in
  ∃ st',
    process_page SOUNDFONT_PATH luma output_dir i p st = (Normal tt, st')
    ∧ narrated_scores st'
      = PyDict.setitem title (title +:+ "_narrado.wav") (narrated_scores st)
    ∧ files st' !! final
      = Some (WavData (audio_add (audio_add narr (audio_silent 1000)) piece))
    ∧ last (trace st') = Some (Print (MsgSaved final)).
Proof.
  intros Hcls Homr Hxml Hmt Hmw Hsynth Hwav Htext Htts Hexport title final.
  subst title final.
  unfold process_page. exec. rewrite lookup_insert_eq. exec. rewrite Hcls. exec.
  rewrite !base_name_ext, Homr, Hxml. exec.
  destruct (omr_mxl p) as [mxl|]; exec; lookups; exec.
  all: unfold convert_page; exec; lookups; exec.
  all: rewrite Hmt, Hmw, Hsynth, Hwav; exec.
  all: rewrite Htext; exec; rewrite Htts; exec; repeat (progress (lookups; exec)).
  all: rewrite Hexport; exec; rewrite cleanup_run.
  all: eexists; split; [reflexivity|]; cbn [files trace narrated_scores].
  all: split; [reflexivity|]; split; [|by rewrite last_snoc].
  all: rewrite lookup_remove_all, decide_False by apply final_not_temp.
  all: apply lookup_insert_eq.
Qed.

End SuccessFacts.

(** * The properties on the sample documents *)

Section SampleChecks.

Import Samples MoreSamples.

#[local] Existing Instance SampleAudio.lib.

Abbreviation run_page := (process_page soundfont Cv2.bgr2gray "output_audio").
Abbreviation run_pdf pages :=
  (process_pdf soundfont Cv2.bgr2gray (Ok pages) "partitura.pdf" "output_audio").
Abbreviation run_upload :=
  (process_file base_url soundfont Cv2.bgr2gray upload "c0ffee").

(** A run is determined by its outcome and the state it leaves. *)
Lemma outcome_eq {A B} (r : A * B) (a : A) : r.1 = a → r = (a, r.2).
Proof. destruct r as [a' b]. cbn. by intros ->. Qed.

Lemma threshold_test_is_exact_witness :
  ∃ gray, Cv2.cvtColor Cv2.bgr2gray staff_image = Ok gray
    ∧ is_sheet_music Cv2.bgr2gray staff_image
      = Ok (total_pixels staff_image <? 100 * Cv2.countNonZero (detected_lines gray))%Z.
Proof.
  apply (threshold_test_is_exact Cv2.bgr2gray staff_image).
  - vm_compute. lia.
  - vm_compute. lia.
  - vm_compute. reflexivity.
Defined.


Lemma sparse_page_is_not_music_witness :
  is_sheet_music Cv2.bgr2gray blank_image = Ok false.
Proof.
  eapply (sparse_page_is_not_music Cv2.bgr2gray blank_image).
  - reflexivity.
  - vm_compute. reflexivity.
  - vm_compute. discriminate.
Defined.

Lemma dark_page_is_music_witness :
  is_sheet_music Cv2.bgr2gray staff_image = Ok true.
Proof.
  apply (dark_page_is_music Cv2.bgr2gray staff_image).
  - vm_compute. lia.
  - vm_compute. lia.
  - vm_compute. reflexivity.
  - intros y x _ _. vm_compute. discriminate.
Defined.

Lemma process_pdf_footprint_witness :
  files (run_pdf [synth_fail_page; good_page ode] st0).2 !! "soundfont.sf2"
  = files st0 !! "soundfont.sf2".
Proof.
  apply (process_pdf_footprint soundfont Cv2.bgr2gray
           (Ok [synth_fail_page; good_page ode]) "partitura.pdf" "output_audio" st0
           (run_pdf [synth_fail_page; good_page ode] st0).1).
  - apply surjective_pairing.
  - vm_compute. reflexivity.
  - vm_compute. reflexivity.
Defined.

Lemma indexed_files_exist_witness :
  "Ode_narrado.wav" = "Ode" +:+ "_narrado.wav"
  ∧ ∃ audio,
      files (run_pdf [good_page ode; synth_fail_page] st0).2
        !! OsPath.join "output_audio" "Ode_narrado.wav"
      = Some (WavData audio).
Proof.
  refine (indexed_files_exist soundfont Cv2.bgr2gray
            (Ok [good_page ode; synth_fail_page]) "partitura.pdf" "output_audio" st0
            [("Ode", "Ode_narrado.wav")]
            (run_pdf [good_page ode; synth_fail_page] st0).2 _ "Ode" "Ode_narrado.wav" _).
  - apply outcome_eq. vm_compute. reflexivity.
  - vm_compute. reflexivity.
Defined.

Lemma completed_page_leaves_no_temp_file_witness :
  files (run_page 0 (good_page ode) st0).2 !! temp_name "page" "ab12" 0 ".mid" = None.
Proof.
  refine (completed_page_leaves_no_temp_file soundfont Cv2.bgr2gray "output_audio" 0
            (good_page ode) st0 (run_page 0 (good_page ode) st0).2 _
            (temp_name "page" "ab12" 0 ".mid") _).
  - apply outcome_eq. vm_compute. reflexivity.
  - vm_compute. do 3 right. left.
Defined.

Lemma missing_soundfont_is_a_500_witness :
  run_upload st_no_soundfont
  = (Normal (HTTPException 500 (DetailProcessing
       (Exception ("SoundFont não encontrado em " +:+ soundfont +:+ ".")))),
     {| files := delete (temp_pdf_name "c0ffee") (files st_no_soundfont);
        trace := trace st_no_soundfont;
        narrated_scores := narrated_scores st_no_soundfont |}).
Proof.
  apply (missing_soundfont_is_a_500 base_url soundfont Cv2.bgr2gray upload "c0ffee"
           st_no_soundfont).
  - reflexivity.
  - reflexivity.
  - vm_compute. discriminate.
  - vm_compute. reflexivity.
Defined.

Lemma process_file_links_are_served_witness :
  download_url ode_item = base_url +:+ "/audiobooks/" +:+ "Ode" +:+ "_narrado.wav"
  ∧ get_audiobook ("Ode" +:+ "_narrado.wav") (run_upload st0).2
    = (Normal (FileResponse (OsPath.join OUTPUT_DIR ("Ode" +:+ "_narrado.wav"))
                 "audio/wav" ("Ode" +:+ "_narrado.wav")),
       (run_upload st0).2).
Proof.
  refine (process_file_links_are_served base_url soundfont Cv2.bgr2gray upload "c0ffee"
            st0 [ode_item] (run_upload st0).2 _ ode_item _).
  - apply outcome_eq. vm_compute. reflexivity.
  - vm_compute. left.
Defined.

Lemma dropped_page_image_is_removed_witness :
  files (run_page 0 omr_fail_page st0).2 !! temp_name "page" "cd34" 0 ".png" = None.
Proof.
  apply (dropped_page_image_is_removed soundfont Cv2.bgr2gray "output_audio" 0
           omr_fail_page st0).
  apply outcome_eq. vm_compute. reflexivity.
Defined.

Lemma tempo_comes_from_first_mark_witness :
  generate_narration_text hesitant "Ode"
  = generate_narration_text (with_marks hesitant [None]) "Ode"
  ∧ (silent_mark None = true →
     generate_narration_text hesitant "Ode"
     = generate_narration_text (with_marks hesitant []) "Ode").
Proof.
  apply (tempo_comes_from_first_mark hesitant "Ode" None [Some (PyInt 96)]).
  reflexivity.
Defined.

Lemma metadata_title_has_no_space_witness :
  str_contains " " (resolve_title spaced "ab12" 0) = false.
Proof.
  apply (metadata_title_has_no_space spaced {| title := Some " Ode to Joy " |}
           " Ode to Joy " "ab12" 0); reflexivity.
Defined.

Lemma absolute_title_leaves_output_dir_witness :
  OsPath.join "output_audio" ("/srv/ode" +:+ "_narrado.wav") = "/srv/ode" +:+ "_narrado.wav"
  ∧ ∃ audio,
      files (run_page 0 (good_page rooted) st0).2 !! ("/srv/ode" +:+ "_narrado.wav")
      = Some (WavData audio).
Proof.
  apply (absolute_title_leaves_output_dir soundfont Cv2.bgr2gray "output_audio" 0
           (good_page rooted) st0 (run_page 0 (good_page rooted) st0).1).
  - apply surjective_pairing.
  - exists (new_events st0 (run_page 0 (good_page rooted) st0).2), "/srv/ode_narrado.wav".
    split; vm_compute; reflexivity.
  - vm_compute. reflexivity.
  - reflexivity.
Defined.

Lemma index_has_at_most_one_entry_per_page_witness :
  length [("Ode", "Ode_narrado.wav")] ≤ length [good_page ode; text_page].
Proof.
  apply (index_has_at_most_one_entry_per_page soundfont Cv2.bgr2gray
           [good_page ode; text_page] "partitura.pdf" "output_audio" st0
           [("Ode", "Ode_narrado.wav")] (run_pdf [good_page ode; text_page] st0).2).
  apply outcome_eq. vm_compute. reflexivity.
Defined.

Lemma successful_page_is_finalized_witness :
  ∃ st',
    run_page 0 (good_page ode) st0 = (Normal tt, st')
    ∧ narrated_scores st'
      = PyDict.setitem (resolve_title ode "ab12" 0)
          (resolve_title ode "ab12" 0 +:+ "_narrado.wav") (narrated_scores st0)
    ∧ files st' !! OsPath.join "output_audio" (resolve_title ode "ab12" 0 +:+ "_narrado.wav")
      = Some (WavData (audio_add (audio_add speech (audio_silent 1000)) music))
    ∧ last (trace st')
      = Some (Print (MsgSaved (OsPath.join "output_audio"
                                 (resolve_title ode "ab12" 0 +:+ "_narrado.wav")))).
Proof.
  apply (successful_page_is_finalized soundfont Cv2.bgr2gray "output_audio" 0
           (good_page ode) st0 ode music ode_text speech).
  all: vm_compute; reflexivity.
Defined.

Lemma page_without_long_runs_is_not_music_witness :
  is_sheet_music Cv2.bgr2gray dashed_image = Ok false.
Proof.
  eapply (page_without_long_runs_is_not_music Cv2.bgr2gray dashed_image).
  - reflexivity.
  - vm_compute. reflexivity.
  - vm_compute. lia.
  - vm_compute. reflexivity.
Defined.

Lemma darker_page_stays_music_witness :
  is_sheet_music Cv2.bgr2gray staff_image = Ok true.
Proof.
  apply (darker_page_stays_music Cv2.bgr2gray ruled_image staff_image).
  - reflexivity.
  - reflexivity.
  - vm_compute. reflexivity.
  - intros y x _ _. destruct y; vm_compute; discriminate.
  - vm_compute. reflexivity.
Defined.

Lemma page_without_output_leaves_nothing_witness :
  ∃ st',
    run_page 0 no_output_page st0 = (Continue, st')
    ∧ files st' = delete (temp_name "page" "ef56" 0 ".png") (files st0).
Proof.
  apply (page_without_output_leaves_nothing soundfont Cv2.bgr2gray "output_audio" 0
           no_output_page st0).
  all: vm_compute; reflexivity.
Defined.

Lemma failed_omr_keeps_its_output_witness :
  ∃ st',
    run_page 0 partial_omr_page st0 = (Continue, st')
    ∧ files st' !! temp_name "page" "7b7b" 0 ".xml" = Some (ScoreData (Ok ode))
    ∧ narrated_scores st' = narrated_scores st0.
Proof.
  apply (failed_omr_keeps_its_output soundfont Cv2.bgr2gray "output_audio" 0
           partial_omr_page st0 (Ok ode)).
  all: vm_compute; reflexivity.
Defined.

End SampleChecks.
